(** * tileserver-gl: tile-source adapter and static rendering pipeline

    A shallow embedding of the parts of [src/pmtiles_adapter.js],
    [src/utils.js] and the rendered-map server that the properties below
    talk about, followed by the properties themselves.

    JavaScript data is modelled as the code has it: numbers are IEEE-754
    binary64 values (Rocq's primitive floats), strings are [string], objects
    used as dictionaries are [gmap string _], [undefined]/[null] are explicit
    constructors, and an awaited promise is the value it settles to
    ([Resolved] or [Rejected]).  Effects (archive calls, [setTimeout] sleeps,
    console output) are written to an explicit trace. *)

From Stdlib Require Import ZArith List String Ascii Bool Lia PrimFloat.
From Stdlib Require Import DecimalString.
From Stdlib Require Floats Uint63.
From stdpp Require Import base option gmap strings.
Import ListNotations.

Set Warnings "-inexact-float".
Local Open Scope string_scope.
#[local] Arguments String.append !_ _ /.

(* ===================================================================== *)
(** ** JavaScript primitives used by the sources                          *)
(* ===================================================================== *)

Module Js.

(** [hay.includes(needle)] *)
Fixpoint includes (hay needle : string) : bool :=
  if String.prefix needle hay then true
  else match hay with
       | EmptyString => false
       | String _ rest => includes rest needle
       end.

(** [s.split(sep)] for a one-character separator. *)
Fixpoint split (sep : ascii) (s : string) : list string :=
  match s with
  | EmptyString => [ "" ]
  | String c rest =>
      if Ascii.eqb c sep then "" :: split sep rest
      else match split sep rest with
           | [] => [ String c "" ]
           | w :: ws => String c w :: ws
           end
  end.

(** The character does not occur in the string. *)
Fixpoint noChar (c : ascii) (s : string) : bool :=
  match s with
  | EmptyString => true
  | String d rest => negb (Ascii.eqb d c) && noChar c rest
  end.

(** JavaScript values, as far as the sources inspect them. *)
Inductive JsVal : Type :=
| JUndefined
| JNull
| JBool (b : bool)
| JNum (x : float)
| JStr (s : string).

(** A property value: a scalar, or an array of scalars. *)
Inductive JsProp : Type :=
| PVal (v : JsVal)
| PArr (items : list JsVal).

(** [typeof v === 'number'] *)
Definition isNumber (v : JsVal) : bool :=
  match v with JNum _ => true | _ => false end.

(** [Number.isNaN] on a number: NaN is the only value unequal to itself. *)
Definition isNaN (x : float) : bool := negb (PrimFloat.eqb x x).

(** [v === 0] (strict equality with the number zero; [-0 === 0] holds). *)
Definition strictEqZero (v : JsVal) : bool :=
  match v with JNum x => PrimFloat.eqb x 0%float | _ => false end.

(** ToBoolean. *)
Definition truthy (v : JsVal) : bool :=
  match v with
  | JUndefined | JNull => false
  | JBool b => b
  | JNum x => negb (PrimFloat.eqb x 0%float || isNaN x)
  | JStr s => negb (String.eqb s "")
  end.


(** An error object: only its [message] is read, and it may be missing. *)
Record JsError : Type := mkError { message : option string }.

(** The value an awaited promise settles to. *)
Inductive Settled (A : Type) : Type :=
| Resolved (a : A)
| Rejected (e : JsError).
Arguments Resolved {A} a.
Arguments Rejected {A} e.

(** [`${v}`] for an optional string: a missing one prints as "undefined". *)
Definition template (m : option string) : string :=
  match m with Some s => s | None => "undefined" end.

(** [`${n}`] for a non-negative integer. *)
Definition showNat (n : nat) : string :=
  NilEmpty.string_of_uint (Nat.to_uint n).

(** [a || b] on an optional string: empty and missing are both falsy. *)
Definition orElse (a : option string) (b : string) : string :=
  match a with
  | Some s => if String.eqb s "" then b else s
  | None => b
  end.

End Js.
Export Js.

(* ===================================================================== *)
(** ** src/pmtiles_adapter.js: archive queries with retry                 *)
(* ===================================================================== *)

Module Adapter.

(** What [pmtiles.getHeader()] resolves to (the fields the adapter reads). *)
Record Header : Type := mkHeader {
  tileType : JsVal;
  minZoom : JsVal;
  maxZoom : JsVal;
  minLon : JsVal;
  minLat : JsVal;
  maxLon : JsVal;
  maxLat : JsVal;
  centerLon : JsVal;
  centerLat : JsVal;
  centerZoom : JsVal
}.

(** What [pmtiles.getZxy(z, x, y)] resolves to when it finds an entry. *)
Record ZxyTile : Type := mkZxy { zxyData : option (list Z) }.

(** The archive handle.  Each query is answered per attempt: [n] is the
    iteration of the retry loop in which the call is made, so a handle
    describes an archive whose answers change between attempts. *)
Record PMTiles : Type := mkPMTiles {
  getHeader : nat -> Settled Header;
  getMetadata : nat -> Settled (gmap string JsProp);
  getZxy : nat -> Z -> Z -> Z -> Settled (option ZxyTile)
}.

(** Observable effects, in program order. *)
Inductive Effect : Type :=
| Attempt (n : nat)                     (* the try block is entered *)
| Sleep (ms : Z)                        (* setTimeout(resolve, ms) awaited *)
| WarnRateLimited (ms : Z) (n : nat)    (* console.warn *)
| LogHttpError (msg : string)           (* console.error, bad response code *)
| LogFailed (n : nat) (msg : string)    (* console.error, generic failure *)
| LogExhausted.                         (* console.error after the loop *)

(** How a call ends for its caller. *)
Inductive Completion (A : Type) : Type :=
| Returned (a : A)
| Thrown (msg : string).
Arguments Returned {A} a.
Arguments Thrown {A} msg.

Record TileTypeInfo : Type := mkTileType {
  typeName : JsVal;
  typeHeader : gmap string string
}.

Definition numIs (v : JsVal) (k : float) : bool :=
  match v with JNum x => PrimFloat.eqb x k | _ => false end.

(** [getPmtilesTileType(typenum)]: a [switch] on the number. *)
Definition getPmtilesTileType (typenum : JsVal) : TileTypeInfo :=
  if numIs typenum 0 then mkTileType (JStr "Unknown") ∅
  else if numIs typenum 1 then
    mkTileType (JStr "pbf") {[ "Content-Type" := "application/x-protobuf" ]}
  else if numIs typenum 2 then
    mkTileType (JStr "png") {[ "Content-Type" := "image/png" ]}
  else if numIs typenum 3 then
    mkTileType (JStr "jpeg") {[ "Content-Type" := "image/jpeg" ]}
  else if numIs typenum 4 then
    mkTileType (JStr "webp") {[ "Content-Type" := "image/webp" ]}
  else if numIs typenum 5 then
    mkTileType (JStr "avif") {[ "Content-Type" := "image/avif" ]}
  else mkTileType JUndefined ∅.

(** The bounds written when the header carries none. *)
Definition worldBounds : list JsVal :=
  [ JNum (-180)%float; JNum (-85.05112877980659)%float;
    JNum 180%float; JNum 85.0511287798066%float ].

Definition hasBounds (h : Header) : bool :=
  isNumber (minLon h) && isNumber (minLat h) &&
  isNumber (maxLon h) && isNumber (maxLat h) &&
  negb (strictEqZero (minLon h) && strictEqZero (minLat h) &&
        strictEqZero (maxLon h) && strictEqZero (maxLat h)).

Section Info.
(** [parseInt] applied to a property value; a platform built-in. *)
Variable parseInt : JsVal -> float.

Definition propScalar (p : option JsProp) : JsVal :=
  match p with Some (PVal v) => v | _ => JUndefined end.

(** The statements of the try block that follow the two awaits. *)
Definition fillMetadata (header : Header) (metadata : gmap string JsProp)
  : gmap string JsProp :=
  let m1 := <[ "format" := PVal (typeName (getPmtilesTileType (tileType header))) ]> metadata in
  let m2 := <[ "minzoom" := PVal (minZoom header) ]> m1 in
  let m3 := <[ "maxzoom" := PVal (maxZoom header) ]> m2 in
  let m4 :=
    if hasBounds header then
      <[ "bounds" := PArr [ minLon header; minLat header; maxLon header; maxLat header ] ]> m3
    else <[ "bounds" := PArr worldBounds ]> m3 in
  if truthy (centerZoom header) then
    <[ "center" := PArr [ centerLon header; centerLat header; centerZoom header ] ]> m4
  else
    <[ "center" := PArr [ centerLon header; centerLat header;
                          JNum (parseInt (propScalar (m4 !! "maxzoom")) / 2)%float ] ]> m4.

(** The try block of [getPMtilesInfo] at one attempt. *)
Definition infoAttempt (pm : PMTiles) (attempt : nat) : Settled (gmap string JsProp) :=
  match getHeader pm attempt with
  | Rejected e => Rejected e
  | Resolved header =>
      match getMetadata pm attempt with
      | Rejected e => Rejected e
      | Resolved metadata => Resolved (fillMetadata header metadata)
      end
  end.

(** [error.message && error.message.includes('429')] *)
Definition messageHas429 (e : JsError) : bool :=
  match message e with
  | Some m => negb (String.eqb m "") && includes m "429"
  | None => false
  end.

(** [!error.message?.includes('429')] *)
Definition notOptional429 (e : JsError) : bool :=
  match message e with
  | Some m => negb (includes m "429")
  | None => true
  end.

(** [Math.pow(2, attempt) * 1000] *)
Definition backoffMs (attempt : nat) : Z := (2 ^ Z.of_nat attempt * 1000)%Z.

(** The [for] loop of [getPMtilesInfo]; [fuel] is the number of
    iterations left, [maxRetries - attempt]. *)
Fixpoint infoLoop (pm : PMTiles) (inputFile : string) (maxRetries : nat)
    (lastError : option JsError) (fuel attempt : nat)
  : list Effect * Completion (gmap string JsProp) :=
  match fuel with
  | O =>
      ([], Thrown ("Failed to get PMTiles info after " ++ showNat maxRetries
                   ++ " attempts: "
                   ++ orElse (match lastError with
                              | Some e => message e
                              | None => None
                              end) "Unknown error"))
  | S fuel' =>
      match infoAttempt pm attempt with
      | Resolved metadata => ([Attempt attempt], Returned metadata)
      | Rejected error =>
          if messageHas429 error
             && (Z.of_nat attempt <? Z.of_nat maxRetries - 1)%Z
          then
            let delay := backoffMs attempt in
            let '(tr, c) := infoLoop pm inputFile maxRetries (Some error) fuel' (S attempt) in
            (Attempt attempt :: WarnRateLimited delay (S attempt) :: Sleep delay :: tr, c)
          else if notOptional429 error
                  || (Z.of_nat attempt =? Z.of_nat maxRetries - 1)%Z
          then
            ([Attempt attempt],
             Thrown (template (message error) ++ " for file: " ++ inputFile))
          else
            let '(tr, c) := infoLoop pm inputFile maxRetries (Some error) fuel' (S attempt) in
            (Attempt attempt :: tr, c)
      end
  end.

Definition getPMtilesInfo (pm : PMTiles) (inputFile : string) (maxRetries : nat)
  : list Effect * Completion (gmap string JsProp) :=
  infoLoop pm inputFile maxRetries None maxRetries 0.

(** The attempt failed and the metadata loop reads it as rate-limited. *)
Definition infoRateLimited (pm : PMTiles) (k : nat) : bool :=
  match infoAttempt pm k with
  | Rejected e => messageHas429 e
  | Resolved _ => false
  end.

End Info.

(** What [getPMtilesTile] hands back when it has a tile. *)
Record TileInfo : Type := mkTileInfo {
  tileData : list Z;
  tileHeader : gmap string string
}.

(** The try block of [getPMtilesTile] at one attempt; [None] is the
    [return null] taken when the archive has no entry or no data. *)
Definition tileAttempt (pm : PMTiles) (z x y : Z) (attempt : nat)
  : Settled (option TileInfo) :=
  match getZxy pm attempt z x y with
  | Rejected e => Rejected e
  | Resolved None => Resolved None
  | Resolved (Some zxyTile) =>
      match zxyData zxyTile with
      | None => Resolved None
      | Some bytes =>
          match getHeader pm attempt with
          | Rejected e => Rejected e
          | Resolved header =>
              Resolved (Some (mkTileInfo bytes
                                (typeHeader (getPmtilesTileType (tileType header)))))
          end
      end
  end.

(** [error.message || 'Unknown error'] *)
Definition errorMessage (e : JsError) : string :=
  orElse (message e) "Unknown error".

(** The [for] loop of [getPMtilesTile]. *)
Fixpoint tileLoop (pm : PMTiles) (z x y : Z) (maxRetries : nat) (fuel attempt : nat)
  : list Effect * Completion (option TileInfo) :=
  match fuel with
  | O => ([LogExhausted], Returned None)
  | S fuel' =>
      match tileAttempt pm z x y attempt with
      | Resolved r => ([Attempt attempt], Returned r)
      | Rejected error =>
          let msg := errorMessage error in
          if includes msg "429" && (Z.of_nat attempt <? Z.of_nat maxRetries - 1)%Z
          then
            let delay := backoffMs attempt in
            let '(tr, c) := tileLoop pm z x y maxRetries fuel' (S attempt) in
            (Attempt attempt :: WarnRateLimited delay (S attempt) :: Sleep delay :: tr, c)
          else if includes msg "Bad response code:"
          then ([Attempt attempt; LogHttpError msg], Returned None)
          else
            let '(tr, c) := tileLoop pm z x y maxRetries fuel' (S attempt) in
            (Attempt attempt :: LogFailed (S attempt) msg :: tr, c)
      end
  end.

Definition getPMtilesTile (pm : PMTiles) (z x y : Z) (maxRetries : nat)
  : list Effect * Completion (option TileInfo) :=
  tileLoop pm z x y maxRetries maxRetries 0.

(** The attempt failed and the tile loop reads it as rate-limited. *)
Definition tileRateLimited (pm : PMTiles) (z x y : Z) (k : nat) : bool :=
  match tileAttempt pm z x y k with
  | Rejected e => includes (errorMessage e) "429"
  | Resolved _ => false
  end.

(** The attempt failed with a bad response code that is not also read as
    rate-limited. *)
Definition tileBadResponse (pm : PMTiles) (z x y : Z) (k : nat) : bool :=
  match tileAttempt pm z x y k with
  | Rejected e => includes (errorMessage e) "Bad response code:"
                  && negb (includes (errorMessage e) "429")
  | Resolved _ => false
  end.

(** The attempt failed. *)
Definition tileFailed (pm : PMTiles) (z x y : Z) (k : nat) : bool :=
  match tileAttempt pm z x y k with
  | Rejected _ => true
  | Resolved _ => false
  end.

(** The default of the [maxRetries] parameter of both functions. *)
Definition defaultMaxRetries : nat := 3.

(** Number of times the try block was entered. *)
Fixpoint attempts (tr : list Effect) : nat :=
  match tr with
  | [] => 0
  | Attempt _ :: tr' => S (attempts tr')
  | _ :: tr' => attempts tr'
  end.

(** The awaited delays, in order. *)
Fixpoint sleeps (tr : list Effect) : list Z :=
  match tr with
  | [] => []
  | Sleep ms :: tr' => ms :: sleeps tr'
  | _ :: tr' => sleeps tr'
  end.

(** Some bound of the header is not a number. *)
Definition boundsMissing (h : Header) : bool :=
  negb (isNumber (minLon h) && isNumber (minLat h) &&
        isNumber (maxLon h) && isNumber (maxLat h)).

(** All four bounds of the header are the number zero. *)
Definition boundsAllZero (h : Header) : bool :=
  strictEqZero (minLon h) && strictEqZero (minLat h) &&
  strictEqZero (maxLon h) && strictEqZero (maxLat h).

(** The same header with another [centerZoom]. *)
Definition withCenterZoom (h : Header) (v : JsVal) : Header :=
  mkHeader (tileType h) (minZoom h) (maxZoom h)
           (minLon h) (minLat h) (maxLon h) (maxLat h)
           (centerLon h) (centerLat h) v.

(** [parseInt] where the adapter applies it: on a number that is already
    an integer below 1e21 it is that number, and on [undefined], [null] and
    booleans it is NaN.  Strings and other numbers are outside this use and
    are given NaN as well. *)
Definition parseIntOnIntegers (v : JsVal) : float :=
  match v with
  | JNum x => x
  | _ => nan
  end.

(** Numbers compared with [===], element by element. *)
Fixpoint sameNumbers (a b : list JsVal) : bool :=
  match a, b with
  | [], [] => true
  | JNum x :: a', JNum y :: b' => PrimFloat.eqb x y && sameNumbers a' b'
  | _, _ => false
  end.

(** The extent as the specification prints it, rounded to seven decimals. *)
Definition roundedWorldBounds : list JsVal :=
  [ JNum (-180)%float; JNum (-85.0511288)%float;
    JNum 180%float; JNum 85.0511288%float ].

(** Sample archives used to run the definitions. *)

(** Every query rejects with the same message. *)
Definition failingArchive (msg : string) : PMTiles :=
  mkPMTiles (fun _ => Rejected (mkError (Some msg)))
            (fun _ => Rejected (mkError (Some msg)))
            (fun _ _ _ _ => Rejected (mkError (Some msg))).

Definition pngHeader : Header :=
  mkHeader (JNum 2) (JNum 0) (JNum 14)
           (JNum 0) (JNum 0) (JNum 0) (JNum 0)
           (JNum 8.5) (JNum 47.25) (JNum 0).

(** The first [failures] attempts reject with [msg]; later ones find a
    three-byte PNG tile. *)
Definition flakyArchive (failures : nat) (msg : string) : PMTiles :=
  mkPMTiles (fun _ => Resolved pngHeader)
            (fun n => if (n <? failures)%nat then Rejected (mkError (Some msg))
                      else Resolved ∅)
            (fun n _ _ _ => if (n <? failures)%nat then Rejected (mkError (Some msg))
                            else Resolved (Some (mkZxy (Some [1; 2; 3]%Z)))).

End Adapter.

(* ===================================================================== *)
(** ** The regular expressions of [parseS3Url]                            *)
(* ===================================================================== *)

Module Regex.

(** The character classes that occur in the three patterns. *)
Inductive CharClass : Type :=
| AnyChar            (* .     : anything but a line terminator *)
| NotSlash           (* [^/]  *)
| Lit (c : ascii).   (* a literal character *)

Definition isLineTerminator (c : ascii) : bool :=
  Ascii.eqb c "010"%char || Ascii.eqb c "013"%char.

Definition classMatches (cl : CharClass) (c : ascii) : bool :=
  match cl with
  | AnyChar => negb (isLineTerminator c)
  | NotSlash => negb (Ascii.eqb c "/"%char)
  | Lit d => Ascii.eqb c d
  end.

Inductive Atom : Type :=
| One (cl : CharClass)     (* x  *)
| Star (cl : CharClass)    (* x* *)
| Plus (cl : CharClass).   (* x+ *)

(** A pattern is a sequence of pieces, each a run of atoms that is either
    a capture group or not; it is anchored at both ends ([^ ... $]). *)
Inductive Piece : Type :=
| Plain (atoms : list Atom)
| Capture (atoms : list Atom).

Definition snoc (w : string) (c : ascii) : string := w ++ String c "".

Section Matcher.
Context {R : Type}.

(** Greedy [x*]: take as many characters as the class allows, and give
    one back each time the rest of the pattern fails. [acc] is the text
    consumed so far by the piece. *)
Fixpoint matchStar (cl : CharClass) (s acc : string)
    (k : string -> string -> option R) : option R :=
  match s with
  | String c rest =>
      if classMatches cl c then
        match matchStar cl rest (snoc acc c) k with
        | Some r => Some r
        | None => k acc s
        end
      else k acc s
  | EmptyString => k acc s
  end.

Fixpoint matchAtoms (atoms : list Atom) (s acc : string)
    (k : string -> string -> option R) : option R :=
  match atoms with
  | [] => k acc s
  | One cl :: more =>
      match s with
      | String c rest =>
          if classMatches cl c then matchAtoms more rest (snoc acc c) k else None
      | EmptyString => None
      end
  | Star cl :: more =>
      matchStar cl s acc (fun acc' s' => matchAtoms more s' acc' k)
  | Plus cl :: more =>
      match s with
      | String c rest =>
          if classMatches cl c
          then matchStar cl rest (snoc acc c) (fun acc' s' => matchAtoms more s' acc' k)
          else None
      | EmptyString => None
      end
  end.
End Matcher.

(** [s.match(pattern)]: the captured groups, in order, or [None]. *)
Fixpoint matchPieces (pieces : list Piece) (s : string) (caps : list string)
  : option (list string) :=
  match pieces with
  | [] => match s with EmptyString => Some caps | String _ _ => None end
  | Plain atoms :: more =>
      matchAtoms atoms s "" (fun _ s' => matchPieces more s' caps)
  | Capture atoms :: more =>
      matchAtoms atoms s "" (fun w s' => matchPieces more s' (caps ++ [w]))
  end.

Definition regexMatch (pattern : list Piece) (s : string) : option (list string) :=
  matchPieces pattern s [].

Fixpoint lits (s : string) : list Atom :=
  match s with
  | EmptyString => []
  | String c rest => One (Lit c) :: lits rest
  end.

(** [/^s3:\/\/([^/]*\.[^/]+)\/([^/]+)\/(.+)$/] *)
Definition customWithDot : list Piece :=
  [ Plain (lits "s3://");
    Capture [ Star NotSlash; One (Lit "."%char); Plus NotSlash ];
    Plain (lits "/");
    Capture [ Plus NotSlash ];
    Plain (lits "/");
    Capture [ Plus AnyChar ] ].

(** [/^s3:\/\/([^/]+)\/([^/]+)\/(.+)$/] *)
Definition customForced : list Piece :=
  [ Plain (lits "s3://");
    Capture [ Plus NotSlash ];
    Plain (lits "/");
    Capture [ Plus NotSlash ];
    Plain (lits "/");
    Capture [ Plus AnyChar ] ].

(** [/^s3:\/\/([^/]+)\/(.+)$/] *)
Definition aws : list Piece :=
  [ Plain (lits "s3://");
    Capture [ Plus NotSlash ];
    Plain (lits "/");
    Capture [ Plus AnyChar ] ].

(** *** A declarative reading of the patterns *)

(** Every character of the word belongs to the class. *)
Fixpoint allIn (cl : CharClass) (w : string) : bool :=
  match w with
  | EmptyString => true
  | String c rest => classMatches cl c && allIn cl rest
  end.

(** The words a run of atoms stands for. *)
Inductive atomsMatch : list Atom -> string -> Prop :=
| am_nil : atomsMatch [] ""
| am_one cl c more w :
    classMatches cl c = true -> atomsMatch more w ->
    atomsMatch (One cl :: more) (String c w)
| am_star cl u more w :
    allIn cl u = true -> atomsMatch more w ->
    atomsMatch (Star cl :: more) (u ++ w)
| am_plus cl c u more w :
    classMatches cl c = true -> allIn cl u = true -> atomsMatch more w ->
    atomsMatch (Plus cl :: more) (String c (u ++ w)).

(** The texts a whole pattern stands for, with the groups it captures. *)
Inductive piecesMatch : list Piece -> string -> list string -> Prop :=
| pm_nil : piecesMatch [] "" []
| pm_plain atoms more w s caps :
    atomsMatch atoms w -> piecesMatch more s caps ->
    piecesMatch (Plain atoms :: more) (w ++ s) caps
| pm_capture atoms more w s caps :
    atomsMatch atoms w -> piecesMatch more s caps ->
    piecesMatch (Capture atoms :: more) (w ++ s) (w :: caps).

(** The endpoint group, [[^/]*\.[^/]+]. *)
Definition hostAtoms : list Atom :=
  [ Star NotSlash; One (Lit "."%char); Plus NotSlash ].

(** A dot occurs somewhere before the last character. *)
Fixpoint hasInnerDot (s : string) : bool :=
  match s with
  | EmptyString => false
  | String c rest =>
      (Ascii.eqb c "."%char && negb (String.eqb rest "")) || hasInnerDot rest
  end.

(** The two forms of location string. *)
Definition s3Custom (h b k : string) : string := "s3://" ++ h ++ "/" ++ b ++ "/" ++ k.
Definition s3Aws (b k : string) : string := "s3://" ++ b ++ "/" ++ k.

End Regex.

(* ===================================================================== *)
(** ** src/pmtiles_adapter.js: [S3Source]                                 *)
(* ===================================================================== *)

Module S3.
Import Regex.

(** The object [parseS3Url] returns. *)
Record Parsed : Type := mkParsed {
  endpoint : option string;     (* null or `https://${endpoint}` *)
  bucket : string;
  key : string;
  region : string;
  profile : option string;      (* null or the query parameter *)
  requestPayer : bool
}.

(** The configuration handed to [new S3Client]. *)
Record ClientConfig : Type := mkClientConfig {
  clientRegion : string;
  forcePathStyle : bool;
  clientEndpoint : option string;
  credentialsProfile : option string
}.

(** The fields the constructor stores; [srcProfile] is its local
    [profile], which only reaches the client configuration. *)
Record Source : Type := mkSource {
  srcBucket : string;
  srcKey : string;
  srcEndpoint : option string;
  srcUrl : string;
  srcRequestPayer : bool;
  srcRegion : string;
  srcProfile : option string;
  srcClient : ClientConfig
}.

Definition nl : string := String "010"%char "".

Definition invalidFormatMessage (url : string) : string :=
  "Invalid S3 URL format: " ++ url ++ nl
  ++ "Expected formats:" ++ nl
  ++ "  AWS S3: s3://bucket-name/path/to/file.pmtiles" ++ nl
  ++ "  Custom endpoint: s3://endpoint.com/bucket/path/to/file.pmtiles" ++ nl
  ++ "Use s3UrlFormat parameter to override auto-detection if needed.".

(** [a ?? b] *)
Definition nullish {A : Type} (a : option A) (b : A) : A :=
  match a with Some v => v | None => b end.

(** Truthiness of an optional string. *)
Definition truthyStr (a : option string) : bool :=
  match a with Some s => negb (String.eqb s "") | None => false end.

Definition strIs (a : option string) (lit : string) : bool :=
  match a with Some s => String.eqb s lit | None => false end.

Section WithPlatform.
(** [new URLSearchParams(queryString).get(name)], a platform class. *)
Variable searchParamsGet : string -> string -> option string.
(** [process.env.AWS_REGION] *)
Variable envRegion : option string.

(** The optional query string: the second element of [url.split('?')],
    when it is a non-empty string. *)
Definition queryOf (url : string) : option string :=
  match split "?"%char url with
  | _ :: q :: _ => if String.eqb q "" then None else Some q
  | _ => None
  end.

Definition cleanOf (url : string) : string :=
  match split "?"%char url with
  | c :: _ => c
  | [] => ""
  end.

Definition parseS3Url (url : string) (s3UrlFormat : option string)
  : string + Parsed :=
  (* an invalid format hint is dropped *)
  let fmt0 :=
    if truthyStr s3UrlFormat && negb (strIs s3UrlFormat "aws")
       && negb (strIs s3UrlFormat "custom")
    then None else s3UrlFormat in
  let region0 := orElse envRegion "us-east-1" in
  let cleanUrl := cleanOf url in
  let '(profile1, region1, fmt1, payer1) :=
    match queryOf url with
    | Some q =>
        let payerVal := searchParamsGet q "requestPayer" in
        (searchParamsGet q "profile",
         nullish (searchParamsGet q "region") region0,
         match fmt0 with
         | Some f => Some f
         | None => searchParamsGet q "s3UrlFormat"
         end,
         strIs payerVal "true" || strIs payerVal "1")
    | None => (None, region0, fmt0, false)
    end in
  let buildResult (ep : option string) (b k : string) : Parsed :=
    mkParsed (match ep with
              | Some e => if String.eqb e "" then None else Some ("https://" ++ e)
              | None => None
              end)
             b k region1 profile1 payer1 in
  let failure : string + Parsed := inl (invalidFormatMessage url) in
  if strIs fmt1 "custom" then
    match regexMatch customForced cleanUrl with
    | Some [m1; m2; m3] => inr (buildResult (Some m1) m2 m3)
    | _ => failure
    end
  else if strIs fmt1 "aws" then
    match regexMatch aws cleanUrl with
    | Some [m1; m2] => inr (buildResult None m1 m2)
    | _ => failure
    end
  else
    match regexMatch customWithDot cleanUrl with
    | Some [m1; m2; m3] => inr (buildResult (Some m1) m2 m3)
    | _ =>
        match regexMatch aws cleanUrl with
        | Some [m1; m2] => inr (buildResult None m1 m2)
        | _ => failure
        end
    end.

(** [createS3Client(endpoint, region, profile, verbose)] *)
Definition createS3Client (ep : option string) (rgn : string) (prof : option string)
  : ClientConfig :=
  mkClientConfig rgn (truthyStr ep)
                 (if truthyStr ep then ep else None)
                 (if truthyStr prof then prof else None).

(** [new S3Source(s3Url, s3Profile, configRequestPayer, configRegion,
    s3UrlFormat)]; [inl] is the error thrown by [parseS3Url]. *)
Definition newS3Source (s3Url : string) (s3Profile : option string)
    (configRequestPayer : option bool) (configRegion : option string)
    (s3UrlFormat : option string) : string + Source :=
  match parseS3Url s3Url s3UrlFormat with
  | inl err => inl err
  | inr parsed =>
      let prof := if truthyStr s3Profile then s3Profile else profile parsed in
      let payer := nullish configRequestPayer (requestPayer parsed) in
      let rgn := orElse configRegion (region parsed) in
      inr (mkSource (bucket parsed) (key parsed) (endpoint parsed) s3Url
                    payer rgn prof
                    (createS3Client (endpoint parsed) rgn prof))
  end.

(** The region used when neither configuration nor query string names one. *)
Definition defaultRegion : string := orElse envRegion "us-east-1".

(** The value of a query parameter of the location string, if it has a
    query string that carries it. *)
Definition urlParam (url name : string) : option string :=
  match queryOf url with
  | Some q => searchParamsGet q name
  | None => None
  end.

End WithPlatform.

(** A host component: no slash, no question mark, a dot before the end. *)
Definition validHost (h : string) : bool :=
  noChar "/"%char h && noChar "?"%char h && hasInnerDot h.

(** A bucket component: non-empty, no slash, no question mark. *)
Definition validBucket (b : string) : bool :=
  negb (String.eqb b "") && noChar "/"%char b && noChar "?"%char b.

(** A key: non-empty, no question mark, no line terminator. *)
Definition validKey (k : string) : bool :=
  negb (String.eqb k "") && noChar "?"%char k
  && noChar "010"%char k && noChar "013"%char k.

(** [s] cut at its first [c]: what precedes it, and what follows it if [c]
    occurs. *)
Fixpoint cutAt (c : ascii) (s : string) : string * option string :=
  match s with
  | EmptyString => ("", None)
  | String d rest =>
      if Ascii.eqb d c then ("", Some rest)
      else let '(before, after) := cutAt c rest in (String d before, after)
  end.

(** A plain reading of [URLSearchParams.get]: the value of the first
    [name=value] pair among those separated by [&], a pair without [=]
    having the empty value.  Percent-decoding is left out; it is used to run
    the definitions on sample inputs. *)
Fixpoint firstParam (pairs : list string) (name : string) : option string :=
  match pairs with
  | [] => None
  | p :: more =>
      let '(n, v) := cutAt "="%char p in
      if String.eqb n name then Some (nullish v "") else firstParam more name
  end.

Definition plainParamsGet (query name : string) : option string :=
  firstParam (split "&"%char query) name.

End S3.

(* ===================================================================== *)
(** ** [parseFloat]                                                       *)
(* ===================================================================== *)

Module Number.
Local Open Scope float_scope.

(** The platform's [parseFloat]: leading white space is dropped, then the
    longest prefix that is a decimal literal is read (an optional sign, then
    [Infinity], or digits with an optional fraction and an optional
    exponent); what follows that prefix is ignored, and no such prefix at
    all gives NaN.  The result is the Number value of the literal: the
    binary64 number nearest to digits * 10^exponent, a tie going to the one
    with an even significand, and infinity from 2^1024 - 2^970 on. *)

Definition isSpace (c : ascii) : bool :=
  Ascii.eqb c " "%char || Ascii.eqb c "009"%char || Ascii.eqb c "010"%char
  || Ascii.eqb c "011"%char || Ascii.eqb c "012"%char || Ascii.eqb c "013"%char
  || Ascii.eqb c "160"%char.

Fixpoint skipSpaces (s : string) : string :=
  match s with
  | String c rest => if isSpace c then skipSpaces rest else s
  | EmptyString => s
  end.

Definition digitOf (c : ascii) : option nat :=
  let n := nat_of_ascii c in
  if (48 <=? n)%nat && (n <=? 57)%nat then Some (n - 48)%nat else None.

(** The leading digits of [s] and what follows them. *)
Fixpoint takeDigits (s : string) : list nat * string :=
  match s with
  | String c rest =>
      match digitOf c with
      | Some d => let '(ds, tl) := takeDigits rest in (d :: ds, tl)
      | None => ([], s)
      end
  | EmptyString => ([], s)
  end.

(** The digits read as a decimal numeral. *)
Definition digitsZ (ds : list nat) : Z :=
  fold_left (fun acc d => (acc * 10 + Z.of_nat d)%Z) ds 0%Z.

(** The exponent part [e[+-]digits], if one is there; an [e] that no digit
    follows is not part of the literal. *)
Definition takeExponent (s : string) : Z :=
  match s with
  | String c rest =>
      if Ascii.eqb c "e"%char || Ascii.eqb c "E"%char then
        let '(negative, rest') :=
          match rest with
          | String "-"%char r => (true, r)
          | String "+"%char r => (false, r)
          | _ => (false, rest)
          end in
        let size := digitsZ (fst (takeDigits rest')) in
        if negative then (- size)%Z else size
      else 0%Z
  | EmptyString => 0%Z
  end.

(** What the longest literal at the start of a string denotes: an infinity,
    or (-1)^negative * digits * 10^exponent. *)
Inductive Literal : Type :=
| LitInfinity (negative : bool)
| LitDecimal (negative : bool) (digits exponent : Z).

Definition literal (s : string) : option Literal :=
  let s1 := skipSpaces s in
  let '(negative, s2) :=
    match s1 with
    | String "-"%char r => (true, r)
    | String "+"%char r => (false, r)
    | _ => (false, s1)
    end in
  if String.prefix "Infinity" s2 then Some (LitInfinity negative)
  else
    let '(intDigits, s3) := takeDigits s2 in
    let '(fracDigits, s4) :=
      match s3 with
      | String "."%char r => takeDigits r
      | _ => ([], s3)
      end in
    match intDigits, fracDigits with
    | [], [] => None
    | _, _ =>
        Some (LitDecimal negative (digitsZ (intDigits ++ fracDigits))
                (takeExponent s4 - Z.of_nat (List.length fracDigits)))
    end.

(** [n / d] written at the exponent [e]: the pair [(a, b)] with
    [a / b = (n / d) / 2^e]. *)
Definition scaled (n d e : Z) : Z * Z :=
  (n * 2 ^ Z.max 0 (- e), d * 2 ^ Z.max 0 e)%Z.

(** The exponent of the binary64 number nearest to [n / d], for positive
    [n] and [d]: the one at which the quotient has 53 bits, and never less
    than -1074, where the subnormal numbers live. *)
Definition exponentOf (n d : Z) : Z :=
  let e0 := (Z.log2 n - Z.log2 d - 53)%Z in
  let '(a, b) := scaled n d e0 in
  Z.max (if (2 ^ 53 * b <=? a)%Z then e0 + 1 else e0) (-1074).

(** The integer nearest to [a / b], the even one of two equally near. *)
Definition nearestInteger (a b : Z) : Z :=
  let q := (a / b)%Z in
  let r := (a mod b)%Z in
  if (2 * r <? b)%Z then q
  else if (b <? 2 * r)%Z then (q + 1)%Z
  else if Z.even q then q else (q + 1)%Z.

(** The binary64 number nearest to [n / d], a tie going to the even
    significand: [m * 2^e] for the integer [m] nearest to the quotient at
    the exponent [e], which the format holds exactly or, from 2^1024 on, as
    infinity. *)
Definition roundRatio (n d : Z) : float :=
  let e := exponentOf n d in
  let '(a, b) := scaled n d e in
  FloatOps.Z.ldexp (of_uint63 (Uint63.of_Z (nearestInteger a b))) e.

(** The Number value of [digits * 10^exponent]. *)
Definition numberValue (digits exponent : Z) : float :=
  if (digits =? 0)%Z then 0
  else if (0 <=? exponent)%Z then roundRatio (digits * 10 ^ exponent) 1
  else roundRatio digits (10 ^ (- exponent)).

Definition signed (negative : bool) (x : float) : float :=
  if negative then - x else x.

Definition parseFloat (s : string) : float :=
  match literal s with
  | None => nan
  | Some (LitInfinity negative) => signed negative infinity
  | Some (LitDecimal negative digits exponent) =>
      signed negative (numberValue digits exponent)
  end.

End Number.

(* ===================================================================== *)
(** ** The rendered-map server: marker options                            *)
(* ===================================================================== *)

Module Markers.
Import Number.
Local Open Scope float_scope.

(** A marker as [extractMarkersFromQuery] builds it; the three optional
    properties are the ones [parseMarkerOptions] may add. *)
Record Marker : Type := mkMarker {
  location : float * float;
  icon : string;
  scale : option float;
  offsetX : option float;
  offsetY : option float
}.

Inductive Warning : Type :=
| InvalidScale (value : string)
| UnknownOption (name : string).

Definition setScale (m : Marker) (x : float) : Marker :=
  mkMarker (location m) (icon m) (Some x) (offsetX m) (offsetY m).
Definition setOffsetX (m : Marker) (x : float) : Marker :=
  mkMarker (location m) (icon m) (scale m) (Some x) (offsetY m).
Definition setOffsetY (m : Marker) (x : float) : Marker :=
  mkMarker (location m) (icon m) (scale m) (offsetX m) (Some x).

(** [!isNaN(scale) && scale > 0 && scale < 10] *)
Definition scaleOk (x : float) : bool :=
  negb (isNaN x) && PrimFloat.ltb 0 x && PrimFloat.ltb x 10.

(** [!isNaN(offset) && Math.abs(offset) < 1000] *)
Definition offsetOk (x : float) : bool :=
  negb (isNaN x) && PrimFloat.ltb (PrimFloat.abs x) 1000.

(** The body of the loop, for the parts of one option split at [:]. *)
Definition applyOption (optionParts : list string) (m : Marker)
  : Marker * list Warning :=
  match optionParts with
  | name :: value :: _ =>
      if String.eqb name "scale" then
        let x := parseFloat value in
        if scaleOk x then (setScale m x, []) else (m, [InvalidScale value])
      else if String.eqb name "offset" then
        let providedOffset := split ","%char value in
        let x := parseFloat (hd "" providedOffset) in
        let m1 := if offsetOk x then setOffsetX m x else m in
        match providedOffset with
        | _ :: second :: _ =>
            let y := parseFloat second in
            (if offsetOk y then setOffsetY m1 y else m1, [])
        | _ => (m1, [])
        end
      else (m, [UnknownOption name])
  | _ => (m, [])            (* fewer than two parts: continue *)
  end.

(** [parseMarkerOptions(optionsList, marker)]; the marker is updated in
    place, so the updated marker is handed back together with what was
    written to the console. *)
Fixpoint parseMarkerOptions (optionsList : list string) (m : Marker)
  : Marker * list Warning :=
  match optionsList with
  | [] => (m, [])
  | options :: more =>
      let '(m1, w1) := applyOption (split ":"%char options) m in
      let '(m2, w2) := parseMarkerOptions more m1 in
      (m2, (w1 ++ w2)%list)
  end.

(** The options of a marker given in a query as
    [location|icon|option|option...]: [markerParts.slice(2)]. *)
Definition markerOptionsOf (providedMarker : string) : list string :=
  skipn 2 (split "|"%char providedMarker).

End Markers.

(* ===================================================================== *)
(** ** src/utils.js: [fetchTileData]                                      *)
(* ===================================================================== *)

Module Utils.
Import Adapter.

(** What the MBTiles reader passes to the callback of [getTile]. *)
Record MbTileAnswer : Type := mkMbAnswer {
  mbErr : option JsError;
  mbData : list Z;
  mbHeaders : gmap string string
}.

(** A registered source together with its [sourceType] tag. *)
Inductive Source : Type :=
| PmtilesSource (pm : PMTiles)                         (* 'pmtiles' *)
| MbtilesSource (getTile : Z -> Z -> Z -> MbTileAnswer) (* 'mbtiles' *)
| OtherSource.                                         (* any other tag *)

Record FetchedTile : Type := mkFetched {
  data : list Z;
  headers : gmap string string
}.

(** [fetchTileData(source, sourceType, z, x, y)]: the archive trace, and
    the tile or [None] for [null]/[undefined]. *)
Definition fetchTileData (source : Source) (z x y : Z)
  : list Effect * Completion (option FetchedTile) :=
  match source with
  | PmtilesSource pm =>
      match getPMtilesTile pm z x y defaultMaxRetries with
      | (tr, Returned None) => (tr, Returned None)
      | (tr, Returned (Some tileinfo)) =>
          (tr, Returned (Some (mkFetched (tileData tileinfo) (tileHeader tileinfo))))
      | (tr, Thrown msg) => (tr, Thrown msg)
      end
  | MbtilesSource getTile =>
      let answer := getTile z x y in
      match mbErr answer with
      | Some _ => ([], Returned None)
      | None => ([], Returned (Some (mkFetched (mbData answer) (mbHeaders answer))))
      end
  | OtherSource => ([], Returned None)
  end.

End Utils.

(* ===================================================================== *)
(** ** The rendered-map server: sub-resource requests of the renderer     *)
(* ===================================================================== *)

Module Resolver.
Import Adapter Utils.

(** The arguments the resolver passes to the renderer's callback. *)
Inductive CallbackArgs : Type :=
| CbAbsent                                   (* callback()              *)
| CbData (bytes : list Z) (modified : option string)
                                             (* callback(null, {data})  *)
| CbError (e : JsError).                     (* callback(err, null)     *)


Section WithImaging.
(** [new Color(color).array()]; [inl] when the constructor throws. *)
Variable colorArray : string -> JsError + list Z.
(** [sharp(pixel, {raw: {1, 1, channels}}).toFormat(format).toBuffer]:
    the encoded image, or the error of the pipeline. *)
Variable encodePixel : list Z -> nat -> string -> JsError + list Z.
(** ToNumber of a string compared with 1, for [sparse == true]. *)
Variable strIsOne : string -> bool.
(** [gunzipP] *)
Variable gunzip : list Z -> Settled (list Z).
(** [options.dataDecoratorFunc], when configured; [inl] when the call
    throws. *)
Variable dataDecoratorFunc :
  option (string -> string -> list Z -> Z -> Z -> Z -> JsError + list Z).

(** [createEmptyResponse(format, color, callback)] over the module's
    [cachedEmptyResponses]; returns the updated cache with what the
    callback receives. *)
Definition createEmptyResponse (cache : gmap string (list Z))
    (fmt : option string) (col : option string)
  : gmap string (list Z) * CallbackArgs :=
  if negb (S3.truthyStr fmt) || S3.strIs fmt "pbf" then
    (cache, CbData (default [] (cache !! "")) None)
  else
    let fmt1 := S3.nullish fmt "" in
    let fmt2 := if String.eqb fmt1 "jpg" then "jpeg" else fmt1 in
    let col1 := orElse col "rgba(255,255,255,0)" in
    let cacheKey := fmt2 ++ "," ++ col1 in
    match cache !! cacheKey with
    | Some bytes => (cache, CbData bytes None)
    | None =>
        match colorArray col1 with
        | inl e => (cache, CbError e)
        | inr array =>
            let channels :=
              if (List.length array =? 4)%nat && negb (String.eqb fmt2 "jpeg")
              then 4%nat else 3%nat in
            match encodePixel array channels fmt2 with
            | inl e => (cache, CbError e)
            | inr buffer => (<[ cacheKey := buffer ]> cache, CbData buffer None)
            end
        end
    end.

(** How a request of the renderer ends: the callback is invoked, or the
    handler's promise rejects without the callback being invoked (nothing
    in the handler catches what [gunzipP] or the decorator throws). *)
Inductive Outcome : Type :=
| Callback (args : CallbackArgs)
| Unhandled (msg : string).

Definition isGzipped (bytes : list Z) : bool :=
  match bytes with
  | 31%Z :: 139%Z :: _ => true
  | _ => false
  end.

End WithImaging.

(** Samples used to run the definitions. *)




End Resolver.

(* ===================================================================== *)
(** ** The rendered-map server: [respondImage]                            *)
(* ===================================================================== *)

Module Respond.

(** *** The render call and its timer, as handlers run by the event loop *)

Inductive Timer : Type :=
| Armed (delayMs : Z)    (* setTimeout pending *)
| Cleared                (* clearTimeout ran first *)
| Fired.                 (* the timer's handler ran *)

Inductive PoolOp : Type :=
| RemoveBadObject        (* pool.removeBadObject(renderer) *)
| Release.               (* pool.release(renderer) *)

Record Response : Type := mkResponse { status : Z; body : string }.

Record State : Type := mkState {
  timer : Timer;
  headersSent : bool;            (* res.headersSent *)
  poolOps : list PoolOp;         (* in the order they were made *)
  responses : list Response      (* in the order they were sent *)
}.

(** What the event loop may deliver after [renderer.render] was called. *)
Inductive Event : Type :=
| TimerFires
| RenderCallback (err : option string)     (* (err, data) => ... *)
| ToBufferCallback (failed : bool).        (* err || !buffer *)

Definition renderTimeoutMs : Z := 30000.

(** [if (!res.headersSent) res.status(code).send(text)] *)
Definition sendUnlessSent (code : Z) (text : string) (s : State) : State :=
  if headersSent s then s
  else mkState (timer s) true (poolOps s) (responses s ++ [mkResponse code text]).

Definition pushPoolOp (op : PoolOp) (s : State) : State :=
  mkState (timer s) (headersSent s) (poolOps s ++ [op]) (responses s).

Definition setTimer (t : Timer) (s : State) : State :=
  mkState t (headersSent s) (poolOps s) (responses s).

(** [clearTimeout(renderTimeout)]: cancels a pending timer only. *)
Definition clearTimeout (s : State) : State :=
  match timer s with
  | Armed _ => setTimer Cleared s
  | _ => s
  end.

(** The state once [setTimeout(..., 30000)] has run, before
    [renderer.render] is called. *)
Definition armed : State := mkState (Armed renderTimeoutMs) false [] [].

(** The [catch] block around [renderer.render]. *)
Definition renderThrew (s : State) : State :=
  sendUnlessSent 500 "Render failed" (pushPoolOp RemoveBadObject (clearTimeout s)).

Definition step (s : State) (ev : Event) : State :=
  match ev with
  | TimerFires =>
      match timer s with
      | Armed _ =>
          sendUnlessSent 503 "Renderer timeout"
            (pushPoolOp RemoveBadObject (setTimer Fired s))
      | _ => s
      end
  | RenderCallback err =>
      let s1 := clearTimeout s in
      if headersSent s1 then s1
      else match err with
           | Some e => sendUnlessSent 500 e (pushPoolOp RemoveBadObject s1)
           | None => pushPoolOp Release s1
           end
  | ToBufferCallback failed =>
      if failed then sendUnlessSent 500 "Image processing failed" s
      else sendUnlessSent 200 "image" s
  end.

Definition run (s : State) (evs : list Event) : State := fold_left step evs s.

(** A response has been sent exactly when [headersSent] is set, and then it
    is the only one. *)
Definition responded (s : State) : Prop :=
  (headersSent s = false /\ responses s = [])
  \/ (headersSent s = true /\ List.length (responses s) = 1).

(** *** The layers composited onto the rendered image *)

Inductive Layer : Type :=
| OverlayLayer (input : list Z)
    (* { input: overlay } *)
| WatermarkLayer (width height scale : Z) (text : string)
    (* renderWatermark(width, height, scale, item.watermark).toBuffer() *)
| AttributionLayer (width height scale : Z) (text : string).
    (* renderAttribution(width, height, scale, item.staticAttributionText).toBuffer() *)

(** The [composites] array, built by the three conditional pushes. *)
Definition buildComposites (overlay : option (list Z)) (watermark : option string)
    (mode : string) (staticAttributionText : option string)
    (width height scale : Z) : list Layer :=
  let c0 : list Layer := [] in
  let c1 := match overlay with
            | Some buf => (c0 ++ [OverlayLayer buf])%list
            | None => c0
            end in
  let c2 := if S3.truthyStr watermark
            then (c1 ++ [WatermarkLayer width height scale (S3.nullish watermark "")])%list
            else c1 in
  let c3 := if String.eqb mode "static" && S3.truthyStr staticAttributionText
            then (c2 ++ [AttributionLayer width height scale
                           (S3.nullish staticAttributionText "")])%list
            else c2 in
  c3.

(** The image handed to the encoder: the raw render, with the composite
    step applied when there is something to put on it. *)
Inductive Image : Type :=
| Rendered (raw : list Z)
| Composite (base : Image) (layers : list Layer).

Definition composeImage (raw : list Z) (composites : list Layer) : Image :=
  match composites with
  | [] => Rendered raw
  | _ => Composite (Rendered raw) composites
  end.

(** What is painted, bottom first. *)
Inductive Painted : Type :=
| PaintBase | PaintOverlay | PaintWatermark | PaintAttribution.

Definition layerKind (l : Layer) : Painted :=
  match l with
  | OverlayLayer _ => PaintOverlay
  | WatermarkLayer _ _ _ _ => PaintWatermark
  | AttributionLayer _ _ _ _ => PaintAttribution
  end.

Fixpoint paintOrder (img : Image) : list Painted :=
  match img with
  | Rendered _ => [PaintBase]
  | Composite base layers => (paintOrder base ++ List.map layerKind layers)%list
  end.

End Respond.

(* ===================================================================== *)
(** ** Totals over a retry trace                                          *)
(* ===================================================================== *)

Module Waiting.
Import Adapter.

(** The time a call spent sleeping, in milliseconds. *)
Definition totalSleepMs (tr : list Effect) : Z :=
  fold_right Z.add 0%Z (sleeps tr).

(** Sample archive: PNG tiles over the Alps, zooms 0 to 14, named in its
    metadata; every query succeeds. *)
Definition alpineHeader : Header :=
  mkHeader (JNum 2) (JNum 0) (JNum 14)
           (JNum 5.9) (JNum 45.8) (JNum 10.5) (JNum 47.8)
           (JNum 8.2) (JNum 46.8) (JNum 7).

Definition alpineArchive : PMTiles :=
  mkPMTiles (fun _ => Resolved alpineHeader)
            (fun _ => Resolved {[ "name" := PVal (JStr "alps") ]})
            (fun _ _ _ _ => Resolved (Some (mkZxy (Some [137; 80; 78; 71]%Z)))).

End Waiting.

(* ===================================================================== *)
(** ** src/utils.js and src/pmtiles_adapter.js: opening an archive        *)
(* ===================================================================== *)

Module Opening.
Import S3.

(** What the [i] flag does to the letters of these patterns: an ASCII
    capital stands for its small letter, every other character for
    itself. *)
Definition lower (c : ascii) : ascii :=
  let n := nat_of_ascii c in
  if (65 <=? n)%nat && (n <=? 90)%nat then ascii_of_nat (n + 32) else c.

(** [p] starts [s], up to the case of ASCII letters. *)
Fixpoint prefixNoCase (p s : string) : bool :=
  match p, s with
  | EmptyString, _ => true
  | String a p', String b s' => Ascii.eqb (lower a) (lower b) && prefixNoCase p' s'
  | String _ _, EmptyString => false
  end.

(** [/^https?:\/\//i] *)
Definition httpTester (s : string) : bool :=
  prefixNoCase "http://" s || prefixNoCase "https://" s.

(** [/^s3:\/\//i] *)
Definition s3Tester (s : string) : bool := prefixNoCase "s3://" s.

(** [/^s3\+https?:\/\//i] *)
Definition s3HttpTester (s : string) : bool :=
  prefixNoCase "s3+http://" s || prefixNoCase "s3+https://" s.

Definition isValidHttpUrl (s : string) : bool := httpTester s.

Definition isS3Url (s : string) : bool := s3Tester s || s3HttpTester s.

Definition isValidRemoteUrl (s : string) : bool :=
  httpTester s || s3Tester s || s3HttpTester s.

(** The byte source [openPMtiles] wraps in a [PMTiles]. *)
Inductive ByteSource : Type :=
| FromS3 (src : S3.Source)       (* new S3Source(...)        *)
| FromHttp (url : string)        (* new FetchSource(filePath) *)
| FromFile (fd : Z).             (* new PMTilesFileSource(fd) *)

Section WithPlatform.
Variable searchParamsGet : string -> string -> option string.
Variable envRegion : option string.
(** [fs.openSync(filePath, 'r')]: the descriptor, or the message of the
    error it throws. *)
Variable openSync : string -> string + Z.

(** [openPMtiles(filePath, s3Profile, requestPayer, s3Region, s3UrlFormat)];
    [inl] is the message of the error thrown. *)
Definition openPMtiles (filePath : string) (s3Profile : option string)
    (requestPayer : option bool) (s3Region : option string)
    (s3UrlFormat : option string) : string + ByteSource :=
  if isS3Url filePath then
    match newS3Source searchParamsGet envRegion filePath s3Profile requestPayer
                      s3Region s3UrlFormat with
    | inl err => inl err
    | inr src => inr (FromS3 src)
    end
  else if isValidHttpUrl filePath then inr (FromHttp filePath)
  else
    match openSync filePath with
    | inl err => inl err
    | inr fd => inr (FromFile fd)
    end.

End WithPlatform.

(** What a successful parse says about the location string. *)
Definition rebuilds (url : string) (p : Parsed) : Prop :=
  bucket p <> "" /\ noChar "/"%char (bucket p) = true
  /\ key p <> "" /\ Regex.allIn Regex.AnyChar (key p) = true
  /\ match endpoint p with
     | Some ep =>
         exists h, ep = "https://" ++ h /\ h <> "" /\ noChar "/"%char h = true
                   /\ cleanOf url = Regex.s3Custom h (bucket p) (key p)
     | None => cleanOf url = Regex.s3Aws (bucket p) (key p)
     end.

End Opening.

(* ===================================================================== *)
(** ** The rendered-map server: orders of delivery                        *)
(* ===================================================================== *)

Module Delivery.
Import Respond.

(** The orders in which the event loop can deliver after
    [renderer.render] was called: the render callback runs at most once,
    and the encoder, which is started inside the render callback, calls
    back only after it.  [rendered] tells whether the render callback has
    run. *)
Fixpoint deliverable (rendered : bool) (evs : list Event) : bool :=
  match evs with
  | [] => true
  | TimerFires :: more => deliverable rendered more
  | RenderCallback _ :: more => negb rendered && deliverable true more
  | ToBufferCallback _ :: more => rendered && deliverable rendered more
  end.

Definition isRenderCallback (ev : Event) : bool :=
  match ev with RenderCallback _ => true | _ => false end.

(** The render callback with an error, or the encoder's callback: the
    events that end a request which did not time out. *)
Definition isFinal (ev : Event) : bool :=
  match ev with
  | RenderCallback (Some _) | ToBufferCallback _ => true
  | _ => false
  end.

(** The responses that follow a released renderer. *)
Definition fromEncoder (r : Response) : bool :=
  ((status r =? 200)%Z && String.eqb (body r) "image")
  || ((status r =? 500)%Z && String.eqb (body r) "Image processing failed").

End Delivery.

(* ===================================================================== *)
(** ** The rendered-map server: markers of a static-image request         *)
(* ===================================================================== *)

Module MarkerQuery.
Import Number Markers.

(** [query.marker]: missing, one string, or an array; an item of the array
    that is not a string is [None]. *)
Inductive MarkerParam : Type :=
| NoMarker
| OneMarker (s : string)
| ManyMarkers (items : list (option string)).

(** The options [extractMarkersFromQuery] reads. *)
Record Options : Type := mkOptions {
  availableIcons : list string;        (* options.paths.availableIcons *)
  iconsPath : string;                  (* options.paths.icons *)
  allowRemoteMarkerIcons : JsVal;
  allowInlineMarkerImages : JsVal
}.

(** [v === true] *)
Definition isTrue (v : JsVal) : bool :=
  match v with JBool b => b | _ => false end.

Section WithPlatform.
(** [sanitize] of the package sanitize-filename, and [path.resolve]. *)
Variable sanitize : string -> string.
Variable pathResolve : string -> string -> string.
(** [query.latlng], when it is a string. *)
Variable latlng : option string.
(** The optional coordinate transformer; [None] as its result stands for
    an exception thrown by it. *)
Variable transformer : option (float * float -> option (float * float)).

(** [parseCoordinatePair(coordinates, query)]; a missing element reads as
    [undefined], which [parseFloat] turns into NaN. *)
Definition parseCoordinatePair (coordinates : list string) : option (float * float) :=
  let firstCoordinate := parseFloat (nth 0 coordinates "undefined") in
  let secondCoordinate := parseFloat (nth 1 coordinates "undefined") in
  if isNaN firstCoordinate || isNaN secondCoordinate then None
  else if S3.strIs latlng "1" || S3.strIs latlng "true"
       then Some (secondCoordinate, firstCoordinate)
       else Some (firstCoordinate, secondCoordinate).

(** [parseCoordinates(coordinatePair, query, transformer)] *)
Definition parseCoordinates (coordinatePair : list string) : option (float * float) :=
  match parseCoordinatePair coordinatePair with
  | None => None
  | Some parsedCoordinates =>
      match transformer with
      | Some transform => transform parsedCoordinates
      | None => Some parsedCoordinates
      end
  end.

(** The icon a marker will use, or [None] where the loop body takes
    [continue]. *)
Definition resolveIcon (options : Options) (iconURI : string) : option string :=
  let isRemoteURL := Opening.isValidHttpUrl iconURI in
  let isDataURL := String.prefix "data:" iconURI in
  if negb (isRemoteURL || isDataURL) then
    let sanitized := sanitize iconURI in
    if existsb (String.eqb sanitized) (availableIcons options)
    then Some (pathResolve (iconsPath options) sanitized)
    else None
  else if isRemoteURL && negb (isTrue (allowRemoteMarkerIcons options)) then None
  else if isDataURL && negb (isTrue (allowInlineMarkerImages options)) then None
  else Some iconURI.

(** The body of the loop of [extractMarkersFromQuery] for one provided
    marker that is a string: the marker pushed, or [None] for [continue].
    What is written to the console is left out. *)
Definition extractMarker (options : Options) (providedMarker : string) : option Marker :=
  let markerParts := split "|"%char providedMarker in
  if (List.length markerParts <? 2)%nat then None
  else
    let locationParts := split ","%char (nth 0 markerParts "") in
    if negb (List.length locationParts =? 2)%nat then None
    else
      match resolveIcon options (nth 1 markerParts "") with
      | None => None
      | Some iconURI =>
          match parseCoordinates locationParts with
          | None => None
          | Some location =>
              let marker := mkMarker location iconURI None None None in
              if (2 <? List.length markerParts)%nat
              then Some (fst (parseMarkerOptions (skipn 2 markerParts) marker))
              else Some marker
          end
      end.

Fixpoint extractAll (options : Options) (providedMarkers : list (option string))
  : list Marker :=
  match providedMarkers with
  | [] => []
  | None :: more => extractAll options more      (* typeof !== 'string' *)
  | Some providedMarker :: more =>
      match extractMarker options providedMarker with
      | Some marker => marker :: extractAll options more
      | None => extractAll options more
      end
  end.

(** [extractMarkersFromQuery(query, options, transformer)] *)
Definition extractMarkersFromQuery (options : Options) (marker : MarkerParam)
  : list Marker :=
  match marker with
  | NoMarker => []
  | OneMarker s => if String.eqb s "" then [] else extractAll options [Some s]
  | ManyMarkers items => extractAll options items
  end.

End WithPlatform.

(** The number of markers a request provides. *)
Definition provided (marker : MarkerParam) : nat :=
  match marker with
  | NoMarker => 0
  | OneMarker _ => 1
  | ManyMarkers items => List.length items
  end.

(** A stand-in for [sanitize] and [path.resolve] to run the definitions:
    names are kept, and resolved by joining with a slash. *)
Definition joinPath (dir name : string) : string := dir ++ "/" ++ name.

End MarkerQuery.

(* ===================================================================== *)
(** ** src/serve_data.js: the tile route                                  *)
(* ===================================================================== *)

Module DataRoute.
Import Adapter Utils.

(** The fields of [item.tileJSON] the route reads: the format when it is a
    string, the zoom limits when they are numbers (integers here), and
    [sparse]. *)
Record TileJSON : Type := mkTileJSON {
  tjFormat : option string;
  tjMinzoom : option Z;
  tjMaxzoom : option Z;
  tjSparse : JsVal
}.

Record Item : Type := mkItem {
  tileJSON : TileJSON;
  source : Source              (* item.source with item.sourceType *)
}.

(** How the handler ends. *)
Inductive Reply : Type :=
| Status (code : Z) (body : string)
    (* res.sendStatus(code) or res.status(code).send(body) *)
| Tile (headers : gmap string string) (body : list Z)
    (* res.set(headers); res.status(200).send(data) *)
| Unanswered (msg : string).
    (* the handler's promise rejects before anything is sent *)

(** [a < b] and [a > b] against a limit that may be missing: a comparison
    with [undefined] is false. *)
Definition below (a : Z) (b : option Z) : bool :=
  match b with Some b => (a <? b)%Z | None => false end.

Definition above (a : Z) (b : option Z) : bool :=
  match b with Some b => (b <? a)%Z | None => false end.

(** [v >= Math.pow(2, z)] for integers: a negative [z] gives a power
    strictly between 0 and 1. *)
Definition reaches (v z : Z) : bool :=
  if (z <? 0)%Z then (1 <=? v)%Z else (2 ^ z <=? v)%Z.

Definition outOfBounds (tj : TileJSON) (z x y : Z) : bool :=
  below z (tjMinzoom tj) || (x <? 0)%Z || (y <? 0)%Z || above z (tjMaxzoom tj)
  || reaches x z || reaches y z.

Section WithPlatform.
(** [options.pbfAlias] *)
Variable pbfAlias : option string.
(** [gunzipP] and [gzipP] *)
Variable gunzip : list Z -> Settled (list Z).
Variable gzip : list Z -> Settled (list Z).
(** [options.dataDecoratorFunc], when configured; [inl] when the call
    throws. *)
Variable dataDecoratorFunc :
  option (string -> string -> list Z -> Z -> Z -> Z -> JsError + list Z).
(** The vector tile decoded and printed as a GeoJSON feature collection,
    [toGeoJSON(x, y, z)] applied to every feature; [inl] when the decoder
    throws. *)
Variable toGeoJSON : list Z -> Z -> Z -> Z -> JsError + list Z.

(** The handler of [/:id/:z/:x/:y.:format].  [item] is [repo[id]], [None]
    when it is falsy; [z], [x], [y] are the results of [parseInt], [None]
    for NaN. *)
Definition tileRoute (id : string) (item : option Item) (z x y : option Z)
    (formatParam : string) : list Effect * Reply :=
  match item with
  | None => ([], Status 404 "Not Found")
  | Some item =>
      let tileJSONFormat := tjFormat (tileJSON item) in
      match z, x, y with
      | Some z, Some x, Some y =>
          let format := if S3.strIs pbfAlias formatParam then "pbf" else formatParam in
          if negb (S3.strIs tileJSONFormat format)
             && negb (String.eqb format "geojson" && S3.strIs tileJSONFormat "pbf")
          then ([], Status 404 "Invalid format")
          else if outOfBounds (tileJSON item) z x y
          then ([], Status 404 "Out of bounds")
          else
            match fetchTileData (source item) z x y with
            | (tr, Thrown msg) => (tr, Unanswered msg)
            | (tr, Returned None) =>
                if truthy (tjSparse (tileJSON item))
                then (tr, Status 410 "") else (tr, Status 204 "")
            | (tr, Returned (Some fetchTile)) =>
                let unzipped :=
                  if Resolver.isGzipped (data fetchTile) then gunzip (data fetchTile)
                  else Resolved (data fetchTile) in
                match unzipped with
                | Rejected e => (tr, Unanswered (template (message e)))
                | Resolved data1 =>
                    let decorated : JsError + list Z :=
                      if S3.strIs tileJSONFormat "pbf" then
                        match dataDecoratorFunc with
                        | Some f => f id "data" data1 z x y
                        | None => inr data1
                        end
                      else inr data1 in
                    match decorated with
                    | inl e => (tr, Unanswered (template (message e)))
                    | inr data2 =>
                        let typed : JsError + (gmap string string * list Z) :=
                          if String.eqb format "pbf" then
                            inr (<[ "Content-Type" := "application/x-protobuf" ]>
                                   (headers fetchTile), data2)
                          else if String.eqb format "geojson" then
                            match toGeoJSON data2 x y z with
                            | inl e => inl e
                            | inr json =>
                                inr (<[ "Content-Type" := "application/json" ]>
                                       (headers fetchTile), json)
                            end
                          else inr (headers fetchTile, data2) in
                        match typed with
                        | inl e => (tr, Unanswered (template (message e)))
                        | inr (headers1, data3) =>
                            let headers2 :=
                              <[ "Content-Encoding" := "gzip" ]> (delete "ETag" headers1) in
                            match gzip data3 with
                            | Rejected e => (tr, Unanswered (template (message e)))
                            | Resolved body => (tr, Tile headers2 body)
                            end
                        end
                    end
                end
            end
      | _, _, _ => ([], Status 404 "Invalid Tile")
      end
  end.

End WithPlatform.

(** A data source served from an archive of PNG tiles, zooms 0 to 14. *)
Definition pngItem : Item :=
  mkItem (mkTileJSON (Some "png") (Some 0%Z) (Some 14%Z) JUndefined)
         (PmtilesSource (flakyArchive 0 "")).

End DataRoute.

(* ===================================================================== *)
(** ** The rendered-map server: preparing a style                         *)
(* ===================================================================== *)

Module Style.

(** A value of a layer's [paint]: a scalar, an array or another object;
    of the last two only the kind is inspected, the JSON text stands for
    the content. *)
Inductive StyleValue : Type :=
| SScalar (v : JsVal)
| SArray (json : string)
| SObject (json : string).

(** Truthiness of [paint[prop]]; a missing property reads [undefined]. *)
Definition truthyValue (v : option StyleValue) : bool :=
  match v with
  | Some (SScalar x) => truthy x
  | Some (SArray _) | Some (SObject _) => true
  | None => false
  end.

(** [Array.isArray(paint[prop])] *)
Definition isArray (v : option StyleValue) : bool :=
  match v with Some (SArray _) => true | _ => false end.

(** [if (paint[prop]) paint[prop] = 0] *)
Definition flatten (prop : string) (paint : gmap string StyleValue)
  : gmap string StyleValue :=
  if truthyValue (paint !! prop) then <[ prop := SScalar (JNum 0%float) ]> paint
  else paint.

Definition hillshadePropertiesToRemove : list string :=
  [ "hillshade-method"; "hillshade-illumination-direction";
    "hillshade-highlight-color" ].

(** [if (prop in paint) delete paint[prop]] *)
Definition removeProperty (paint : gmap string StyleValue) (prop : string)
  : gmap string StyleValue :=
  match paint !! prop with
  | Some _ => delete prop paint
  | None => paint
  end.

(** What the loop over the layers does to the [paint] of one layer. *)
Definition sanitizePaint (paint : gmap string StyleValue) : gmap string StyleValue :=
  let p1 := flatten "fill-extrusion-height" paint in
  let p2 := flatten "fill-extrusion-base" p1 in
  let p3 := fold_left removeProperty hillshadePropertiesToRemove p2 in
  if isArray (p3 !! "hillshade-shadow-color")
  then delete "hillshade-shadow-color" p3
  else p3.

(** A layer of the style; [None] is a layer without a [paint]. *)
Record Layer : Type := mkLayer {
  layerId : option string;
  paint : option (gmap string StyleValue)
}.

(** [for (const layer of styleJSON.layers || [])]; a falsy [layers] is
    [None]. *)
Definition sanitizeLayers (layers : option (list Layer)) : list Layer :=
  List.map (fun layer =>
              match paint layer with
              | Some p => mkLayer (layerId layer) (Some (sanitizePaint p))
              | None => layer
              end)
           (match layers with Some l => l | None => [] end).

(** The six properties the loop may touch. *)
Definition touched : list string :=
  [ "fill-extrusion-height"; "fill-extrusion-base"; "hillshade-method";
    "hillshade-illumination-direction"; "hillshade-highlight-color";
    "hillshade-shadow-color" ].

(** *** The attribution of the rendered style *)

(** The block that follows the merge of a source's metadata:
    [attributionOverride] is the truthiness of
    [params.tilejson && params.tilejson.attribution], [attribution] is
    [tileJSON.attribution] and [sourceAttribution] is [source.attribution],
    when it is a string. *)
Definition addAttribution (attributionOverride : bool) (attribution : string)
    (sourceAttribution : option string) : string :=
  match sourceAttribution with
  | Some src =>
      if negb attributionOverride && negb (String.eqb src "") then
        if includes attribution src then attribution
        else (if String.eqb attribution "" then attribution
              else attribution ++ " | ") ++ src
      else attribution
  | None => attribution
  end.

(** The attribution once every source of the style has been merged. *)
Definition mergeAttributions (attributionOverride : bool) (attribution : string)
    (sources : list (option string)) : string :=
  fold_left (addAttribution attributionOverride) sources attribution.

(** *** The renderer pools *)

(** [list[i]] for an integer index. *)
Definition element (list : list Z) (i : Z) : option Z :=
  if (i <? 0)%Z then None else nth_error list (Z.to_nat i).

(** The sizes of the pools for scale [s]; [None] stands for [undefined]
    (the minimum) or NaN (the maximum). *)
Definition poolSizes (minPoolSizes maxPoolSizes : list Z) (s : Z)
  : option Z * option Z :=
  let i := Z.min (Z.of_nat (List.length minPoolSizes) - 1) (s - 1) in
  let j := Z.min (Z.of_nat (List.length maxPoolSizes) - 1) (s - 1) in
  let minPoolSize := element minPoolSizes i in
  let maxPoolSize :=
    match minPoolSize, element maxPoolSizes j with
    | Some a, Some b => Some (Z.max a b)
    | _, _ => None
    end in
  (minPoolSize, maxPoolSize).

(** [options.minRendererPoolSizes || [8, 4, 2]] and the like: an array is
    truthy even when empty. *)
Definition configured (option : option (list Z)) (fallback : list Z) : list Z :=
  match option with Some l => l | None => fallback end.

(** The pools created by the loop [for (s = 1; s <= maxScaleFactor; s++)],
    by scale. *)
Definition rendererPools (minRendererPoolSizes maxRendererPoolSizes : option (list Z))
    (maxScaleFactor : nat) : list (Z * (option Z * option Z)) :=
  List.map (fun s => (Z.of_nat s,
                      poolSizes (configured minRendererPoolSizes [8; 4; 2]%Z)
                                (configured maxRendererPoolSizes [16; 8; 4]%Z)
                                (Z.of_nat s)))
           (seq 1 maxScaleFactor).

End Style.

(* ===================================================================== *)
(** ** src/utils.js: scales; the rendered-map server: a tile request      *)
(* ===================================================================== *)

Module TileRequest.
Import Number.

(** The character class [[2-${maxScale}]] of the pattern [allowedScales]
    builds: a range from [2] to the first character of the printed
    [maxScale], and the characters that follow it.  [None] is the
    SyntaxError of a range out of order. *)
Definition scaleClass (maxScale : nat) : option (ascii -> bool) :=
  match showNat maxScale with
  | String d rest =>
      if (nat_of_ascii d <? 50)%nat then None
      else Some (fun c => ((50 <=? nat_of_ascii c)%nat
                           && (nat_of_ascii c <=? nat_of_ascii d)%nat)
                          || negb (noChar c rest))
  | EmptyString => None
  end.

Definition rangeError (maxScale : nat) : string :=
  "Invalid regular expression: /^[2-" ++ showNat maxScale
  ++ "]x$/: Range out of order in character class".

(** [allowedScales(scale, maxScale)]: [inl] is the message of the error
    thrown, [inr None] is [null].  The one character before the [x] is a
    digit, which [parseInt] reads. *)
Definition allowedScales (scale : option string) (maxScale : nat)
  : string + option nat :=
  match scale with
  | None => inr (Some 1)
  | Some s =>
      match scaleClass maxScale with
      | None => inl (rangeError maxScale)
      | Some class =>
          match s with
          | String c (String x EmptyString) =>
              if class c && Ascii.eqb x "x"
              then inr (Some (nat_of_ascii c - 48)) else inr None
          | _ => inr None
          end
      end
  end.

(** [parseInt(allowedTileSizes(tileSize), 10)], [None] for NaN:
    [allowedTileSizes] gives back ['256'] and ['512'], and for any other
    string [undefined] or a member of [Object.prototype], which [parseInt]
    reads as NaN. *)
Definition parsedTileSizeOf (tileSize : string) : option Z :=
  if String.eqb tileSize "256" then Some 256%Z
  else if String.eqb tileSize "512" then Some 512%Z
  else None.

(** [n == null] for the result of [parseInt], a number or NaN. *)
Definition looseEqNull (n : option Z) : bool := false.

Inductive PoolKind : Type := TilePool | StaticPool.

(** How the handlers end before a renderer is acquired. *)
Inductive Outcome : Type :=
| Reply (code : Z) (text : string)
| Threw (msg : string)
| Render (pool : PoolKind) (scale : nat) (format : string)
         (lon lat : float) (width height : Z).

(** The options [respondImage] reads before it acquires a renderer. *)
Record Options : Type := mkOptions {
  maxSize : option Z;
  tileMargin : option Z;
  minRendererPoolSizes : option (list Z);
  maxRendererPoolSizes : option (list Z)
}.

(** [item.map.renderers[scale]] (and [renderersStatic[scale]]) is there:
    [add] creates both for the scales 1 to [maxScaleFactor]. *)
Definition hasPool (options : Options) (maxScaleFactor : nat) (scale : nat) : bool :=
  existsb (fun entry => (fst entry =? Z.of_nat scale)%Z)
          (Style.rendererPools (minRendererPoolSizes options)
                               (maxRendererPoolSizes options) maxScaleFactor).

(** [options.maxSize || 2048] *)
Definition maxSizeOf (options : Options) : Z :=
  match maxSize options with
  | Some m => if (m =? 0)%Z then 2048%Z else m
  | None => 2048%Z
  end.

(** [Math.max(options.tileMargin || 0, 0)] *)
Definition tileMarginOf (options : Options) : Z :=
  Z.max (match tileMargin options with Some m => m | None => 0%Z end) 0.

(** The second test of [respondImage]; a width or height that is NaN
    ([None]) makes the two comparisons false and [width !== width] or
    [height !== height] true. *)
Definition invalidSize (options : Options) (width height : option Z) (scale : nat)
  : bool :=
  match width, height with
  | Some w, Some h =>
      (Z.min w h <=? 0)%Z || (maxSizeOf options <? Z.max w h * Z.of_nat scale)%Z
  | _, _ => true
  end.

(** [respondImage] up to the call of [pool.acquire]. *)
Definition respondImage (options : Options) (maxScaleFactor : nat)
    (lon lat : float) (width height : option Z) (scale : nat)
    (format : option string) (mode : string) : Outcome :=
  if PrimFloat.ltb 180 (PrimFloat.abs lon) || PrimFloat.ltb 85.06 (PrimFloat.abs lat)
     || isNaN lon || isNaN lat
  then Reply 400 "Invalid center"
  else if invalidSize options width height scale then Reply 400 "Invalid size"
  else
    let normalized :=
      if S3.strIs format "png" || S3.strIs format "webp" then format
      else if S3.strIs format "jpg" || S3.strIs format "jpeg" then Some "jpeg"
      else None in
    match normalized, width, height with
    | Some format', Some w, Some h =>
        let pool := if String.eqb mode "tile" && (tileMarginOf options =? 0)%Z
                    then TilePool else StaticPool in
        if hasPool options maxScaleFactor scale
        then Render pool scale format' lon lat w h
        else Reply 500 "Renderer pool not configured"
    | _, _, _ => Reply 400 "Invalid format"
    end.

Section WithPlatform.
(** Two date strings name the same instant:
    [new Date(a).getTime() === new Date(b).getTime()]. *)
Variable sameInstant : string -> string -> bool.
(** The centre of a tile, [mercator.ll] of its middle pixel. *)
Variable tileCenter : Z -> Z -> Z -> float * float.

(** [handleTileRequest].  [item] is [repo[id]], [None] when falsy, given
    by its [lastModified]; [z], [x], [y] are the 32-bit integers
    [parseFloat(param) | 0]; [defaultTileSize] is [parseInt] of the
    configured default, [None] for NaN. *)
Definition handleTileRequest (options : Options) (maxScaleFactor : nat)
    (defaultTileSize : option Z) (item : option string)
    (modifiedSince cacheControl : option string)
    (tileSize : option string) (z x y : Z) (scaleParam format : option string)
  : Outcome :=
  match item with
  | None => Reply 404 "Not Found"
  | Some lastModified =>
      if S3.truthyStr modifiedSince
         && (negb (S3.truthyStr cacheControl)
             || negb (includes (S3.nullish cacheControl "") "no-cache"))
         && sameInstant lastModified (S3.nullish modifiedSince "")
      then Reply 304 "Not Modified"
      else
        match allowedScales scaleParam maxScaleFactor with
        | inl msg => Threw msg
        | inr scale =>
            let parsedTileSize :=
              if S3.truthyStr tileSize then parsedTileSizeOf (S3.nullish tileSize "")
              else defaultTileSize in
            if S3.truthyStr tileSize && looseEqNull parsedTileSize
            then Reply 400 "Invalid Tile Size"
            else
              match scale with
              | None => Reply 400 "Out of bounds"
              | Some scale =>
                  if (z <? 0)%Z || (x <? 0)%Z || (y <? 0)%Z || (22 <? z)%Z
                     || (2 ^ z <=? x)%Z || (2 ^ z <=? y)%Z
                  then Reply 400 "Out of bounds"
                  else
                    let center := tileCenter x y z in
                    respondImage options maxScaleFactor (fst center) (snd center)
                                 parsedTileSize parsedTileSize scale format "tile"
              end
        end
  end.

End WithPlatform.

End TileRequest.

(* ===================================================================== *)
(** ** src/serve_data.js: registering a data source                       *)
(* ===================================================================== *)

Module DataSource.
Import Adapter Opening.
Local Open Scope float_scope.

(** Truthiness of a property that may be missing. *)
Definition truthyProp (p : option JsProp) : bool :=
  match p with
  | Some (PVal v) => truthy v
  | Some (PArr _) => true
  | None => false
  end.

(** [a || b] on two properties. *)
Definition orProp (a b : JsProp) : JsProp :=
  if truthyProp (Some a) then a else b.

(** [bounds[i]] used as a number; an entry that is not a number, and any
    entry of something that is not an array, reads as NaN here. *)
Definition boundAt (bounds : option JsProp) (i : nat) : float :=
  match bounds with
  | Some (PArr items) =>
      match nth_error items i with
      | Some (JNum x) => x
      | _ => nan
      end
  | _ => nan
  end.

(** [Math.LN2] *)
Definition LN2 : float := 0.6931471805599453.

Section WithMath.
(** [Math.log] and [Math.round] *)
Variable mathLog : float -> float.
Variable mathRound : float -> float.

(** [fixTileJSONCenter(tileJSON)] of src/utils.js; the object is changed
    in place, so the changed object is handed back. *)
Definition fixTileJSONCenter (tileJSON : gmap string JsProp) : gmap string JsProp :=
  if truthyProp (tileJSON !! "bounds") && negb (truthyProp (tileJSON !! "center")) then
    let tiles := 1024 / 256 in
    let bounds := tileJSON !! "bounds" in
    <[ "center" :=
         PArr [ JNum ((boundAt bounds 0 + boundAt bounds 2) / 2);
                JNum ((boundAt bounds 1 + boundAt bounds 3) / 2);
                JNum (mathRound
                        (- mathLog ((boundAt bounds 2 - boundAt bounds 0) / 360 / tiles)
                         / LN2)) ] ]> tileJSON
  else tileJSON.
End WithMath.

(** The parameters of a data source; a missing [encoding], [tileSize] or
    [sparse] is [PVal JUndefined], as the assignment copies it. *)
Record Params : Type := mkParams {
  pmtiles : option string;
  mbtiles : option string;
  domains : JsProp;
  encoding : JsProp;
  tileSize : JsProp;
  sparse : JsProp;
  s3Profile : option string;
  requestPayer : option bool;
  s3Region : option string;
  s3UrlFormat : option string;
  tilejson : option (gmap string JsProp)
}.

(** The reader behind [repo[id].source]. *)
Inductive Reader : Type :=
| ArchiveReader (source : ByteSource)      (* a PMTiles on that source *)
| MbtilesReader (file : string).           (* mbw.getMbTiles() *)

Record Entry : Type := mkEntry {
  tileJSON : gmap string JsProp;
  publicUrl : option string;
  reader : Reader;
  sourceType : string
}.

Definition quote : string := String "034"%char "".

(** The TypeError of [fsp.stat(undefined)], which ends [add] when the
    parameters name neither a PMTiles nor an MBTiles file. *)
Definition noInputMessage : string :=
  "The " ++ quote ++ "path" ++ quote
  ++ " argument must be of type string or an instance of Buffer or URL."
  ++ " Received undefined".

(** How [add] ends. *)
Inductive Outcome : Type :=
| Registered (repo : gmap string Entry)
| Skipped (file message : string)     (* logged, then [return] *)
| Exited                              (* process.exit(1) *)
| Failed (msg : string).              (* the promise rejects *)

Section WithPlatform.
Variable searchParamsGet : string -> string -> option string.
Variable envRegion : option string.
Variable openSync : string -> string + Z.
Variable mathLog : float -> float.
Variable mathRound : float -> float.
(** [path.resolve] *)
Variable pathResolve : string -> string -> string.
(** [fsp.stat(file)]: whether it is a file, and its size. *)
Variable stat : string -> Settled (bool * Z).
(** The archive behind a byte source, as the pmtiles library reads it. *)
Variable archiveOf : ByteSource -> PMTiles.
(** [parseInt] on a property value, used by [getPMtilesInfo]. *)
Variable parseInt : JsVal -> float.
(** [(await openMbTilesWrapper(file)).getInfo()] *)
Variable mbtilesInfo : string -> Settled (gmap string JsProp).
(** [options.dataDecoratorFunc] applied to a tilejson, when configured. *)
Variable decorateTileJSON : option (string -> gmap string JsProp -> gmap string JsProp).

(** The statements of [add] that follow the reading of the metadata. *)
Definition finish (repo : gmap string Entry) (params : Params) (id : string)
    (givenPublicUrl : option string) (tileJSON : gmap string JsProp)
    (reader : Reader) (sourceType : string) : gmap string Entry :=
  let t1 := delete "scheme" (delete "mtime" (delete "filesize" tileJSON)) in
  let t2 := <[ "tilejson" := PVal (JStr "3.0.0") ]> t1 in
  let t3 := match tilejson params with
            | Some overrides => overrides ∪ t2
            | None => t2
            end in
  let t4 := fixTileJSONCenter mathLog mathRound t3 in
  let t5 := match decorateTileJSON with
            | Some decorate => decorate id t4
            | None => t4
            end in
  <[ id := mkEntry t5 givenPublicUrl reader sourceType ]> repo.

(** The object [add] starts from. *)
Definition initialTileJSON (optionDomains : JsProp) (params : Params) (id : string)
  : gmap string JsProp :=
  <[ "sparse" := sparse params ]>
    (<[ "tileSize" := tileSize params ]>
       (<[ "encoding" := encoding params ]>
          (<[ "format" := PVal (JStr "pbf") ]>
             (<[ "name" := PVal (JStr id) ]>
                {[ "tiles" := orProp (domains params) optionDomains ]})))).

(** The [stat] test made for local files only. *)
Definition checkLocalFile (inputFile : string) : option string :=
  if isValidRemoteUrl inputFile then None
  else
    match stat inputFile with
    | Rejected e => Some (template (message e))
    | Resolved (isFile, size) =>
        if negb isFile || (size =? 0)%Z
        then Some ("Not valid input file: " ++ quote ++ inputFile ++ quote)
        else None
    end.

(** [add(options, repo, params, id, programOpts)], with the attempts made
    on the archive. *)
Definition add (pmtilesPath mbtilesPath : string) (optionDomains : JsProp)
    (repo : gmap string Entry) (params : Params) (id : string)
    (givenPublicUrl : option string) : list Effect * Outcome :=
  if S3.truthyStr (pmtiles params) then
    let given := S3.nullish (pmtiles params) "" in
    let inputFile := if isValidRemoteUrl given then given
                     else pathResolve pmtilesPath given in
    match checkLocalFile inputFile with
    | Some msg => ([], Failed msg)
    | None =>
        match openPMtiles searchParamsGet envRegion openSync inputFile
                (s3Profile params) (requestPayer params) (s3Region params)
                (s3UrlFormat params) with
        | inl msg => ([], Failed msg)
        | inr source =>
            match getPMtilesInfo parseInt (archiveOf source) inputFile
                    defaultMaxRetries with
            | (tr, Thrown msg) => (tr, Skipped inputFile msg)
            | (tr, Returned metadata) =>
                (tr, Registered
                       (finish repo params id givenPublicUrl
                          (metadata ∪ initialTileJSON optionDomains params id)
                          (ArchiveReader source) "pmtiles"))
            end
        end
    end
  else if S3.truthyStr (mbtiles params) then
    let given := S3.nullish (mbtiles params) "" in
    if isValidRemoteUrl given then ([], Exited)
    else
      let inputFile := pathResolve mbtilesPath given in
      match checkLocalFile inputFile with
      | Some msg => ([], Failed msg)
      | None =>
          match mbtilesInfo inputFile with
          | Rejected e => ([], Failed (template (message e)))
          | Resolved info =>
              ([], Registered
                     (finish repo params id givenPublicUrl
                        (info ∪ initialTileJSON optionDomains params id)
                        (MbtilesReader inputFile) "mbtiles"))
          end
      end
  else ([], Failed noInputMessage).

End WithPlatform.

(** Sample parameters: a local archive, nothing else configured. *)
Definition localArchive (file : string) : Params :=
  mkParams (Some file) None (PVal JUndefined) (PVal JUndefined) (PVal JUndefined)
           (PVal JUndefined) None None None None None.

End DataSource.

(* ===================================================================== *)
(** ** src/render.js: options written inside a path                       *)
(* ===================================================================== *)

Module Overlay.

Fixpoint dropChars (n : nat) (s : string) : string :=
  match n, s with
  | O, _ => s
  | S n', String _ rest => dropChars n' rest
  | S _, EmptyString => EmptyString
  end.

(** [s.replace(needle, '')]: the first occurrence of [needle] is taken
    out. *)
Fixpoint removeFirst (needle s : string) : string :=
  if String.prefix needle s then dropChars (String.length needle) s
  else match s with
       | EmptyString => EmptyString
       | String c rest => String c (removeFirst needle rest)
       end.

(** [getInlineOption(splitPaths, optionName)]; [None] is [undefined]. *)
Definition getInlineOption (splitPaths : list string) (optionName : string)
  : option string :=
  match List.find (String.prefix (optionName ++ ":")) splitPaths with
  | Some found =>
      if String.eqb found "" then None
      else Some (removeFirst (optionName ++ ":") found)
  | None => None
  end.

End Overlay.

(* ===================================================================== *)
(** ** Properties of the retry loops                                      *)
(* ===================================================================== *)

Ltac split4 := split; [| split; [| split]].
Ltac split5 := split; [| split; [| split; [| split]]].
Ltac split7 := split; [| split; [| split; [| split; [| split; [| split]]]]].

Section RetryProperties.
Import Adapter.
Variable parseInt : JsVal -> float.

Lemma has429_not_optional (e : JsError) :
  notOptional429 e = false -> messageHas429 e = true.
Proof.
  unfold notOptional429, messageHas429.
  destruct (message e) as [m|]; [|discriminate].
  intros H. apply negb_false_iff in H. rewrite H.
  destruct m; [discriminate H | reflexivity].
Qed.

Lemma infoLoop_spec (pm : PMTiles) (file : string) (n : nat) :
  forall (f a : nat) (last : option JsError),
    a + f = n ->
    let tr := fst (infoLoop parseInt pm file n last f a) in
    attempts tr <= f
    /\ (0 < f -> 1 <= attempts tr)
    /\ sleeps tr = List.map backoffMs (seq a (attempts tr - 1))
    /\ (forall k, a <= k -> k + 1 < a + attempts tr -> infoRateLimited parseInt pm k = true)
    /\ (forall k, a <= k -> k < a + attempts tr -> infoRateLimited parseInt pm k = true ->
                  k + 1 < n -> k + 1 < a + attempts tr).
Proof.
  induction f as [|f IH]; intros a last Hn; cbn zeta.
  - simpl. split5; [lia | lia | reflexivity | intros k ? ?; lia | intros k ? ?; lia].
  - simpl. destruct (infoAttempt parseInt pm a) as [md|e] eqn:Ea.
    + simpl. split5; [lia | lia | reflexivity | intros k ? ?; lia |].
      intros k Hk1 Hk2 Hr. assert (k = a) as -> by lia.
      unfold infoRateLimited in Hr. rewrite Ea in Hr. discriminate.
    + destruct (messageHas429 e && (Z.of_nat a <? Z.of_nat n - 1)%Z) eqn:Hretry.
      * apply andb_true_iff in Hretry as [H429 Hlt].
        apply Z.ltb_lt in Hlt.
        specialize (IH (S a) (Some e) ltac:(lia)).
        destruct (infoLoop parseInt pm file n (Some e) f (S a)) as [tr' c'].
        cbn zeta in IH. simpl in IH. destruct IH as (Hle & Hpos & Hsl & Hrl & Hnext).
        specialize (Hpos ltac:(lia)).
        simpl. split5; try lia.
        -- rewrite Hsl.
           replace (attempts tr' - 0) with (S (attempts tr' - 1)) by lia.
           reflexivity.
        -- intros k Hk1 Hk2.
           destruct (Nat.eq_dec k a) as [->|Hne].
           ++ unfold infoRateLimited. rewrite Ea. exact H429.
           ++ apply Hrl; lia.
        -- intros k Hk1 Hk2 Hr Hk3. destruct (Nat.eq_dec k a) as [->|Hne]; [lia|].
           specialize (Hnext k ltac:(lia) ltac:(lia) Hr Hk3). lia.
      * destruct (notOptional429 e || (Z.of_nat a =? Z.of_nat n - 1)%Z) eqn:Hthrow.
        -- simpl. split5; [lia | lia | reflexivity | intros k ? ?; lia |].
           intros k Hk1 Hk2 Hr Hk3. assert (k = a) as -> by lia.
           unfold infoRateLimited in Hr. rewrite Ea in Hr. rewrite Hr in Hretry.
           simpl in Hretry. apply Z.ltb_ge in Hretry. lia.
        -- exfalso.
           apply orb_false_iff in Hthrow as [Hopt Hne].
           apply has429_not_optional in Hopt. rewrite Hopt in Hretry.
           simpl in Hretry. apply Z.ltb_ge in Hretry. apply Z.eqb_neq in Hne. lia.
Qed.

Lemma tileLoop_spec (pm : PMTiles) (z x y : Z) (n : nat) :
  forall (f a : nat),
    a + f = n ->
    let r := tileLoop pm z x y n f a in
    let tr := fst r in
    attempts tr <= f
    /\ (0 < f -> 1 <= attempts tr)
    /\ sleeps tr = List.map backoffMs
                     (List.filter (tileRateLimited pm z x y) (seq a (attempts tr - 1)))
    /\ (forall k, a <= k -> k + 1 < a + attempts tr ->
                  tileFailed pm z x y k = true /\ tileBadResponse pm z x y k = false)
    /\ (forall k, a <= k -> k < a + attempts tr ->
                  tileFailed pm z x y k = true -> tileBadResponse pm z x y k = false ->
                  k + 1 < n -> k + 1 < a + attempts tr)
    /\ (exists v, snd r = Returned v)
    /\ ((forall k, a <= k -> k < n -> tileFailed pm z x y k = true) -> snd r = Returned None).
Proof.
  induction f as [|f IH]; intros a Hn; cbn zeta.
  - simpl. split7.
    + lia.
    + lia.
    + reflexivity.
    + intros k ? ?; lia.
    + intros k ? ?; lia.
    + eauto.
    + reflexivity.
  - simpl. destruct (tileAttempt pm z x y a) as [res|e] eqn:Ea.
    + simpl. split7.
      * lia.
      * lia.
      * reflexivity.
      * intros k ? ?; lia.
      * intros k Hk1 Hk2 Hf. assert (k = a) as -> by lia.
        unfold tileFailed in Hf. rewrite Ea in Hf. discriminate.
      * eauto.
      * intros Hall. specialize (Hall a ltac:(lia) ltac:(lia)).
        unfold tileFailed in Hall. rewrite Ea in Hall. discriminate.
    + specialize (IH (S a) ltac:(lia)). cbn zeta in IH.
      destruct (includes (errorMessage e) "429"
                && (Z.of_nat a <? Z.of_nat n - 1)%Z) eqn:Hretry.
      * apply andb_true_iff in Hretry as [H429 Hlt]. apply Z.ltb_lt in Hlt.
        destruct (tileLoop pm z x y n f (S a)) as [tr' c'].
        simpl in IH. destruct IH as (Hle & Hpos & Hsl & Hrl & Hnext & Hret & Hex).
        specialize (Hpos ltac:(lia)).
        assert (Hra : tileRateLimited pm z x y a = true)
          by (unfold tileRateLimited; rewrite Ea; exact H429).
        simpl. split7.
        -- lia.
        -- lia.
        -- replace (attempts tr' - 0) with (S (attempts tr' - 1)) by lia.
           simpl. rewrite Hra. simpl. rewrite Hsl. reflexivity.
        -- intros k Hk1 Hk2. destruct (Nat.eq_dec k a) as [->|Hne].
           ++ unfold tileFailed, tileBadResponse. rewrite Ea, H429.
              rewrite andb_false_r. split; reflexivity.
           ++ apply Hrl; lia.
        -- intros k Hk1 Hk2 Hf Hb Hk3. destruct (Nat.eq_dec k a) as [->|Hne]; [lia|].
           specialize (Hnext k ltac:(lia) ltac:(lia) Hf Hb Hk3). lia.
        -- exact Hret.
        -- intros Hall. apply Hex. intros k ? ?. apply Hall; lia.
      * destruct (includes (errorMessage e) "Bad response code:") eqn:Hbad.
        -- simpl. split7.
           ++ lia.
           ++ lia.
           ++ reflexivity.
           ++ intros k ? ?; lia.
           ++ intros k Hk1 Hk2 Hf Hb. assert (k = a) as -> by lia.
              unfold tileBadResponse in Hb. rewrite Ea, Hbad in Hb. simpl in Hb.
              apply negb_false_iff in Hb. rewrite Hb in Hretry. simpl in Hretry.
              apply Z.ltb_ge in Hretry. lia.
           ++ eauto.
           ++ reflexivity.
        -- destruct (tileLoop pm z x y n f (S a)) as [tr' c'].
           simpl in IH. destruct IH as (Hle & Hpos & Hsl & Hrl & Hnext & Hret & Hex).
           simpl. split7.
           ++ lia.
           ++ lia.
           ++ destruct (attempts tr') as [|m] eqn:Hm.
              ** simpl in *. exact Hsl.
              ** replace (S m - 0) with (S (S m - 1)) by lia. simpl.
                 assert (Hra : tileRateLimited pm z x y a = false).
                 { unfold tileRateLimited. rewrite Ea.
                   destruct (includes (errorMessage e) "429"); [|reflexivity].
                   simpl in Hretry. apply Z.ltb_ge in Hretry. lia. }
                 rewrite Hra. exact Hsl.
           ++ intros k Hk1 Hk2. destruct (Nat.eq_dec k a) as [->|Hne].
              ** unfold tileFailed, tileBadResponse. rewrite Ea, Hbad. split; reflexivity.
              ** apply Hrl; lia.
           ++ intros k Hk1 Hk2 Hf Hb Hk3. destruct (Nat.eq_dec k a) as [->|Hne].
              ** assert (0 < f) by lia. specialize (Hpos ltac:(lia)). lia.
              ** specialize (Hnext k ltac:(lia) ltac:(lia) Hf Hb Hk3). lia.
           ++ exact Hret.
           ++ intros Hall. apply Hex. intros k ? ?. apply Hall; lia.
Qed.

Lemma tileLoop_end (pm : PMTiles) (z x y : Z) (n : nat) :
  forall (f a : nat),
    a + f = n ->
    let r := tileLoop pm z x y n f a in
    let tr := fst r in
    (forall k, a <= k -> k < a + attempts tr -> tileBadResponse pm z x y k = true ->
       snd r = Returned None /\ a + attempts tr = k + 1
       /\ exists msg, In (LogHttpError msg) tr)
    /\ ((forall k, a <= k -> k < n -> tileFailed pm z x y k = true) ->
        In LogExhausted tr \/ exists msg, In (LogHttpError msg) tr).
Proof.
  induction f as [|f IH]; intros a Hn; cbn zeta.
  - simpl. split; [intros k ? ?; lia | auto].
  - simpl. destruct (tileAttempt pm z x y a) as [res|e] eqn:Ea.
    + simpl. split.
      * intros k Hk1 Hk2 Hb. assert (k = a) as -> by lia.
        unfold tileBadResponse in Hb. rewrite Ea in Hb. discriminate.
      * intros Hall. specialize (Hall a ltac:(lia) ltac:(lia)).
        unfold tileFailed in Hall. rewrite Ea in Hall. discriminate.
    + specialize (IH (S a) ltac:(lia)). cbn zeta in IH.
      destruct (includes (errorMessage e) "429"
                && (Z.of_nat a <? Z.of_nat n - 1)%Z) eqn:Hretry.
      * apply andb_true_iff in Hretry as [H429 Hlt].
        destruct (tileLoop pm z x y n f (S a)) as [tr' c'].
        simpl in IH. destruct IH as [Hbad Hex]. simpl. split.
        -- intros k Hk1 Hk2 Hb. destruct (Nat.eq_dec k a) as [->|Hne].
           ++ unfold tileBadResponse in Hb. rewrite Ea, H429 in Hb.
              rewrite andb_false_r in Hb. discriminate.
           ++ destruct (Hbad k ltac:(lia) ltac:(lia) Hb) as (Hr & Hcount & msg & Hin).
              split; [exact Hr|]. split; [lia|]. exists msg. right. right. right. exact Hin.
        -- intros Hall. destruct Hex as [Hin|[msg Hin]].
           ++ intros k ? ?. apply Hall; lia.
           ++ left. right. right. right. exact Hin.
           ++ right. exists msg. right. right. right. exact Hin.
      * destruct (includes (errorMessage e) "Bad response code:") eqn:Hbadresp.
        -- simpl. split.
           ++ intros k Hk1 Hk2 Hb. assert (k = a) as -> by lia.
              split; [reflexivity|]. split; [lia|].
              exists (errorMessage e). right. left. reflexivity.
           ++ intros _. right. exists (errorMessage e). right. left. reflexivity.
        -- destruct (tileLoop pm z x y n f (S a)) as [tr' c'].
           simpl in IH. destruct IH as [Hbad Hex]. simpl. split.
           ++ intros k Hk1 Hk2 Hb. destruct (Nat.eq_dec k a) as [->|Hne].
              ** unfold tileBadResponse in Hb. rewrite Ea, Hbadresp in Hb. discriminate.
              ** destruct (Hbad k ltac:(lia) ltac:(lia) Hb) as (Hr & Hcount & msg & Hin).
                 split; [exact Hr|]. split; [lia|]. exists msg. right. right. exact Hin.
           ++ intros Hall. destruct Hex as [Hin|[msg Hin]].
              ** intros k ? ?. apply Hall; lia.
              ** left. right. right. exact Hin.
              ** right. exists msg. right. right. exact Hin.
Qed.

Lemma infoLoop_returned (pm : PMTiles) (file : string) (n : nat) (md : gmap string JsProp) :
  forall (f a : nat) (last : option JsError),
    snd (infoLoop parseInt pm file n last f a) = Returned md ->
    exists k h m0,
      getHeader pm k = Resolved h /\ getMetadata pm k = Resolved m0
      /\ md = fillMetadata parseInt h m0.
Proof.
  induction f as [|f IH]; intros a last H; simpl in H; [discriminate|].
  destruct (infoAttempt parseInt pm a) as [m|e] eqn:Ea.
  - simpl in H. injection H as <-. unfold infoAttempt in Ea.
    destruct (getHeader pm a) as [h|] eqn:Eh; [|discriminate].
    destruct (getMetadata pm a) as [m0|] eqn:Em; [|discriminate].
    injection Ea as <-. exists a, h, m0. auto.
  - destruct (messageHas429 e && (Z.of_nat a <? Z.of_nat n - 1)%Z).
    + destruct (infoLoop parseInt pm file n (Some e) f (S a)) as [tr c] eqn:El.
      simpl in H. apply (IH (S a) (Some e)). now rewrite El.
    + destruct (notOptional429 e || (Z.of_nat a =? Z.of_nat n - 1)%Z).
      * discriminate.
      * destruct (infoLoop parseInt pm file n (Some e) f (S a)) as [tr c] eqn:El.
        simpl in H. apply (IH (S a) (Some e)). now rewrite El.
Qed.

Lemma hasBounds_false (h : Header) :
  boundsMissing h = true \/ boundsAllZero h = true -> hasBounds h = false.
Proof.
  unfold boundsMissing, boundsAllZero, hasBounds. intros [H|H].
  - apply negb_true_iff in H. now rewrite H.
  - rewrite H. now rewrite andb_false_r.
Qed.

Lemma fillMetadata_bounds (h : Header) (m0 : gmap string JsProp) :
  fillMetadata parseInt h m0 !! "bounds"
  = Some (PArr (if hasBounds h
                then [minLon h; minLat h; maxLon h; maxLat h]
                else worldBounds)).
Proof.
  unfold fillMetadata.
  destruct (hasBounds h), (truthy (centerZoom h)); now simplify_map_eq.
Qed.

Lemma fillMetadata_center (h : Header) (m0 : gmap string JsProp) :
  fillMetadata parseInt h m0 !! "center"
  = Some (PArr (if truthy (centerZoom h)
                then [centerLon h; centerLat h; centerZoom h]
                else [centerLon h; centerLat h;
                      JNum (parseInt (maxZoom h) / 2)%float])).
Proof.
  unfold fillMetadata.
  destruct (hasBounds h), (truthy (centerZoom h)); now simplify_map_eq.
Qed.

(** C5 (as amended).  When every header the archive reports has a bound
    that is not a number, or has all four bounds equal to zero, the metadata
    [getPMtilesInfo] returns has bounds
    [-180, -85.05112877980659, 180, 85.0511287798066]; the header's bounds
    are not passed through. *)
Theorem C5_default_bounds (pm : PMTiles) (file : string) (n : nat)
    (md : gmap string JsProp) :
  snd (getPMtilesInfo parseInt pm file n) = Returned md ->
  (forall k h, getHeader pm k = Resolved h ->
               boundsMissing h = true \/ boundsAllZero h = true) ->
  md !! "bounds"
  = Some (PArr [ JNum (-180)%float; JNum (-85.05112877980659)%float;
                 JNum 180%float; JNum 85.0511287798066%float ]).
Proof.
  intros Hret Hhdr. unfold getPMtilesInfo in Hret.
  apply infoLoop_returned in Hret as (k & h & m0 & Hh & _ & ->).
  rewrite fillMetadata_bounds.
  now rewrite (hasBounds_false h (Hhdr k h Hh)).
Qed.

(** C10.  When the header reports a center zoom of exactly 0, the returned
    center is [centerLon, centerLat, parseInt(maxzoom) / 2], the same as for
    a header without a center zoom, and it is (centerLon, centerLat,
    maxZoom / 2) for an integer [maxZoom], which [parseInt] leaves as it
    is. *)
Theorem C10_center_zoom_zero_is_absent (pm : PMTiles) (file : string) (n : nat)
    (md : gmap string JsProp) (h : Header) (mz : float) :
  snd (getPMtilesInfo parseInt pm file n) = Returned md ->
  (forall k h', getHeader pm k = Resolved h' -> h' = h) ->
  centerZoom h = JNum 0%float ->
  maxZoom h = JNum mz ->
  parseInt (JNum mz) = mz ->
  md !! "center" = Some (PArr [ centerLon h; centerLat h; JNum (mz / 2)%float ])
  /\ forall m0 : gmap string JsProp,
       fillMetadata parseInt h m0 !! "center"
       = fillMetadata parseInt (withCenterZoom h JUndefined) m0 !! "center".
Proof.
  intros Hret Hhdr Hcz Hmz Hpi. unfold getPMtilesInfo in Hret.
  apply infoLoop_returned in Hret as (k & h' & m0 & Hh & _ & ->).
  rewrite (Hhdr k h' Hh). split.
  - rewrite fillMetadata_center, Hcz. simpl. now rewrite Hmz, Hpi.
  - intros m1. rewrite !fillMetadata_center, Hcz. reflexivity.
Qed.

(** C1 (as amended).  With the default of three attempts: [getPMtilesInfo]
    makes between one and three attempts, makes a further attempt only after
    a failure whose message contains "429", sleeps [2^attempt] seconds before
    each further attempt, attempts exactly once when the first failure is
    not such a failure, and attempts three times when all three attempts are
    rate-limited.  [getPMtilesTile] makes between one and three attempts and
    sleeps [2^attempt] seconds exactly after the rate-limited failures that
    are followed by a further attempt; it stops after one attempt when the
    first attempt succeeds or fails with a bad response code that is not
    rate-limited; every other failure is followed by a further attempt
    while attempts remain, so three rate-limited attempts are all made. *)
Theorem C1_retry_policy (pm : PMTiles) (file : string) (z x y : Z) :
  let ti := fst (getPMtilesInfo parseInt pm file defaultMaxRetries) in
  let tt := fst (getPMtilesTile pm z x y defaultMaxRetries) in
  (1 <= attempts ti <= 3
   /\ sleeps ti = List.map backoffMs (seq 0 (attempts ti - 1))
   /\ (forall k, k + 1 < attempts ti -> infoRateLimited parseInt pm k = true)
   /\ (infoRateLimited parseInt pm 0 = false -> attempts ti = 1)
   /\ ((forall k, k < 3 -> infoRateLimited parseInt pm k = true) -> attempts ti = 3))
  /\ (1 <= attempts tt <= 3
      /\ sleeps tt = List.map backoffMs
                       (List.filter (tileRateLimited pm z x y) (seq 0 (attempts tt - 1)))
      /\ (forall k, k + 1 < attempts tt ->
            tileFailed pm z x y k = true /\ tileBadResponse pm z x y k = false)
      /\ (tileFailed pm z x y 0 = false \/ tileBadResponse pm z x y 0 = true ->
          attempts tt = 1)
      /\ (forall k, k < attempts tt -> tileFailed pm z x y k = true ->
            tileBadResponse pm z x y k = false -> k + 1 < 3 -> k + 1 < attempts tt)
      /\ ((forall k, k < 3 -> tileRateLimited pm z x y k = true) -> attempts tt = 3))
  /\ (forall k, backoffMs k = (2 ^ Z.of_nat k * 1000)%Z).
Proof.
  cbn zeta. unfold getPMtilesInfo, getPMtilesTile, defaultMaxRetries.
  pose proof (infoLoop_spec pm file 3 3 0 None eq_refl) as Hi.
  pose proof (tileLoop_spec pm z x y 3 3 0 eq_refl) as Ht.
  cbn zeta in Hi, Ht.
  destruct Hi as (Hi1 & Hi2 & Hi3 & Hi4 & Hi5).
  destruct Ht as (Ht1 & Ht2 & Ht3 & Ht4 & Ht5 & _ & _).
  specialize (Hi2 ltac:(lia)). specialize (Ht2 ltac:(lia)).
  split; [|split].
  - split5.
    + lia.
    + exact Hi3.
    + intros k Hk. apply Hi4; lia.
    + intros H0.
      destruct (Nat.eq_dec (attempts (fst (infoLoop parseInt pm file 3 None 3 0))) 1)
        as [E|E]; [exact E|].
      rewrite (Hi4 0) in H0; [discriminate | lia | lia].
    + intros Hall.
      assert (H1 : 0 + 1 < 0 + attempts (fst (infoLoop parseInt pm file 3 None 3 0)))
        by (apply Hi5; [lia | lia | apply Hall; lia | lia]).
      assert (H2 : 1 + 1 < 0 + attempts (fst (infoLoop parseInt pm file 3 None 3 0)))
        by (apply Hi5; [lia | lia | apply Hall; lia | lia]).
      lia.
  - split; [lia|]. split5.
    + exact Ht3.
    + intros k Hk. apply Ht4; lia.
    + intros H0.
      destruct (Nat.eq_dec (attempts (fst (tileLoop pm z x y 3 3 0))) 1) as [E|E]; [exact E|].
      destruct (Ht4 0 ltac:(lia) ltac:(lia)) as [Hf Hb].
      destruct H0 as [H0|H0]; congruence.
    + intros k Hk Hf Hb Hk3.
      specialize (Ht5 k ltac:(lia) ltac:(lia) Hf Hb Hk3). lia.
    + intros Hall.
      assert (Hgo : forall k, k < 3 -> tileFailed pm z x y k = true
                                       /\ tileBadResponse pm z x y k = false).
      { intros k Hk. specialize (Hall k Hk).
        unfold tileRateLimited, tileFailed, tileBadResponse in *.
        destruct (tileAttempt pm z x y k); [discriminate|].
        rewrite Hall. now rewrite andb_false_r. }
      assert (H1 : 0 + 1 < 0 + attempts (fst (tileLoop pm z x y 3 3 0))).
      { destruct (Hgo 0 ltac:(lia)). apply Ht5; auto; lia. }
      assert (H2 : 1 + 1 < 0 + attempts (fst (tileLoop pm z x y 3 3 0))).
      { destruct (Hgo 1 ltac:(lia)). apply Ht5; auto; lia. }
      lia.
  - intros k. reflexivity.
Qed.

(** C8 (as amended).  [getPMtilesTile] never throws: it always returns.  It
    returns [null] when every attempt fails, and a log entry is then written;
    an attempt that fails with a bad response code that is not rate-limited
    is logged and ends the call at once with [null], as a miss does; after
    any other failure the next attempt, if one remains, decides. *)
Theorem C8_tile_fetch_never_throws (pm : PMTiles) (z x y : Z) (n : nat) :
  let r := getPMtilesTile pm z x y n in
  (exists v, snd r = Returned v)
  /\ ((forall k, k < n -> tileFailed pm z x y k = true) ->
      snd r = Returned None
      /\ (In LogExhausted (fst r) \/ exists msg, In (LogHttpError msg) (fst r)))
  /\ (forall k, k < attempts (fst r) -> tileBadResponse pm z x y k = true ->
        snd r = Returned None /\ attempts (fst r) = k + 1
        /\ exists msg, In (LogHttpError msg) (fst r))
  /\ (forall k, k < attempts (fst r) -> tileFailed pm z x y k = true ->
        tileBadResponse pm z x y k = false -> k + 1 < n ->
        k + 1 < attempts (fst r)).
Proof.
  cbn zeta. unfold getPMtilesTile.
  pose proof (tileLoop_spec pm z x y n n 0 eq_refl) as Ht.
  pose proof (tileLoop_end pm z x y n n 0 eq_refl) as He.
  cbn zeta in Ht, He.
  destruct Ht as (_ & _ & _ & _ & Ht5 & Ht6 & Ht7).
  destruct He as (He1 & He2).
  split4.
  - exact Ht6.
  - intros Hall. split.
    + apply Ht7. intros k _ Hk. now apply Hall.
    + apply He2. intros k _ Hk. now apply Hall.
  - intros k Hk Hb. destruct (He1 k ltac:(lia) ltac:(lia) Hb) as (Hr & Hc & Hm).
    split; [exact Hr|]. split; [lia | exact Hm].
  - intros k Hk Hf Hb Hk3. specialize (Ht5 k ltac:(lia) ltac:(lia) Hf Hb Hk3). lia.
Qed.

End RetryProperties.

(** C1, counterexample.  An archive whose every query fails with the message
    "boom": the first failure is not rate-limited, yet [getPMtilesTile] makes
    three attempts, without sleeping. *)
Lemma C1_tile_retries_other_failures :
  Adapter.tileFailed (Adapter.failingArchive "boom") 0 0 0 0 = true
  /\ Adapter.tileRateLimited (Adapter.failingArchive "boom") 0 0 0 0 = false
  /\ fst (Adapter.getPMtilesTile (Adapter.failingArchive "boom") 0 0 0
                                 Adapter.defaultMaxRetries)
     = [ Adapter.Attempt 0; Adapter.LogFailed 1 "boom";
         Adapter.Attempt 1; Adapter.LogFailed 2 "boom";
         Adapter.Attempt 2; Adapter.LogFailed 3 "boom";
         Adapter.LogExhausted ]
  /\ Adapter.attempts
       (fst (Adapter.getPMtilesTile (Adapter.failingArchive "boom") 0 0 0
                                    Adapter.defaultMaxRetries)) = 3.
Proof. repeat split; reflexivity. Qed.

(** C5, counterexample.  For a header whose four bounds are zero the bounds
    written are [-180, -85.05112877980659, 180, 85.0511287798066]; they are
    not the numbers [-180, -85.0511288, 180, 85.0511288]. *)
Lemma C5_bounds_are_not_the_rounded_figures :
  Adapter.boundsAllZero Adapter.pngHeader = true
  /\ Adapter.fillMetadata Adapter.parseIntOnIntegers Adapter.pngHeader ∅ !! "bounds"
     = Some (PArr Adapter.worldBounds)
  /\ Adapter.sameNumbers Adapter.worldBounds Adapter.roundedWorldBounds = false.
Proof.
  split; [reflexivity|]. split; [|reflexivity].
  now rewrite fillMetadata_bounds.
Qed.

(** C5, witness: the archive that serves [pngHeader], whose bounds are all
    zero. *)
Lemma C5_default_bounds_witness :
  Adapter.fillMetadata Adapter.parseIntOnIntegers Adapter.pngHeader ∅ !! "bounds"
  = Some (PArr [ JNum (-180)%float; JNum (-85.05112877980659)%float;
                 JNum 180%float; JNum 85.0511287798066%float ]).
Proof.
  apply (C5_default_bounds Adapter.parseIntOnIntegers
           (Adapter.flakyArchive 0 "") "world.pmtiles" 3).
  - reflexivity.
  - intros k h H. injection H as <-. right. reflexivity.
Defined.

(** C10, witness: [pngHeader] has center zoom 0 and maximum zoom 14, so the
    center zoom written is 7. *)
Lemma C10_center_zoom_zero_witness :
  Adapter.fillMetadata Adapter.parseIntOnIntegers Adapter.pngHeader ∅ !! "center"
  = Some (PArr [ JNum 8.5%float; JNum 47.25%float; JNum (14 / 2)%float ])
  /\ forall m0 : gmap string JsProp,
       Adapter.fillMetadata Adapter.parseIntOnIntegers Adapter.pngHeader m0 !! "center"
       = Adapter.fillMetadata Adapter.parseIntOnIntegers
           (Adapter.withCenterZoom Adapter.pngHeader JUndefined) m0 !! "center".
Proof.
  apply (C10_center_zoom_zero_is_absent Adapter.parseIntOnIntegers
           (Adapter.flakyArchive 0 "") "world.pmtiles" 3
           (Adapter.fillMetadata Adapter.parseIntOnIntegers Adapter.pngHeader ∅)
           Adapter.pngHeader 14%float).
  - reflexivity.
  - intros k h H. injection H as <-. reflexivity.
  - reflexivity.
  - reflexivity.
  - reflexivity.
Defined.

(** C8, counterexample.  The first attempt fails with "boom", which is not
    rate-limited, and the second finds a tile: the call returns that tile,
    not [null]. *)
Lemma C8_tile_returned_after_failure :
  Adapter.tileFailed (Adapter.flakyArchive 1 "boom") 0 0 0 0 = true
  /\ Adapter.tileRateLimited (Adapter.flakyArchive 1 "boom") 0 0 0 0 = false
  /\ exists t,
       snd (Adapter.getPMtilesTile (Adapter.flakyArchive 1 "boom") 0 0 0
                                   Adapter.defaultMaxRetries)
       = Adapter.Returned (Some t)
       /\ Adapter.tileData t = [1; 2; 3]%Z.
Proof.
  split; [reflexivity|]. split; [reflexivity|].
  eexists. split; reflexivity.
Qed.

(** Rate-limited twice, then served: three attempts, with sleeps of one and
    two seconds. *)
Example rate_limited_twice_then_served :
  fst (Adapter.getPMtilesTile (Adapter.flakyArchive 2 "Bad response code: 429") 0 0 0 3)
  = [ Adapter.Attempt 0; Adapter.WarnRateLimited 1000 1; Adapter.Sleep 1000;
      Adapter.Attempt 1; Adapter.WarnRateLimited 2000 2; Adapter.Sleep 2000;
      Adapter.Attempt 2 ].
Proof. reflexivity. Qed.

(* ===================================================================== *)
(** ** The pattern matcher against a declarative reading of the patterns  *)
(* ===================================================================== *)

Section StringFacts.

Lemma append_nil_r (s : string) : s ++ "" = s.
Proof. induction s as [|c s IH]; simpl; [reflexivity | now rewrite IH]. Qed.

Lemma append_assoc (a b c : string) : (a ++ b) ++ c = a ++ (b ++ c).
Proof. induction a as [|x a IH]; simpl; [reflexivity | now rewrite IH]. Qed.

Lemma snoc_append (acc : string) (c : ascii) (w : string) :
  Regex.snoc acc c ++ w = acc ++ String c w.
Proof. unfold Regex.snoc. now rewrite append_assoc. Qed.

Lemma noChar_append (c : ascii) (a b : string) :
  noChar c (a ++ b) = noChar c a && noChar c b.
Proof.
  induction a as [|x a IH]; simpl; [reflexivity|].
  rewrite IH. now rewrite andb_assoc.
Qed.

Lemma split_noChar (c : ascii) (s : string) :
  noChar c s = true -> split c s = [s].
Proof.
  induction s as [|x s IH]; simpl; [reflexivity|].
  intros H. apply andb_true_iff in H as [Hx Hs].
  apply negb_true_iff in Hx. rewrite Hx, (IH Hs). reflexivity.
Qed.

(** A string is cut at its first occurrence of a character in one way. *)
Lemma cut_unique (c : ascii) (u u' r r' : string) :
  noChar c u = true -> noChar c u' = true ->
  u ++ String c r = u' ++ String c r' -> u = u' /\ r = r'.
Proof.
  revert u'. induction u as [|x u IH]; intros [|x' u'] Hu Hu' E; simpl in *.
  - injection E as ->. split; reflexivity.
  - injection E as <- _. rewrite Ascii.eqb_refl in Hu'. discriminate.
  - injection E as -> _. rewrite Ascii.eqb_refl in Hu. discriminate.
  - injection E as -> E.
    apply andb_true_iff in Hu as [_ Hu]. apply andb_true_iff in Hu' as [_ Hu'].
    destruct (IH u' Hu Hu' E) as [-> ->]. split; reflexivity.
Qed.

End StringFacts.

Module RegexFacts.
Import Regex.

Section Continuations.
Context {R : Type}.
Implicit Types (k : string -> string -> option R).

Lemma matchStar_sound cl : forall s acc k r,
  matchStar cl s acc k = Some r ->
  exists u s', s = u ++ s' /\ allIn cl u = true /\ k (acc ++ u) s' = Some r.
Proof.
  induction s as [|c s IH]; intros acc k r H; simpl in H.
  - exists "", "". simpl. rewrite !append_nil_r. auto.
  - destruct (classMatches cl c) eqn:Hc.
    + destruct (matchStar cl s (snoc acc c) k) as [r0|] eqn:Hin.
      * injection H as <-. destruct (IH _ _ _ Hin) as (u & s' & -> & Hu & Hk).
        exists (String c u), s'. simpl. rewrite Hc, Hu.
        rewrite snoc_append in Hk. auto.
      * exists "", (String c s). simpl. rewrite !append_nil_r. auto.
    + exists "", (String c s). simpl. rewrite !append_nil_r. auto.
Qed.

Lemma matchStar_complete cl : forall u acc s' k r,
  allIn cl u = true -> k (acc ++ u) s' = Some r ->
  exists r', matchStar cl (u ++ s') acc k = Some r'.
Proof.
  induction u as [|c u IH]; intros acc s' k r Hu Hk; simpl in *.
  - rewrite append_nil_r in Hk. destruct s' as [|d s']; simpl; [eauto|].
    destruct (classMatches cl d); [|eauto].
    destruct (matchStar cl s' (snoc acc d) k); eauto.
  - apply andb_true_iff in Hu as [Hc Hu]. rewrite Hc.
    rewrite <- snoc_append in Hk.
    destruct (IH _ _ _ _ Hu Hk) as [r' ->]. eauto.
Qed.

Lemma matchAtoms_sound : forall atoms s acc k r,
  matchAtoms atoms s acc k = Some r ->
  exists w s', s = w ++ s' /\ atomsMatch atoms w /\ k (acc ++ w) s' = Some r.
Proof.
  induction atoms as [|a atoms IH]; intros s acc k r H; simpl in H.
  - exists "", s. simpl. rewrite append_nil_r. split; [reflexivity|]. split; [constructor | exact H].
  - destruct a as [cl|cl|cl].
    + destruct s as [|c s]; [discriminate|].
      destruct (classMatches cl c) eqn:Hc; [|discriminate].
      destruct (IH _ _ _ _ H) as (w & s' & -> & Hw & Hk).
      exists (String c w), s'. rewrite snoc_append in Hk.
      split; [reflexivity|]. split; [now constructor | exact Hk].
    + destruct (matchStar_sound _ _ _ _ _ H) as (u & s1 & -> & Hu & H1).
      destruct (IH _ _ _ _ H1) as (w & s' & -> & Hw & Hk).
      exists (u ++ w), s'. rewrite <- !append_assoc.
      split; [reflexivity|]. split; [now constructor | exact Hk].
    + destruct s as [|c s]; [discriminate|].
      destruct (classMatches cl c) eqn:Hc; [|discriminate].
      destruct (matchStar_sound _ _ _ _ _ H) as (u & s1 & -> & Hu & H1).
      destruct (IH _ _ _ _ H1) as (w & s' & -> & Hw & Hk).
      exists (String c (u ++ w)), s'.
      rewrite append_assoc, snoc_append in Hk.
      split; [simpl; now rewrite append_assoc|].
      split; [now constructor | exact Hk].
Qed.

Lemma matchAtoms_complete : forall atoms w,
  atomsMatch atoms w ->
  forall acc s' k r, k (acc ++ w) s' = Some r ->
  exists r', matchAtoms atoms (w ++ s') acc k = Some r'.
Proof.
  induction 1 as [|cl c more w Hc Hw IH|cl u more w Hu Hw IH|cl c u more w Hc Hu Hw IH];
    intros acc s' k r Hk; simpl.
  - rewrite append_nil_r in Hk. eauto.
  - rewrite Hc. apply (IH _ _ _ r). now rewrite snoc_append.
  - rewrite append_assoc.
    rewrite <- append_assoc in Hk.
    destruct (IH _ _ _ _ Hk) as [r1 H1].
    eapply matchStar_complete; [exact Hu | exact H1].
  - rewrite Hc. rewrite append_assoc.
    assert (Hk' : k ((snoc acc c ++ u) ++ w) s' = Some r).
    { rewrite snoc_append, append_assoc. exact Hk. }
    destruct (IH _ _ _ _ Hk') as [r1 H1].
    eapply matchStar_complete; [exact Hu | exact H1].
Qed.
End Continuations.

Lemma matchPieces_sound : forall pieces s caps0 out,
  matchPieces pieces s caps0 = Some out ->
  exists caps, piecesMatch pieces s caps /\ out = (caps0 ++ caps)%list.
Proof.
  induction pieces as [|p pieces IH]; intros s caps0 out H; simpl in H.
  - destruct s; [|discriminate]. injection H as <-.
    exists []. split; [constructor | now rewrite List.app_nil_r].
  - destruct p as [atoms|atoms].
    + destruct (matchAtoms_sound _ _ _ _ _ H) as (w & s' & -> & Hw & Hk).
      destruct (IH _ _ _ Hk) as (caps & Hp & ->).
      exists caps. split; [now constructor | reflexivity].
    + destruct (matchAtoms_sound _ _ _ _ _ H) as (w & s' & -> & Hw & Hk).
      destruct (IH _ _ _ Hk) as (caps & Hp & ->).
      exists (w :: caps). split; [now constructor|].
      now rewrite <- List.app_assoc.
Qed.

Lemma matchPieces_complete : forall pieces s caps,
  piecesMatch pieces s caps ->
  forall caps0, exists out, matchPieces pieces s caps0 = Some out.
Proof.
  induction 1 as [|atoms more w s caps Hw Hp IH|atoms more w s caps Hw Hp IH];
    intros caps0; simpl.
  - eauto.
  - destruct (IH caps0) as [out Hout].
    eapply matchAtoms_complete; [exact Hw | exact Hout].
  - destruct (IH (caps0 ++ [w])%list) as [out Hout].
    eapply matchAtoms_complete; [exact Hw | exact Hout].
Qed.

(** *** The three patterns of [parseS3Url] *)

Lemma allIn_NotSlash (w : string) : allIn NotSlash w = noChar "/"%char w.
Proof. induction w as [|c w IH]; simpl; [reflexivity | now rewrite IH]. Qed.

Lemma allIn_AnyChar (w : string) :
  allIn AnyChar w = noChar "010"%char w && noChar "013"%char w.
Proof.
  induction w as [|c w IH]; simpl; [reflexivity|]. rewrite IH.
  unfold isLineTerminator.
  destruct (Ascii.eqb c "010"), (Ascii.eqb c "013"); simpl;
    rewrite ?andb_false_r; reflexivity.
Qed.

Lemma lits_match (p : string) : atomsMatch (lits p) p.
Proof.
  induction p as [|c p IH]; simpl; constructor; [|exact IH].
  simpl. apply Ascii.eqb_refl.
Qed.

Lemma lits_inv (p : string) : forall w, atomsMatch (lits p) w -> w = p.
Proof.
  induction p as [|c p IH]; simpl; intros w H; inversion H; subst; [reflexivity|].
  match goal with Hc : classMatches (Lit _) _ = true |- _ =>
    simpl in Hc; apply Ascii.eqb_eq in Hc; subst end.
  f_equal. now apply IH.
Qed.

Lemma plus_inv (cl : CharClass) (w : string) :
  atomsMatch [Plus cl] w -> w <> "" /\ allIn cl w = true.
Proof.
  intros H. inversion H as [| | |cl' c u more w' Hc Hu Hw]; subst.
  inversion Hw; subst. rewrite append_nil_r. split; [discriminate|].
  simpl. now rewrite Hc, Hu.
Qed.

Lemma plus_match (cl : CharClass) (w : string) :
  w <> "" -> allIn cl w = true -> atomsMatch [Plus cl] w.
Proof.
  destruct w as [|c w]; [congruence|]. simpl. intros _ H.
  apply andb_true_iff in H as [Hc Hw].
  rewrite <- (append_nil_r w). constructor; [exact Hc | exact Hw | constructor].
Qed.

Lemma host_inv (h : string) :
  atomsMatch hostAtoms h ->
  noChar "/"%char h = true /\ noChar "."%char h = false /\ hasInnerDot h = true.
Proof.
  intros H. inversion H as [| |cl u more w Hu Hw|]; subst.
  inversion Hw as [|cl c more' w' Hc Hw'| |]; subst.
  apply plus_inv in Hw' as [Hne Hv].
  simpl in Hc. apply Ascii.eqb_eq in Hc. subst c.
  rewrite allIn_NotSlash in Hu, Hv.
  split; [|split].
  - rewrite noChar_append. simpl. now rewrite Hu, Hv.
  - rewrite noChar_append. simpl. now rewrite andb_false_r.
  - clear Hu H Hw. induction u as [|x u IH]; simpl.
    + destruct w'; [congruence | reflexivity].
    + rewrite IH. now rewrite orb_true_r.
Qed.

Lemma host_match (h : string) :
  noChar "/"%char h = true -> hasInnerDot h = true -> atomsMatch hostAtoms h.
Proof.
  induction h as [|c h IH]; simpl; [discriminate|].
  intros Hs Hd. apply andb_true_iff in Hs as [Hc Hs].
  destruct (Ascii.eqb c "." && negb (String.eqb h "")) eqn:Hhere.
  - apply andb_true_iff in Hhere as [Hdot Hne].
    apply Ascii.eqb_eq in Hdot. subst c.
    apply negb_true_iff, String.eqb_neq in Hne.
    change (String "." h) with ("" ++ String "." h).
    constructor; [reflexivity|]. constructor; [reflexivity|].
    apply plus_match; [exact Hne | now rewrite allIn_NotSlash].
  - simpl in Hd. specialize (IH Hs Hd).
    inversion IH as [| |cl u more w Hu Hw|]; subst.
    change (String c (u ++ w)) with (String c u ++ w).
    constructor; [|exact Hw]. simpl. now rewrite Hc, Hu.
Qed.

Lemma three_groups_inv (hostPat : list Atom) (s : string) (caps : list string) :
  piecesMatch [ Plain (lits "s3://"); Capture hostPat; Plain (lits "/");
                Capture [Plus NotSlash]; Plain (lits "/"); Capture [Plus AnyChar] ]
              s caps ->
  exists h b k, s = s3Custom h b k /\ caps = [h; b; k]
                /\ atomsMatch hostPat h
                /\ atomsMatch [Plus NotSlash] b /\ atomsMatch [Plus AnyChar] k.
Proof.
  intros H.
  inversion H as [|? ? w1 s1 ? Hw1 H1|]; subst; clear H.
  inversion H1 as [| |? ? w2 s2 c2 Hw2 H2]; subst; clear H1.
  inversion H2 as [|? ? w3 s3 ? Hw3 H3|]; subst; clear H2.
  inversion H3 as [| |? ? w4 s4 c4 Hw4 H4]; subst; clear H3.
  inversion H4 as [|? ? w5 s5 ? Hw5 H5|]; subst; clear H4.
  inversion H5 as [| |? ? w6 s6 c6 Hw6 H6]; subst; clear H5.
  inversion H6; subst; clear H6.
  apply (lits_inv "s3://") in Hw1. apply (lits_inv "/") in Hw3.
  apply (lits_inv "/") in Hw5. subst.
  exists w2, w4, w6. unfold s3Custom. rewrite append_nil_r. simpl. auto.
Qed.

Lemma three_groups_intro (hostPat : list Atom) (h b k : string) :
  atomsMatch hostPat h -> atomsMatch [Plus NotSlash] b -> atomsMatch [Plus AnyChar] k ->
  piecesMatch [ Plain (lits "s3://"); Capture hostPat; Plain (lits "/");
                Capture [Plus NotSlash]; Plain (lits "/"); Capture [Plus AnyChar] ]
              (s3Custom h b k) [h; b; k].
Proof.
  intros Hh Hb Hk. unfold s3Custom.
  rewrite <- (append_nil_r k) at 1.
  constructor; [apply lits_match|].
  constructor; [exact Hh|].
  constructor; [apply lits_match|].
  constructor; [exact Hb|].
  constructor; [apply lits_match|].
  constructor; [exact Hk | constructor].
Qed.

Lemma two_groups_inv (s : string) (caps : list string) :
  piecesMatch aws s caps ->
  exists b k, s = s3Aws b k /\ caps = [b; k]
              /\ atomsMatch [Plus NotSlash] b /\ atomsMatch [Plus AnyChar] k.
Proof.
  intros H. unfold aws in H.
  inversion H as [|? ? w1 s1 ? Hw1 H1|]; subst; clear H.
  inversion H1 as [| |? ? w2 s2 c2 Hw2 H2]; subst; clear H1.
  inversion H2 as [|? ? w3 s3 ? Hw3 H3|]; subst; clear H2.
  inversion H3 as [| |? ? w4 s4 c4 Hw4 H4]; subst; clear H3.
  inversion H4; subst; clear H4.
  apply (lits_inv "s3://") in Hw1. apply (lits_inv "/") in Hw3. subst.
  exists w2, w4. unfold s3Aws. rewrite append_nil_r. simpl. auto.
Qed.

Lemma two_groups_intro (b k : string) :
  atomsMatch [Plus NotSlash] b -> atomsMatch [Plus AnyChar] k ->
  piecesMatch aws (s3Aws b k) [b; k].
Proof.
  intros Hb Hk. unfold s3Aws, aws.
  rewrite <- (append_nil_r k) at 1.
  constructor; [apply lits_match|].
  constructor; [exact Hb|].
  constructor; [apply lits_match|].
  constructor; [exact Hk | constructor].
Qed.

Lemma s3Custom_inj (h b k h' b' k' : string) :
  noChar "/"%char h = true -> noChar "/"%char b = true ->
  noChar "/"%char h' = true -> noChar "/"%char b' = true ->
  s3Custom h b k = s3Custom h' b' k' -> h = h' /\ b = b' /\ k = k'.
Proof.
  unfold s3Custom. simpl. intros Hh Hb Hh' Hb' E.
  injection E as E.
  destruct (cut_unique _ _ _ _ _ Hh Hh' E) as [-> E2].
  destruct (cut_unique _ _ _ _ _ Hb Hb' E2) as [-> ->]. auto.
Qed.

Lemma s3Aws_inj (b k b' k' : string) :
  noChar "/"%char b = true -> noChar "/"%char b' = true ->
  s3Aws b k = s3Aws b' k' -> b = b' /\ k = k'.
Proof.
  unfold s3Aws. simpl. intros Hb Hb' E. injection E as E.
  exact (cut_unique _ _ _ _ _ Hb Hb' E).
Qed.

End RegexFacts.

(* ===================================================================== *)
(** ** [parseS3Url]: what is recovered from a location string             *)
(* ===================================================================== *)

Section S3UrlProperties.
Import Regex RegexFacts S3.
Variable searchParamsGet : string -> string -> option string.
Variable envRegion : option string.

Lemma customWithDot_exact (h b k : string) :
  noChar "/"%char h = true -> hasInnerDot h = true ->
  b <> "" -> noChar "/"%char b = true ->
  k <> "" -> allIn AnyChar k = true ->
  regexMatch customWithDot (s3Custom h b k) = Some [h; b; k].
Proof.
  intros Hh Hd Hb Hbs Hk Hka.
  assert (Hm : piecesMatch customWithDot (s3Custom h b k) [h; b; k]).
  { apply three_groups_intro.
    - now apply host_match.
    - apply plus_match; [exact Hb | now rewrite allIn_NotSlash].
    - now apply plus_match. }
  destruct (matchPieces_complete _ _ _ Hm []) as [out Hout].
  unfold regexMatch. rewrite Hout.
  destruct (matchPieces_sound _ _ _ _ Hout) as (caps & Hp & ->).
  apply three_groups_inv in Hp as (h' & b' & k' & E & -> & Hh' & Hb' & Hk').
  apply host_inv in Hh' as (Hh' & _).
  apply plus_inv in Hb' as (_ & Hb'). rewrite allIn_NotSlash in Hb'.
  destruct (s3Custom_inj _ _ _ _ _ _ Hh Hbs Hh' Hb' E) as (-> & -> & ->).
  reflexivity.
Qed.

Lemma customForced_exact (h b k : string) :
  h <> "" -> noChar "/"%char h = true ->
  b <> "" -> noChar "/"%char b = true ->
  k <> "" -> allIn AnyChar k = true ->
  regexMatch customForced (s3Custom h b k) = Some [h; b; k].
Proof.
  intros Hh Hhs Hb Hbs Hk Hka.
  assert (Hm : piecesMatch customForced (s3Custom h b k) [h; b; k]).
  { apply three_groups_intro.
    - apply plus_match; [exact Hh | now rewrite allIn_NotSlash].
    - apply plus_match; [exact Hb | now rewrite allIn_NotSlash].
    - now apply plus_match. }
  destruct (matchPieces_complete _ _ _ Hm []) as [out Hout].
  unfold regexMatch. rewrite Hout.
  destruct (matchPieces_sound _ _ _ _ Hout) as (caps & Hp & ->).
  apply three_groups_inv in Hp as (h' & b' & k' & E & -> & Hh' & Hb' & Hk').
  apply plus_inv in Hh' as (_ & Hh'). rewrite allIn_NotSlash in Hh'.
  apply plus_inv in Hb' as (_ & Hb'). rewrite allIn_NotSlash in Hb'.
  destruct (s3Custom_inj _ _ _ _ _ _ Hhs Hbs Hh' Hb' E) as (-> & -> & ->).
  reflexivity.
Qed.

Lemma aws_exact (b k : string) :
  b <> "" -> noChar "/"%char b = true ->
  k <> "" -> allIn AnyChar k = true ->
  regexMatch aws (s3Aws b k) = Some [b; k].
Proof.
  intros Hb Hbs Hk Hka.
  assert (Hm : piecesMatch aws (s3Aws b k) [b; k]).
  { apply two_groups_intro.
    - apply plus_match; [exact Hb | now rewrite allIn_NotSlash].
    - now apply plus_match. }
  destruct (matchPieces_complete _ _ _ Hm []) as [out Hout].
  unfold regexMatch. rewrite Hout.
  destruct (matchPieces_sound _ _ _ _ Hout) as (caps & Hp & ->).
  apply two_groups_inv in Hp as (b' & k' & E & -> & Hb' & Hk').
  apply plus_inv in Hb' as (_ & Hb'). rewrite allIn_NotSlash in Hb'.
  destruct (s3Aws_inj _ _ _ _ Hbs Hb' E) as (-> & ->).
  reflexivity.
Qed.

Lemma customWithDot_none (b k : string) :
  noChar "/"%char b = true ->
  noChar "."%char b = true \/ noChar "/"%char k = true ->
  regexMatch customWithDot (s3Aws b k) = None.
Proof.
  intros Hbs Hor. unfold regexMatch.
  destruct (matchPieces customWithDot (s3Aws b k) []) as [out|] eqn:Hout; [|reflexivity].
  exfalso.
  destruct (matchPieces_sound _ _ _ _ Hout) as (caps & Hp & ->).
  apply three_groups_inv in Hp as (h' & b' & k' & E & -> & Hh' & Hb' & Hk').
  apply host_inv in Hh' as (Hh' & Hdot & _).
  change (s3Custom h' b' k') with (s3Aws h' (b' ++ "/" ++ k')) in E.
  destruct (s3Aws_inj _ _ _ _ Hbs Hh' E) as (-> & ->).
  destruct Hor as [Hnodot|Hnoslash].
  - congruence.
  - rewrite noChar_append in Hnoslash. simpl in Hnoslash.
    rewrite andb_false_r in Hnoslash. discriminate.
Qed.

Lemma validKey_parts (k : string) :
  validKey k = true -> k <> "" /\ noChar "?"%char k = true /\ allIn AnyChar k = true.
Proof.
  unfold validKey. intros H.
  apply andb_true_iff in H as [H Hcr]. apply andb_true_iff in H as [H Hlf].
  apply andb_true_iff in H as [Hne Hq].
  apply negb_true_iff, String.eqb_neq in Hne.
  rewrite allIn_AnyChar, Hlf, Hcr. auto.
Qed.

Lemma validBucket_parts (b : string) :
  validBucket b = true -> b <> "" /\ noChar "/"%char b = true /\ noChar "?"%char b = true.
Proof.
  unfold validBucket. intros H.
  apply andb_true_iff in H as [H Hq]. apply andb_true_iff in H as [Hne Hs].
  apply negb_true_iff, String.eqb_neq in Hne. auto.
Qed.

Lemma validHost_parts (h : string) :
  validHost h = true ->
  noChar "/"%char h = true /\ noChar "?"%char h = true /\ hasInnerDot h = true.
Proof.
  unfold validHost. intros H.
  apply andb_true_iff in H as [H Hd]. apply andb_true_iff in H as [Hs Hq]. auto.
Qed.

Lemma hasInnerDot_nonempty (h : string) : hasInnerDot h = true -> h <> "".
Proof. destruct h; [discriminate | discriminate]. Qed.

(** Without a question mark there is no query string and the whole
    string is the clean URL. *)
Lemma no_query (url : string) :
  noChar "?"%char url = true -> queryOf url = None /\ cleanOf url = url.
Proof.
  intros H. unfold queryOf, cleanOf. rewrite (split_noChar _ _ H). auto.
Qed.

Lemma s3Custom_no_query (h b k : string) :
  noChar "?"%char h = true -> noChar "?"%char b = true -> noChar "?"%char k = true ->
  noChar "?"%char (s3Custom h b k) = true.
Proof.
  intros Hh Hb Hk. unfold s3Custom.
  repeat first [rewrite noChar_append | progress simpl].
  now rewrite Hh, Hb, Hk.
Qed.

Lemma s3Aws_no_query (b k : string) :
  noChar "?"%char b = true -> noChar "?"%char k = true ->
  noChar "?"%char (s3Aws b k) = true.
Proof.
  intros Hb Hk. unfold s3Aws.
  repeat first [rewrite noChar_append | progress simpl].
  now rewrite Hb, Hk.
Qed.

Lemma parse_custom_auto (h b k : string) :
  validHost h = true -> validBucket b = true -> validKey k = true ->
  parseS3Url searchParamsGet envRegion (s3Custom h b k) None
  = inr (mkParsed (Some ("https://" ++ h)) b k (defaultRegion envRegion) None false).
Proof.
  intros Hh Hb Hk.
  apply validHost_parts in Hh as (Hhs & Hhq & Hhd).
  apply validBucket_parts in Hb as (Hbn & Hbs & Hbq).
  apply validKey_parts in Hk as (Hkn & Hkq & Hka).
  destruct (no_query _ (s3Custom_no_query _ _ _ Hhq Hbq Hkq)) as [Hq Hc].
  unfold parseS3Url. rewrite Hq, Hc. simpl.
  rewrite (customWithDot_exact _ _ _ Hhs Hhd Hbn Hbs Hkn Hka).
  pose proof (hasInnerDot_nonempty _ Hhd) as Hne.
  apply String.eqb_neq in Hne. rewrite Hne. reflexivity.
Qed.

Lemma parse_aws_auto (b k : string) :
  validBucket b = true -> validKey k = true ->
  noChar "."%char b = true \/ noChar "/"%char k = true ->
  parseS3Url searchParamsGet envRegion (s3Aws b k) None
  = inr (mkParsed None b k (defaultRegion envRegion) None false).
Proof.
  intros Hb Hk Hor.
  apply validBucket_parts in Hb as (Hbn & Hbs & Hbq).
  apply validKey_parts in Hk as (Hkn & Hkq & Hka).
  destruct (no_query _ (s3Aws_no_query _ _ Hbq Hkq)) as [Hq Hc].
  unfold parseS3Url. rewrite Hq, Hc. simpl.
  rewrite (customWithDot_none _ _ Hbs Hor).
  rewrite (aws_exact _ _ Hbn Hbs Hkn Hka). reflexivity.
Qed.

Lemma parse_aws_forced (b k : string) :
  validBucket b = true -> validKey k = true ->
  parseS3Url searchParamsGet envRegion (s3Aws b k) (Some "aws")
  = inr (mkParsed None b k (defaultRegion envRegion) None false).
Proof.
  intros Hb Hk.
  apply validBucket_parts in Hb as (Hbn & Hbs & Hbq).
  apply validKey_parts in Hk as (Hkn & Hkq & Hka).
  destruct (no_query _ (s3Aws_no_query _ _ Hbq Hkq)) as [Hq Hc].
  unfold parseS3Url. rewrite Hq, Hc. simpl.
  rewrite (aws_exact _ _ Hbn Hbs Hkn Hka). reflexivity.
Qed.

Lemma parse_auto_no_query (url : string) :
  noChar "?"%char url = true ->
  parseS3Url searchParamsGet envRegion url None
  = match regexMatch customWithDot url with
    | Some [m1; m2; m3] =>
        inr (mkParsed (if String.eqb m1 "" then None else Some ("https://" ++ m1))
                      m2 m3 (defaultRegion envRegion) None false)
    | _ =>
        match regexMatch aws url with
        | Some [m1; m2] => inr (mkParsed None m1 m2 (defaultRegion envRegion) None false)
        | _ => inl (invalidFormatMessage url)
        end
    end.
Proof.
  intros H. destruct (no_query _ H) as [Hq Hc].
  unfold parseS3Url. rewrite Hq, Hc. reflexivity.
Qed.

(** C3 (as amended).  With auto-detection (no format hint) and no query
    string: a string [s3://host/bucket/key] whose host has a dot before its
    last character is read back as that bucket and key, with the endpoint
    [https://host]; a string [s3://bucket/key] is read back as that bucket
    and key, with no endpoint, when the bucket has no dot or the key has no
    slash.  The host pattern is tried first and, where it matches, decides:
    [s3://bucket/key] with a slash in the key is the same string as
    [s3://host/bucket'/key'], so a bucket with a dot before its last
    character is taken for a host.  With the format hint [aws] every
    [s3://bucket/key] is read back as that bucket and key. *)
Theorem C3_location_round_trip :
  (forall h b k,
     validHost h = true -> validBucket b = true -> validKey k = true ->
     parseS3Url searchParamsGet envRegion (s3Custom h b k) None
     = inr (mkParsed (Some ("https://" ++ h)) b k (defaultRegion envRegion) None false))
  /\ (forall b k,
        validBucket b = true -> validKey k = true ->
        noChar "."%char b = true \/ noChar "/"%char k = true ->
        parseS3Url searchParamsGet envRegion (s3Aws b k) None
        = inr (mkParsed None b k (defaultRegion envRegion) None false))
  /\ (forall url m1 m2 m3,
        noChar "?"%char url = true ->
        regexMatch customWithDot url = Some [m1; m2; m3] ->
        parseS3Url searchParamsGet envRegion url None
        = inr (mkParsed (if String.eqb m1 "" then None else Some ("https://" ++ m1))
                        m2 m3 (defaultRegion envRegion) None false))
  /\ (forall h b k, s3Aws h (b ++ "/" ++ k) = s3Custom h b k)
  /\ (forall b k,
        validBucket b = true -> validKey k = true ->
        parseS3Url searchParamsGet envRegion (s3Aws b k) (Some "aws")
        = inr (mkParsed None b k (defaultRegion envRegion) None false)).
Proof.
  split5.
  - exact parse_custom_auto.
  - exact parse_aws_auto.
  - intros url m1 m2 m3 Hq Hm. rewrite (parse_auto_no_query url Hq), Hm. reflexivity.
  - reflexivity.
  - exact parse_aws_forced.
Qed.

Lemma parse_fields (url : string) (fmt : option string) (p : Parsed) :
  parseS3Url searchParamsGet envRegion url fmt = inr p ->
  profile p = urlParam searchParamsGet url "profile"
  /\ region p = nullish (urlParam searchParamsGet url "region") (defaultRegion envRegion)
  /\ requestPayer p = (strIs (urlParam searchParamsGet url "requestPayer") "true"
                       || strIs (urlParam searchParamsGet url "requestPayer") "1").
Proof.
  unfold parseS3Url, urlParam, defaultRegion.
  destruct (queryOf url) as [q|]; cbn zeta;
    repeat match goal with
           | |- context [if ?c then _ else _] => destruct c
           | |- context [match ?x with _ => _ end] => destruct x
           end;
    intros H; try discriminate; injection H as <-; simpl; auto.
Qed.

(** C4.  For an S3 source that could be constructed: a non-empty profile or
    region from the caller's configuration is the one used, whatever the
    location string and the environment say; without one, the value of the
    query parameter is used; without that, the profile is null and the
    region is the environment's AWS_REGION or, failing that, us-east-1.  A
    requestPayer given by the caller, [false] included, is the one used;
    without one, the query parameter decides (true for "true" and "1");
    without that, it is false. *)
Theorem C4_precedence (url : string)
    (s3Profile : option string) (configRequestPayer : option bool)
    (configRegion : option string) (s3UrlFormat : option string) (src : Source) :
  newS3Source searchParamsGet envRegion url s3Profile configRequestPayer
              configRegion s3UrlFormat = inr src ->
  ((forall v, s3Profile = Some v -> v <> "" -> srcProfile src = Some v)
   /\ (truthyStr s3Profile = false -> srcProfile src = urlParam searchParamsGet url "profile"))
  /\ ((forall v, configRegion = Some v -> v <> "" -> srcRegion src = v)
      /\ (truthyStr configRegion = false ->
          forall v, urlParam searchParamsGet url "region" = Some v -> srcRegion src = v)
      /\ (truthyStr configRegion = false -> urlParam searchParamsGet url "region" = None ->
          srcRegion src = orElse envRegion "us-east-1"))
  /\ ((forall b, configRequestPayer = Some b -> srcRequestPayer src = b)
      /\ (configRequestPayer = None ->
          forall v, urlParam searchParamsGet url "requestPayer" = Some v ->
                    srcRequestPayer src = (String.eqb v "true" || String.eqb v "1"))
      /\ (configRequestPayer = None -> urlParam searchParamsGet url "requestPayer" = None ->
          srcRequestPayer src = false)).
Proof.
  unfold newS3Source.
  destruct (parseS3Url searchParamsGet envRegion url s3UrlFormat) as [err|p] eqn:Hp;
    [discriminate|].
  intros H. injection H as <-. simpl.
  destruct (parse_fields _ _ _ Hp) as (Hprof & Hreg & Hpay).
  split; [|split].
  - split.
    + intros v -> Hv. simpl. apply String.eqb_neq in Hv. now rewrite Hv.
    + intros Hf. now rewrite Hf.
  - split; [|split].
    + intros v -> Hv. simpl. apply String.eqb_neq in Hv. now rewrite Hv.
    + intros Hf v Hv. rewrite Hreg, Hv. simpl.
      destruct configRegion as [c|]; simpl in *; [|reflexivity].
      apply negb_false_iff in Hf. now rewrite Hf.
    + intros Hf Hv. rewrite Hreg, Hv. simpl.
      destruct configRegion as [c|]; simpl in *; [|reflexivity].
      apply negb_false_iff in Hf. now rewrite Hf.
  - split; [|split].
    + intros b ->. reflexivity.
    + intros -> v Hv. simpl. now rewrite Hpay, Hv.
    + intros -> Hv. simpl. now rewrite Hpay, Hv.
Qed.

End S3UrlProperties.

(** C3, counterexample.  [s3://my.bucket/path/to/file.pmtiles] is built from
    the bucket [my.bucket] and the key [path/to/file.pmtiles]; auto-detection
    reads it as endpoint [https://my.bucket], bucket [path] and key
    [to/file.pmtiles]. *)
Lemma C3_dotted_bucket_is_taken_for_a_host :
  S3.validBucket "my.bucket" = true
  /\ S3.validKey "path/to/file.pmtiles" = true
  /\ Regex.s3Aws "my.bucket" "path/to/file.pmtiles"
     = "s3://my.bucket/path/to/file.pmtiles"
  /\ S3.parseS3Url S3.plainParamsGet None "s3://my.bucket/path/to/file.pmtiles" None
     = inr (S3.mkParsed (Some "https://my.bucket") "path" "to/file.pmtiles"
                        "us-east-1" None false).
Proof. repeat split; reflexivity. Qed.

(** C3, witness: a host, a bucket and a key, put together and read back. *)
Lemma C3_location_round_trip_witness :
  S3.parseS3Url S3.plainParamsGet None "s3://minio.example.com/tiles/world/planet.pmtiles" None
  = inr (S3.mkParsed (Some "https://minio.example.com") "tiles" "world/planet.pmtiles"
                     "us-east-1" None false)
  /\ S3.parseS3Url S3.plainParamsGet None "s3://tiles/world/planet.pmtiles" None
     = inr (S3.mkParsed None "tiles" "world/planet.pmtiles" "us-east-1" None false).
Proof.
  destruct (C3_location_round_trip S3.plainParamsGet None) as (Hcustom & Haws & _ & _ & _).
  split.
  - apply (Hcustom "minio.example.com" "tiles" "world/planet.pmtiles"); reflexivity.
  - apply (Haws "tiles" "world/planet.pmtiles"); [reflexivity | reflexivity |].
    left. reflexivity.
Defined.

(** C4, witness: configuration, query string and environment all name a
    region; the configuration's is used, its [false] for requestPayer too,
    and the profile comes from the query string. *)
Lemma C4_precedence_witness :
  exists src,
    S3.newS3Source S3.plainParamsGet (Some "us-west-2")
      "s3://bucket/file.pmtiles?profile=p&region=eu-west-1&requestPayer=true"
      None (Some false) (Some "ap-south-1") None = inr src
    /\ S3.srcRegion src = "ap-south-1"
    /\ S3.srcRequestPayer src = false
    /\ S3.srcProfile src = Some "p".
Proof.
  eexists. split; [reflexivity|].
  pose proof (C4_precedence S3.plainParamsGet (Some "us-west-2")
                "s3://bucket/file.pmtiles?profile=p&region=eu-west-1&requestPayer=true"
                None (Some false) (Some "ap-south-1") None _ eq_refl)
    as ((_ & Hprofile) & (Hregion & _) & (Hpayer & _)).
  split; [|split].
  - apply (Hregion "ap-south-1"); [reflexivity | discriminate].
  - apply (Hpayer false). reflexivity.
  - rewrite Hprofile; reflexivity.
Defined.

(** The same source, field by field. *)
Example precedence_sample :
  S3.newS3Source S3.plainParamsGet (Some "us-west-2")
    "s3://bucket/file.pmtiles?profile=p&region=eu-west-1&requestPayer=true"
    None (Some false) None None
  = inr {| S3.srcBucket := "bucket"; S3.srcKey := "file.pmtiles"; S3.srcEndpoint := None;
           S3.srcUrl := "s3://bucket/file.pmtiles?profile=p&region=eu-west-1&requestPayer=true";
           S3.srcRequestPayer := false; S3.srcRegion := "eu-west-1";
           S3.srcProfile := Some "p";
           S3.srcClient := S3.mkClientConfig "eu-west-1" false None (Some "p") |}.
Proof. reflexivity. Qed.

(* ===================================================================== *)
(** ** The rounding step of [parseFloat]                                  *)
(* ===================================================================== *)

Section RoundingProperties.
Import Number.
Local Open Scope Z_scope.

(** Moving the exponent up by [k] halves the scaled quotient [k] times. *)
Lemma scaled_shift (n d e k : Z) :
  0 <= k ->
  fst (scaled n d e) * snd (scaled n d (e + k))
  = 2 ^ k * fst (scaled n d (e + k)) * snd (scaled n d e).
Proof.
  intros Hk. unfold scaled. simpl.
  assert (H : 2 ^ Z.max 0 (- e) * 2 ^ Z.max 0 (e + k)
              = 2 ^ k * 2 ^ Z.max 0 (- (e + k)) * 2 ^ Z.max 0 e).
  { rewrite <- !Z.pow_add_r by lia. f_equal. lia. }
  transitivity (n * d * (2 ^ Z.max 0 (- e) * 2 ^ Z.max 0 (e + k))); [ring|].
  rewrite H. ring.
Qed.

Lemma scaled_pos (n d e : Z) :
  0 < n -> 0 < d -> 0 < fst (scaled n d e) /\ 0 < snd (scaled n d e).
Proof.
  intros Hn Hd. unfold scaled. simpl.
  assert (0 < 2 ^ Z.max 0 (- e)) by (apply Z.pow_pos_nonneg; lia).
  assert (0 < 2 ^ Z.max 0 e) by (apply Z.pow_pos_nonneg; lia).
  split; nia.
Qed.

(** At the first exponent tried the quotient has 53 or 54 bits. *)
Lemma scaled_first (n d : Z) :
  0 < n -> 0 < d ->
  let e0 := Z.log2 n - Z.log2 d - 53 in
  2 ^ 52 * snd (scaled n d e0) < fst (scaled n d e0)
  /\ fst (scaled n d e0) < 2 ^ 54 * snd (scaled n d e0).
Proof.
  intros Hn Hd e0.
  destruct (Z.log2_spec n Hn) as [Hn1 Hn2].
  destruct (Z.log2_spec d Hd) as [Hd1 Hd2].
  pose proof (Z.log2_nonneg n) as Ln. pose proof (Z.log2_nonneg d) as Ld.
  unfold scaled. simpl.
  set (p := 2 ^ Z.max 0 (- e0)). set (q := 2 ^ Z.max 0 e0).
  assert (Hp : 0 < p) by (apply Z.pow_pos_nonneg; lia).
  assert (Hq : 0 < q) by (apply Z.pow_pos_nonneg; lia).
  assert (E1 : 2 ^ 52 * (2 ^ Z.succ (Z.log2 d) * q) = 2 ^ Z.log2 n * p).
  { unfold p, q. rewrite <- !Z.pow_add_r by lia. f_equal. lia. }
  assert (E2 : 2 ^ Z.succ (Z.log2 n) * p = 2 ^ 54 * (2 ^ Z.log2 d * q)).
  { unfold p, q. rewrite <- !Z.pow_add_r by lia. f_equal. lia. }
  split.
  - apply Z.lt_le_trans with (2 ^ 52 * (2 ^ Z.succ (Z.log2 d) * q)); [|nia].
    apply Z.mul_lt_mono_pos_l; [lia|]. nia.
  - apply Z.lt_le_trans with (2 ^ Z.succ (Z.log2 n) * p); [nia|].
    rewrite E2. apply Z.mul_le_mono_nonneg_l; [lia|]. nia.
Qed.

(** At the exponent chosen the quotient lies below 2^53, and at or above
    2^52 unless the exponent is the least one. *)
Lemma exponentOf_spec (n d : Z) :
  0 < n -> 0 < d ->
  let e := exponentOf n d in
  let a := fst (scaled n d e) in
  let b := snd (scaled n d e) in
  -1074 <= e /\ 0 < a /\ 0 < b
  /\ a < 2 ^ 53 * b
  /\ (e = -1074 \/ 2 ^ 52 * b <= a).
Proof.
  intros Hn Hd. cbn zeta.
  pose proof (scaled_first n d Hn Hd) as [Hlo Hhi]. cbn zeta in Hlo, Hhi.
  unfold exponentOf.
  set (e0 := Z.log2 n - Z.log2 d - 53) in *.
  rewrite (surjective_pairing (scaled n d e0)).
  set (e1 := if 2 ^ 53 * snd (scaled n d e0) <=? fst (scaled n d e0)
             then e0 + 1 else e0).
  assert (H1 : 2 ^ 52 * snd (scaled n d e1) <= fst (scaled n d e1)
               /\ fst (scaled n d e1) < 2 ^ 53 * snd (scaled n d e1)).
  { unfold e1.
    destruct (2 ^ 53 * snd (scaled n d e0) <=? fst (scaled n d e0)) eqn:E.
    - apply Z.leb_le in E.
      pose proof (scaled_shift n d e0 1 ltac:(lia)) as Hs.
      destruct (scaled_pos n d e0 Hn Hd) as [Ha0 Hb0].
      destruct (scaled_pos n d (e0 + 1) Hn Hd) as [Ha1 Hb1].
      change (2 ^ 1) with 2 in Hs. change (2 ^ 53) with (2 * 2 ^ 52) in E.
      change (2 ^ 54) with (2 * 2 ^ 53) in Hhi.
      split; nia.
    - apply Z.leb_gt in E. lia. }
  clearbody e1.
  set (e := Z.max e1 (-1074)).
  assert (He : e = e1 \/ (e = -1074 /\ e1 < -1074)) by lia.
  destruct (scaled_pos n d e Hn Hd) as [Ha Hb].
  split; [lia|]. split; [exact Ha|]. split; [exact Hb|].
  destruct He as [->|[He Hlt]]; [split; [lia | right; lia]|].
  split; [|now left].
  pose proof (scaled_shift n d e1 (e - e1) ltac:(lia)) as Hs.
  replace (e1 + (e - e1)) with e in Hs by lia.
  destruct (scaled_pos n d e1 Hn Hd) as [Ha1 Hb1].
  assert (Hk : 1 <= 2 ^ (e - e1)) by (apply Z.pow_le_mono_r with (b := 0); lia).
  destruct H1 as [_ H1].
  set (a1 := fst (scaled n d e1)) in *. set (b1 := snd (scaled n d e1)) in *.
  set (a := fst (scaled n d e)) in *. set (b := snd (scaled n d e)) in *.
  set (K := 2 ^ (e - e1)) in *.
  assert (Hx : K * a * b1 < 2 ^ 53 * b * b1).
  { rewrite <- Hs. replace (2 ^ 53 * b * b1) with (2 ^ 53 * b1 * b) by ring.
    now apply Z.mul_lt_mono_pos_r. }
  apply Z.mul_lt_mono_pos_r in Hx; [|exact Hb1].
  apply Z.le_lt_trans with (K * a); [|exact Hx].
  rewrite <- (Z.mul_1_l a) at 1. apply Z.mul_le_mono_nonneg_r; lia.
Qed.

(** [nearestInteger a b] is within one half of [a / b], and even when it
    is exactly one half away. *)
Lemma nearestInteger_spec (a b : Z) :
  0 <= a -> 0 < b ->
  let m := nearestInteger a b in
  a / b <= m <= a / b + 1
  /\ Z.abs (2 * (a - m * b)) <= b
  /\ (Z.abs (2 * (a - m * b)) = b -> Z.even m = true).
Proof.
  intros Ha Hb. cbn zeta. unfold nearestInteger.
  pose proof (Z.div_mod a b ltac:(lia)) as Hdiv.
  pose proof (Z.mod_pos_bound a b Hb) as Hr.
  set (q := a / b) in *. set (r := a mod b) in *.
  assert (Hdown : a - q * b = r) by lia.
  assert (Hup : a - (q + 1) * b = r - b) by lia.
  destruct (2 * r <? b) eqn:E1; [apply Z.ltb_lt in E1 | apply Z.ltb_ge in E1].
  - rewrite Hdown. split; [lia|]. split; lia.
  - destruct (b <? 2 * r) eqn:E2; [apply Z.ltb_lt in E2 | apply Z.ltb_ge in E2].
    + rewrite Hup. split; [lia|]. split; lia.
    + destruct (Z.even q) eqn:E3.
      * rewrite Hdown. split; [lia|]. split; [lia | auto].
      * rewrite Hup. split; [lia|]. split; [lia|]. intros _.
        rewrite Z.even_add, E3. reflexivity.
Qed.

(** The significand [roundRatio] hands to the format has at most 53 bits,
    or is 2^53 itself. *)
Lemma nearestInteger_fits (n d : Z) :
  0 < n -> 0 < d ->
  let e := exponentOf n d in
  0 <= nearestInteger (fst (scaled n d e)) (snd (scaled n d e)) <= 2 ^ 53.
Proof.
  intros Hn Hd. cbn zeta.
  destruct (exponentOf_spec n d Hn Hd) as (_ & Ha & Hb & Hhi & _).
  cbn zeta in Ha, Hb, Hhi.
  set (a := fst (scaled n d (exponentOf n d))) in *.
  set (b := snd (scaled n d (exponentOf n d))) in *.
  destruct (nearestInteger_spec a b ltac:(lia) Hb) as ([H1 H2] & _).
  assert (0 <= a / b) by (apply Z.div_pos; lia).
  assert (a / b < 2 ^ 53) by (apply Z.div_lt_upper_bound; lia).
  lia.
Qed.

End RoundingProperties.

(* ===================================================================== *)
(** ** [parseFloat] and NaN                                               *)
(* ===================================================================== *)

(** The rounding step of [parseFloat] never produces NaN: the significand
    handed to the format is not negative, and scaling a number by a power
    of two gives a number, zero or an infinity. *)

Section NumberProperties.
Import SpecFloat FloatOps FloatAxioms Number.

Lemma shr_1_nonneg (mrs : shr_record) :
  (0 <= shr_m mrs)%Z -> (0 <= shr_m (shr_1 mrs))%Z.
Proof.
  destruct mrs as [m r s]. simpl.
  destruct m as [|[p|p|]|[p|p|]]; simpl; lia.
Qed.

Lemma iter_pos_shr_1_nonneg (p : positive) :
  forall mrs, (0 <= shr_m mrs)%Z -> (0 <= shr_m (iter_pos shr_1 p mrs))%Z.
Proof.
  induction p as [p IH|p IH|]; intros mrs H; simpl.
  - apply IH, IH. now apply shr_1_nonneg.
  - now apply IH, IH.
  - now apply shr_1_nonneg.
Qed.

Lemma shr_fexp_nonneg (m e : Z) (l : location) :
  (0 <= m)%Z -> (0 <= shr_m (fst (shr_fexp prec emax m e l)))%Z.
Proof.
  intros H. unfold shr_fexp, shr.
  assert (H0 : (0 <= shr_m (shr_record_of_loc m l))%Z)
    by (destruct l as [|[]]; exact H).
  destruct (fexp prec emax (Zdigits2 m + e) - e)%Z; simpl; auto.
  now apply iter_pos_shr_1_nonneg.
Qed.

Lemma binary_round_aux_number (sx : bool) (mx ex : Z) (lx : location) :
  (0 <= mx)%Z -> binary_round_aux prec emax sx mx ex lx <> S754_nan.
Proof.
  intros H. unfold binary_round_aux.
  pose proof (shr_fexp_nonneg mx ex lx H) as H1.
  destruct (shr_fexp prec emax mx ex lx) as [mrs1 e1]. simpl in H1.
  assert (H2 : (0 <= round_nearest_even (shr_m mrs1) (loc_of_shr_record mrs1))%Z).
  { unfold round_nearest_even.
    destruct (loc_of_shr_record mrs1) as [|[]]; try lia.
    destruct (Z.even (shr_m mrs1)); lia. }
  pose proof (shr_fexp_nonneg _ e1 loc_Exact H2) as H3.
  destruct (shr_fexp prec emax _ e1 loc_Exact) as [mrs2 e2]. simpl in H3.
  destruct (shr_m mrs2) as [|p|p]; [discriminate | | lia].
  destruct (e2 <=? emax - prec)%Z; discriminate.
Qed.

Lemma binary_round_number (sx : bool) (mx : positive) (ex : Z) :
  binary_round prec emax sx mx ex <> S754_nan.
Proof.
  unfold binary_round.
  destruct (shl_align mx ex _) as [mz ez].
  apply binary_round_aux_number. lia.
Qed.

Lemma SFeqb_same (x : spec_float) : x <> S754_nan -> SFeqb x x = true.
Proof.
  intros H. unfold SFeqb, SFcompare.
  destruct x as [s|s| |s m e]; [reflexivity | now destruct s | congruence |].
  destruct s; rewrite Z.compare_refl, Pos.compare_cont_refl; reflexivity.
Qed.

Lemma isNaN_Prim2SF (x : float) : isNaN x = true <-> Prim2SF x = S754_nan.
Proof.
  unfold isNaN. rewrite eqb_spec. split.
  - intros H. destruct (Prim2SF x) as [s|s| |s m e] eqn:E; [| | reflexivity |];
      rewrite SFeqb_same in H by discriminate; discriminate.
  - intros ->. reflexivity.
Qed.

Lemma ldexp_of_uint63_number (n : PrimInt63.int) (e : Z) :
  isNaN (Z.ldexp (of_uint63 n) e) = false.
Proof.
  apply not_true_iff_false. rewrite isNaN_Prim2SF.
  rewrite FloatLemmas.Z_ldexp_spec, of_uint63_spec.
  unfold binary_normalize.
  destruct (Uint63Axioms.to_Z n) as [|p|p]; [discriminate | |].
  - unfold SFldexp.
    destruct (binary_round prec emax false p 0) as [s|s| |s m e'] eqn:E;
      try discriminate.
    + now apply binary_round_number in E.
    + apply binary_round_number.
  - unfold SFldexp.
    destruct (binary_round prec emax true p 0) as [s|s| |s m e'] eqn:E;
      try discriminate.
    + now apply binary_round_number in E.
    + apply binary_round_number.
Qed.

Lemma signed_number (negative : bool) (x : float) :
  isNaN (signed negative x) = isNaN x.
Proof.
  destruct negative; [|reflexivity]. simpl.
  destruct (isNaN x) eqn:E.
  - apply isNaN_Prim2SF. rewrite opp_spec.
    apply isNaN_Prim2SF in E. now rewrite E.
  - apply not_true_iff_false. rewrite isNaN_Prim2SF, opp_spec.
    apply not_true_iff_false in E. rewrite isNaN_Prim2SF in E.
    destruct (Prim2SF x); [discriminate | discriminate | congruence | discriminate].
Qed.

Lemma numberValue_number (digits exponent : Z) :
  isNaN (numberValue digits exponent) = false.
Proof.
  unfold numberValue.
  destruct (digits =? 0)%Z; [reflexivity|].
  destruct (0 <=? exponent)%Z; unfold roundRatio; cbv zeta;
    destruct (scaled _ _ _); apply ldexp_of_uint63_number.
Qed.

(** [parseFloat] gives NaN exactly for a string that does not start, after
    white space, with a decimal literal. *)
Lemma parseFloat_nan (s : string) :
  isNaN (parseFloat s) = true <-> literal s = None.
Proof.
  unfold parseFloat.
  destruct (literal s) as [[negative|negative digits exponent]|].
  - rewrite signed_number. split; discriminate.
  - rewrite signed_number, numberValue_number. split; discriminate.
  - split; reflexivity.
Qed.

End NumberProperties.

(** Literals that need rounding, next to the nearest binary64 numbers as
    Rocq's own reader of float literals gives them. *)
Example parseFloat_samples :
  Number.parseFloat "9.999999999999999" = 9.999999999999998%float
  /\ Number.parseFloat "999.9999999999999" = 999.9999999999999%float
  /\ Number.parseFloat "13.404953999999999" = 13.404953999999999%float
  /\ Number.parseFloat "3.14159265358979323846" = 3.141592653589793%float
  /\ Number.parseFloat "0e999" = 0%float
  /\ Number.parseFloat "1e23" = 1e23%float
  /\ Number.parseFloat "9007199254740993" = 9007199254740992%float
  /\ Number.parseFloat "5e-324" = 5e-324%float
  /\ Number.parseFloat "2e-324" = 0%float
  /\ Number.parseFloat "1.7976931348623157e308" = 1.7976931348623157e308%float
  /\ Number.parseFloat "1.7976931348623159e308" = infinity
  /\ Number.parseFloat "  12.5px" = 12.5%float
  /\ Number.parseFloat "-.5e1" = (-5)%float
  /\ Number.parseFloat "1e" = 1%float
  /\ Number.parseFloat "-Infinity" = neg_infinity.
Proof. repeat split; vm_compute; reflexivity. Qed.

(** A scale just below the upper limit is kept as the number it reads as. *)
Example scale_just_below_ten :
  Markers.scale
    (fst (Markers.applyOption ["scale"; "9.999999999999999"]
            (Markers.mkMarker (8.5, 47.25)%float "pin.png" None None None)))
  = Some 9.999999999999998%float.
Proof. vm_compute. reflexivity. Qed.

(* ===================================================================== *)
(** ** Marker options                                                     *)
(* ===================================================================== *)

Section MarkerProperties.
Import Number Markers.

Lemma applyOption_scale (parts : list string) (m : Marker) (x : float) :
  scale (fst (applyOption parts m)) = Some x ->
  scale m = Some x \/ scaleOk x = true.
Proof.
  unfold applyOption.
  destruct parts as [|name [|value rest]]; simpl; auto.
  destruct (String.eqb name "scale").
  - destruct (scaleOk (parseFloat value)) eqn:Hok; simpl; auto.
    intros H. injection H as <-. auto.
  - destruct (String.eqb name "offset"); simpl; auto.
    destruct (offsetOk (parseFloat (hd "" (split "," value))));
      destruct (split "," value) as [|o1 [|o2 os]]; simpl; auto;
      destruct (offsetOk (parseFloat o2)); simpl; auto.
Qed.

Lemma applyOption_offsetX (parts : list string) (m : Marker) (x : float) :
  offsetX (fst (applyOption parts m)) = Some x ->
  offsetX m = Some x \/ offsetOk x = true.
Proof.
  unfold applyOption.
  destruct parts as [|name [|value rest]]; simpl; auto.
  destruct (String.eqb name "scale").
  - destruct (scaleOk (parseFloat value)); simpl; auto.
  - destruct (String.eqb name "offset"); simpl; auto.
    destruct (offsetOk (parseFloat (hd "" (split "," value)))) eqn:Hx;
      destruct (split "," value) as [|o1 [|o2 os]]; simpl in *; auto;
      try destruct (offsetOk (parseFloat o2)); simpl; auto;
      intros H; injection H as <-; auto.
Qed.

Lemma applyOption_offsetY (parts : list string) (m : Marker) (y : float) :
  offsetY (fst (applyOption parts m)) = Some y ->
  offsetY m = Some y \/ offsetOk y = true.
Proof.
  unfold applyOption.
  destruct parts as [|name [|value rest]]; simpl; auto.
  destruct (String.eqb name "scale").
  - destruct (scaleOk (parseFloat value)); simpl; auto.
  - destruct (String.eqb name "offset"); simpl; auto.
    destruct (offsetOk (parseFloat (hd "" (split "," value))));
      destruct (split "," value) as [|o1 [|o2 os]]; simpl; auto;
      destruct (offsetOk (parseFloat o2)) eqn:Hy; simpl; auto;
      intros H; injection H as <-; auto.
Qed.

Lemma parseMarkerOptions_fields (opts : list string) :
  forall (m : Marker),
    (forall x, scale (fst (parseMarkerOptions opts m)) = Some x ->
               scale m = Some x \/ scaleOk x = true)
    /\ (forall x, offsetX (fst (parseMarkerOptions opts m)) = Some x ->
                  offsetX m = Some x \/ offsetOk x = true)
    /\ (forall y, offsetY (fst (parseMarkerOptions opts m)) = Some y ->
                  offsetY m = Some y \/ offsetOk y = true).
Proof.
  induction opts as [|o opts IH]; intros m; simpl; [auto|].
  destruct (applyOption (split ":" o) m) as [m1 w1] eqn:E1.
  destruct (parseMarkerOptions opts m1) as [m2 w2] eqn:E2.
  specialize (IH m1). rewrite E2 in IH. simpl in *.
  destruct IH as (IHs & IHx & IHy).
  assert (Em1 : m1 = fst (applyOption (split ":" o) m)) by now rewrite E1.
  split; [|split]; intros v Hv.
  - destruct (IHs v Hv) as [H|H]; [|auto].
    rewrite Em1 in H. now apply applyOption_scale in H.
  - destruct (IHx v Hv) as [H|H]; [|auto].
    rewrite Em1 in H. now apply applyOption_offsetX in H.
  - destruct (IHy v Hv) as [H|H]; [|auto].
    rewrite Em1 in H. now apply applyOption_offsetY in H.
Qed.

(** C6.  The options [scale:2|offset:10,-5] set scale 2, offsetX 10 and
    offsetY -5.  [scale:20] leaves the scale as it was.  An option whose
    number is invalid (for a scale: NaN or not strictly between 0 and 10;
    for an offset: NaN or of absolute value 1000 or more) leaves its field
    as it was, so whatever a field holds after parsing was either there
    before or is a valid number: no field is set to zero or to a default.
    A value that does not start with a number is invalid for both. *)
Theorem C6_marker_options (m : Marker) :
  fst (parseMarkerOptions (split "|"%char "scale:2|offset:10,-5") m)
  = mkMarker (location m) (icon m) (Some 2%float) (Some 10%float) (Some (-5)%float)
  /\ fst (parseMarkerOptions [ "scale:20" ] m) = m
  /\ (forall value rest,
        scaleOk (parseFloat value) = false ->
        fst (applyOption ("scale" :: value :: rest) m) = m)
  /\ (forall value rest,
        offsetOk (parseFloat (hd "" (split ","%char value))) = false ->
        offsetX (fst (applyOption ("offset" :: value :: rest) m)) = offsetX m)
  /\ (forall value rest,
        (forall second, nth_error (split ","%char value) 1 = Some second ->
                        offsetOk (parseFloat second) = false) ->
        offsetY (fst (applyOption ("offset" :: value :: rest) m)) = offsetY m)
  /\ (forall opts,
        (forall x, scale (fst (parseMarkerOptions opts m)) = Some x ->
                   scale m = Some x \/ scaleOk x = true)
        /\ (forall x, offsetX (fst (parseMarkerOptions opts m)) = Some x ->
                      offsetX m = Some x \/ offsetOk x = true)
        /\ (forall y, offsetY (fst (parseMarkerOptions opts m)) = Some y ->
                      offsetY m = Some y \/ offsetOk y = true))
  /\ (scaleOk 0%float = false /\ scaleOk 10%float = false /\ scaleOk nan = false
      /\ offsetOk 1000%float = false /\ offsetOk (-1000)%float = false
      /\ offsetOk nan = false
      /\ offsetOk (parseFloat "abc") = false /\ scaleOk (parseFloat "abc") = false)
  /\ (forall value,
        literal value = None ->
        scaleOk (parseFloat value) = false /\ offsetOk (parseFloat value) = false).
Proof.
  split; [destruct m; reflexivity|].
  split; [destruct m; reflexivity|].
  split.
  { intros value rest H. simpl. now rewrite H. }
  split.
  { intros value rest H. simpl. rewrite H.
    destruct (split "," value) as [|o1 [|o2 os]]; simpl; auto.
    destruct (offsetOk (parseFloat o2)); reflexivity. }
  split.
  { intros value rest H. simpl.
    destruct (split "," value) as [|o1 [|o2 os]]; simpl in *.
    - destruct (offsetOk (parseFloat "")); reflexivity.
    - destruct (offsetOk (parseFloat o1)); reflexivity.
    - rewrite (H o2 eq_refl). destruct (offsetOk (parseFloat o1)); reflexivity. }
  split; [intros opts; apply parseMarkerOptions_fields|].
  split; [repeat split; reflexivity|].
  intros value Hv. apply parseFloat_nan in Hv.
  unfold scaleOk, offsetOk. now rewrite Hv.
Qed.

End MarkerProperties.

(* ===================================================================== *)
(** ** Tile requests of the renderer                                      *)
(* ===================================================================== *)

Section ResolverProperties.
Import Adapter Utils Resolver.
Variable colorArray : string -> JsError + list Z.
Variable encodePixel : list Z -> nat -> string -> JsError + list Z.
Variable strIsOne : string -> bool.
Variable gunzip : list Z -> Settled (list Z).
Variable dataDecoratorFunc :
  option (string -> string -> list Z -> Z -> Z -> Z -> JsError + list Z).


End ResolverProperties.



(* ===================================================================== *)
(** ** The render call, its timer and the composition                     *)
(* ===================================================================== *)

Section RespondProperties.
Import Respond.

(** Once a response is out and the timer is no longer pending, no event
    changes the state. *)
Lemma settled_step (s : State) (ev : Event) :
  headersSent s = true -> (forall d, timer s <> Armed d) -> step s ev = s.
Proof.
  intros Hs Ht. destruct s as [t hs ops rs]. simpl in *. subst hs.
  destruct ev as [|err|failed]; simpl.
  - destruct t; [exfalso; eapply Ht; reflexivity | reflexivity | reflexivity].
  - unfold clearTimeout. simpl.
    destruct t; [exfalso; eapply Ht; reflexivity | reflexivity | reflexivity].
  - destruct failed; reflexivity.
Qed.

Lemma settled_run (evs : list Event) :
  forall s, headersSent s = true -> (forall d, timer s <> Armed d) -> run s evs = s.
Proof.
  induction evs as [|ev evs IH]; intros s Hs Ht; simpl; [reflexivity|].
  rewrite (settled_step s ev Hs Ht). now apply IH.
Qed.

Lemma sendUnlessSent_responded (code : Z) (text : string) (s : State) :
  responded s -> responded (sendUnlessSent code text s).
Proof.
  unfold responded, sendUnlessSent. intros [[Hh Hr]|[Hh Hr]]; rewrite Hh; simpl.
  - right. rewrite Hr. auto.
  - right. auto.
Qed.

Lemma step_responded (s : State) (ev : Event) : responded s -> responded (step s ev).
Proof.
  intros H. destruct ev as [|err|failed]; simpl.
  - destruct (timer s); auto. now apply sendUnlessSent_responded.
  - assert (Hc : responded (clearTimeout s))
      by (unfold clearTimeout; destruct (timer s); auto).
    destruct (headersSent (clearTimeout s)); auto.
    destruct err; [now apply sendUnlessSent_responded | exact Hc].
  - destruct failed; now apply sendUnlessSent_responded.
Qed.

Lemma run_responded (evs : list Event) :
  forall s, responded s -> responded (run s evs).
Proof.
  induction evs as [|ev evs IH]; intros s H; simpl; [exact H|].
  apply IH. now apply step_responded.
Qed.

(** C7.  The render call is guarded by a timer of 30000 ms.  When the timer
    fires before the render callback, the renderer is removed from the pool
    and the response is 503 "Renderer timeout"; whatever arrives afterwards
    (the render callback, with or without an error, or anything else)
    changes nothing, so the renderer is never released and no second
    response is sent.  In every order of events at most one response is
    sent. *)
Theorem C7_render_timeout (evs : list Event) :
  timer armed = Armed 30000
  /\ run armed (TimerFires :: evs)
     = mkState Fired true [RemoveBadObject] [mkResponse 503 "Renderer timeout"]
  /\ ~ In Release (poolOps (run armed (TimerFires :: evs)))
  /\ List.length (responses (run armed evs)) <= 1
  /\ List.length (responses (run (renderThrew armed) evs)) <= 1.
Proof.
  assert (Hfired : run armed (TimerFires :: evs)
                   = mkState Fired true [RemoveBadObject]
                             [mkResponse 503 "Renderer timeout"]).
  { simpl. apply settled_run; [reflexivity | discriminate]. }
  split; [reflexivity|]. split; [exact Hfired|]. split.
  - rewrite Hfired. simpl. intros [H|[]]. discriminate.
  - assert (Hany : forall s, responded s -> List.length (responses (run s evs)) <= 1).
    { intros s Hs. destruct (run_responded evs s Hs) as [[_ Hr]|[_ Hr]]; rewrite Hr; simpl; lia. }
    split; apply Hany.
    + left. split; reflexivity.
    + right. split; reflexivity.
Qed.

(** C9.  The image handed to the encoder is painted in this order: the
    render itself, then the overlay when there is one, then the watermark
    when one is configured, then the attribution when the mode is [static]
    and a text is configured; each is a layer of its own in the list given
    to the composite step. *)
Theorem C9_composition_order (raw : list Z) (overlay : option (list Z))
    (watermark : option string) (mode : string) (staticAttributionText : option string)
    (width height scale : Z) :
  let layers := buildComposites overlay watermark mode staticAttributionText
                                width height scale in
  layers
  = ((match overlay with Some buf => [OverlayLayer buf] | None => [] end)
     ++ (if S3.truthyStr watermark
         then [WatermarkLayer width height scale (S3.nullish watermark "")] else [])
     ++ (if String.eqb mode "static" && S3.truthyStr staticAttributionText
         then [AttributionLayer width height scale (S3.nullish staticAttributionText "")]
         else []))%list
  /\ paintOrder (composeImage raw layers)
     = ([PaintBase]
        ++ (match overlay with Some _ => [PaintOverlay] | None => [] end)
        ++ (if S3.truthyStr watermark then [PaintWatermark] else [])
        ++ (if String.eqb mode "static" && S3.truthyStr staticAttributionText
            then [PaintAttribution] else []))%list.
Proof.
  cbn zeta. unfold buildComposites.
  destruct overlay, (S3.truthyStr watermark),
    (String.eqb mode "static" && S3.truthyStr staticAttributionText);
    split; reflexivity.
Qed.

End RespondProperties.

(* ===================================================================== *)
(** ** Further properties of the archive queries                          *)
(* ===================================================================== *)

Section ArchiveQueryProperties.
Import Adapter Waiting.
Variable parseInt : JsVal -> float.

(** A thrown [getPMtilesInfo] reports the failure of the attempt it stopped
    at, with the file appended. *)
Lemma infoLoop_thrown (pm : PMTiles) (file : string) (n : nat) (msg : string) :
  forall (f a : nat) (last : option JsError),
    a + f = n -> 0 < f ->
    snd (infoLoop parseInt pm file n last f a) = Thrown msg ->
    exists k e,
      a <= k /\ k < n
      /\ a + attempts (fst (infoLoop parseInt pm file n last f a)) = k + 1
      /\ infoAttempt parseInt pm k = Rejected e
      /\ msg = template (message e) ++ " for file: " ++ file
      /\ (messageHas429 e = true -> k + 1 = n).
Proof.
  induction f as [|f IH]; intros a last Hn Hf; [lia|].
  simpl. destruct (infoAttempt parseInt pm a) as [md|e] eqn:Ea; [discriminate|].
  destruct (messageHas429 e && (Z.of_nat a <? Z.of_nat n - 1)%Z) eqn:Hretry.
  - apply andb_true_iff in Hretry as [H429 Hlt]. apply Z.ltb_lt in Hlt.
    specialize (IH (S a) (Some e) ltac:(lia) ltac:(lia)).
    destruct (infoLoop parseInt pm file n (Some e) f (S a)) as [tr c].
    simpl in *. intros Hc.
    destruct (IH Hc) as (k & e' & Hk1 & Hk2 & Hat & Hrej & Hmsg & Hlast).
    exists k, e'. repeat split; try assumption; lia.
  - destruct (notOptional429 e || (Z.of_nat a =? Z.of_nat n - 1)%Z) eqn:Hthrow.
    + simpl. intros Hc. injection Hc as <-.
      exists a, e. repeat split; try assumption; try lia.
      intros H429. rewrite H429 in Hretry. simpl in Hretry.
      apply Z.ltb_ge in Hretry. lia.
    + exfalso. apply orb_false_iff in Hthrow as [Hopt Hne].
      apply has429_not_optional in Hopt. rewrite Hopt in Hretry.
      simpl in Hretry. apply Z.ltb_ge in Hretry. apply Z.eqb_neq in Hne. lia.
Qed.

(** The metadata returned is built from the answers of the attempt the call
    stopped at. *)
Lemma infoLoop_returned_at (pm : PMTiles) (file : string) (n : nat)
    (md : gmap string JsProp) :
  forall (f a : nat) (last : option JsError),
    a + f = n ->
    snd (infoLoop parseInt pm file n last f a) = Returned md ->
    exists k h m0,
      a <= k /\ k < n
      /\ a + attempts (fst (infoLoop parseInt pm file n last f a)) = k + 1
      /\ getHeader pm k = Resolved h /\ getMetadata pm k = Resolved m0
      /\ md = fillMetadata parseInt h m0.
Proof.
  induction f as [|f IH]; intros a last Hn H; simpl in H; [discriminate|].
  simpl. destruct (infoAttempt parseInt pm a) as [m|e] eqn:Ea.
  - simpl in H. injection H as <-. unfold infoAttempt in Ea.
    destruct (getHeader pm a) as [h|] eqn:Eh; [|discriminate].
    destruct (getMetadata pm a) as [m0|] eqn:Em; [|discriminate].
    injection Ea as <-. exists a, h, m0. simpl. repeat split; auto; lia.
  - destruct (messageHas429 e && (Z.of_nat a <? Z.of_nat n - 1)%Z).
    + specialize (IH (S a) (Some e) ltac:(lia)).
      destruct (infoLoop parseInt pm file n (Some e) f (S a)) as [tr c].
      simpl in *. destruct (IH H) as (k & h & m0 & ? & ? & ? & ? & ? & ?).
      exists k, h, m0. repeat split; auto; lia.
    + destruct (notOptional429 e || (Z.of_nat a =? Z.of_nat n - 1)%Z).
      * discriminate.
      * specialize (IH (S a) (Some e) ltac:(lia)).
        destruct (infoLoop parseInt pm file n (Some e) f (S a)) as [tr c].
        simpl in *. destruct (IH H) as (k & h & m0 & ? & ? & ? & ? & ? & ?).
        exists k, h, m0. repeat split; auto; lia.
Qed.

Lemma fillMetadata_other (h : Header) (m0 : gmap string JsProp) (name : string) :
  name <> "format" -> name <> "minzoom" -> name <> "maxzoom" ->
  name <> "bounds" -> name <> "center" ->
  fillMetadata parseInt h m0 !! name = m0 !! name.
Proof.
  intros. unfold fillMetadata.
  destruct (hasBounds h), (truthy (centerZoom h)); now simplify_map_eq.
Qed.

Lemma fillMetadata_zooms (h : Header) (m0 : gmap string JsProp) :
  fillMetadata parseInt h m0 !! "format"
  = Some (PVal (typeName (getPmtilesTileType (tileType h))))
  /\ fillMetadata parseInt h m0 !! "minzoom" = Some (PVal (minZoom h))
  /\ fillMetadata parseInt h m0 !! "maxzoom" = Some (PVal (maxZoom h)).
Proof.
  unfold fillMetadata.
  destruct (hasBounds h), (truthy (centerZoom h)); now simplify_map_eq.
Qed.

(** A found tile is the entry and the header of one attempt. *)
Lemma tileLoop_found (pm : PMTiles) (z x y : Z) (n : nat) (t : TileInfo) :
  forall (f a : nat),
    a + f = n ->
    snd (tileLoop pm z x y n f a) = Returned (Some t) ->
    exists k zt h,
      a <= k /\ k < n
      /\ a + attempts (fst (tileLoop pm z x y n f a)) = k + 1
      /\ getZxy pm k z x y = Resolved (Some zt)
      /\ zxyData zt = Some (tileData t)
      /\ getHeader pm k = Resolved h
      /\ tileHeader t = typeHeader (getPmtilesTileType (tileType h)).
Proof.
  induction f as [|f IH]; intros a Hn H; simpl in H; [discriminate|].
  simpl. destruct (tileAttempt pm z x y a) as [r|e] eqn:Ea.
  - simpl in H. injection H as ->. unfold tileAttempt in Ea.
    destruct (getZxy pm a z x y) as [[zt|]|] eqn:Ez; try discriminate.
    destruct (zxyData zt) as [bytes|] eqn:Ed; [|discriminate].
    destruct (getHeader pm a) as [h|] eqn:Eh; [|discriminate].
    injection Ea as <-. exists a, zt, h. simpl. repeat split; auto; lia.
  - specialize (IH (S a) ltac:(lia)).
    destruct (includes (errorMessage e) "429" && (Z.of_nat a <? Z.of_nat n - 1)%Z).
    + destruct (tileLoop pm z x y n f (S a)) as [tr c].
      simpl in *. destruct (IH H) as (k & zt & h & ? & ? & ? & ? & ? & ? & ?).
      exists k, zt, h. repeat split; auto; lia.
    + destruct (includes (errorMessage e) "Bad response code:"); [discriminate|].
      destruct (tileLoop pm z x y n f (S a)) as [tr c].
      simpl in *. destruct (IH H) as (k & zt & h & ? & ? & ? & ? & ? & ? & ?).
      exists k, zt, h. repeat split; auto; lia.
Qed.

Lemma tileType_header (v : JsVal) :
  (forall name, name <> "Content-Type" ->
                typeHeader (getPmtilesTileType v) !! name = None)
  /\ (forall ct, typeHeader (getPmtilesTileType v) !! "Content-Type" = Some ct ->
        exists name, typeName (getPmtilesTileType v) = JStr name
                     /\ (ct = "image/" ++ name
                         \/ (name = "pbf" /\ ct = "application/x-protobuf")))
  /\ (typeHeader (getPmtilesTileType v) !! "Content-Type" = None ->
      typeName (getPmtilesTileType v) = JStr "Unknown"
      \/ typeName (getPmtilesTileType v) = JUndefined).
Proof.
  unfold getPmtilesTileType.
  repeat match goal with
         | |- context [if numIs v ?k then _ else _] => destruct (numIs v k)
         end; simpl; (split; [|split]);
    try (intros name Hname; now simplify_map_eq);
    try (intros ct Hct; simplify_map_eq; eexists; split; [reflexivity|]; auto; fail);
    try (intros Hct; simplify_map_eq; auto; fail).
Qed.

Lemma sum_backoff (m : nat) : forall a : nat,
  fold_right Z.add 0%Z (List.map backoffMs (seq a m))
  = ((2 ^ Z.of_nat (a + m) - 2 ^ Z.of_nat a) * 1000)%Z.
Proof.
  induction m as [|m IH]; intros a; simpl.
  - rewrite Nat.add_0_r. lia.
  - rewrite IH. unfold backoffMs.
    replace (a + S m) with (S a + m) by lia.
    assert (E : (2 ^ Z.of_nat (S a) = 2 * 2 ^ Z.of_nat a)%Z)
      by (rewrite Nat2Z.inj_succ, Z.pow_succ_r; lia).
    rewrite E. lia.
Qed.

Lemma backoff_nonneg (k : nat) : (0 <= backoffMs k)%Z.
Proof. unfold backoffMs. pose proof (Z.pow_nonneg 2 (Z.of_nat k)). lia. Qed.

Lemma sum_filter_le (p : nat -> bool) (l : list nat) :
  (0 <= fold_right Z.add 0 (List.map backoffMs (List.filter p l))
   <= fold_right Z.add 0 (List.map backoffMs l))%Z.
Proof.
  induction l as [|k l IH]; simpl; [lia|].
  pose proof (backoff_nonneg k).
  destruct (p k); simpl; lia.
Qed.

Lemma sum_backoff_bound (m n : nat) :
  m <= n ->
  (fold_right Z.add 0 (List.map backoffMs (seq 0 (m - 1)))
   <= (2 ^ Z.of_nat (n - 1) - 1) * 1000)%Z.
Proof.
  intros Hle. rewrite sum_backoff. simpl.
  assert (2 ^ Z.of_nat (m - 1) <= 2 ^ Z.of_nat (n - 1))%Z
    by (apply Z.pow_le_mono_r; lia).
  lia.
Qed.

(** X1.  When [getPMtilesInfo] throws after at least one attempt was
    allowed, the message is the message of the failure of the last attempt
    made, followed by " for file: " and the file name; a rate-limited
    failure is reported only from the last attempt allowed.  The message
    thrown therefore always ends with the file name. *)
Theorem X1_info_failure_names_the_file (pm : PMTiles) (file : string) (n : nat)
    (msg : string) :
  0 < n ->
  snd (getPMtilesInfo parseInt pm file n) = Thrown msg ->
  exists k e,
    k < n
    /\ attempts (fst (getPMtilesInfo parseInt pm file n)) = k + 1
    /\ infoAttempt parseInt pm k = Rejected e
    /\ msg = template (message e) ++ " for file: " ++ file
    /\ (messageHas429 e = true -> k + 1 = n).
Proof.
  intros Hn H. unfold getPMtilesInfo in *.
  destruct (infoLoop_thrown pm file n msg n 0 None eq_refl Hn H)
    as (k & e & _ & Hk & Hat & Hrej & Hmsg & Hlast).
  exists k, e. repeat split; auto.
Qed.

(** X2.  The metadata [getPMtilesInfo] returns is the archive's own
    metadata of the last attempt made, with the keys [format], [minzoom],
    [maxzoom], [bounds] and [center] overwritten from the header of that
    same attempt: every other key is returned as the archive has it. *)
Theorem X2_info_keeps_other_metadata (pm : PMTiles) (file : string) (n : nat)
    (md : gmap string JsProp) :
  snd (getPMtilesInfo parseInt pm file n) = Returned md ->
  exists k h m0,
    attempts (fst (getPMtilesInfo parseInt pm file n)) = k + 1
    /\ getHeader pm k = Resolved h /\ getMetadata pm k = Resolved m0
    /\ (forall name, name <> "format" -> name <> "minzoom" -> name <> "maxzoom" ->
                     name <> "bounds" -> name <> "center" ->
                     md !! name = m0 !! name)
    /\ md !! "format" = Some (PVal (typeName (getPmtilesTileType (tileType h))))
    /\ md !! "minzoom" = Some (PVal (minZoom h))
    /\ md !! "maxzoom" = Some (PVal (maxZoom h)).
Proof.
  intros H. unfold getPMtilesInfo in *.
  destruct (infoLoop_returned_at pm file n md n 0 None eq_refl H)
    as (k & h & m0 & _ & _ & Hat & Hh & Hm & ->).
  exists k, h, m0.
  destruct (fillMetadata_zooms h m0) as (Hf & Hmin & Hmax).
  repeat split; auto. intros name. apply fillMetadata_other.
Qed.

(** X3.  When the header carries four numeric bounds that are not all zero,
    the returned bounds are those four numbers as they are: they are neither
    reordered nor clamped to the Mercator extent. *)
Theorem X3_header_bounds_pass_through (pm : PMTiles) (file : string) (n : nat)
    (md : gmap string JsProp) :
  snd (getPMtilesInfo parseInt pm file n) = Returned md ->
  (forall k h, getHeader pm k = Resolved h ->
               boundsMissing h = false /\ boundsAllZero h = false) ->
  exists k h,
    attempts (fst (getPMtilesInfo parseInt pm file n)) = k + 1
    /\ getHeader pm k = Resolved h
    /\ md !! "bounds" = Some (PArr [minLon h; minLat h; maxLon h; maxLat h]).
Proof.
  intros H Hb. unfold getPMtilesInfo in *.
  destruct (infoLoop_returned_at pm file n md n 0 None eq_refl H)
    as (k & h & m0 & _ & _ & Hat & Hh & Hm & ->).
  exists k, h. repeat split; auto.
  rewrite fillMetadata_bounds.
  destruct (Hb k h Hh) as [Hmiss Hzero].
  unfold hasBounds. unfold boundsMissing in Hmiss. unfold boundsAllZero in Hzero.
  apply negb_false_iff in Hmiss. now rewrite Hmiss, Hzero.
Qed.

(** X4.  The time either call spends sleeping is bounded by the number of
    attempts allowed: at most [(2^(n-1) - 1)] seconds for [n] attempts, so at
    most three seconds with the default of three; [getPMtilesInfo] sleeps
    exactly [(2^(a-1) - 1)] seconds when it makes [a] attempts. *)
Theorem X4_backoff_is_bounded (pm : PMTiles) (file : string) (z x y : Z) (n : nat) :
  let ti := fst (getPMtilesInfo parseInt pm file n) in
  let tt := fst (getPMtilesTile pm z x y n) in
  (totalSleepMs ti = (2 ^ Z.of_nat (attempts ti - 1) - 1) * 1000
   /\ 0 <= totalSleepMs ti <= (2 ^ Z.of_nat (n - 1) - 1) * 1000
   /\ 0 <= totalSleepMs tt <= (2 ^ Z.of_nat (n - 1) - 1) * 1000
   /\ totalSleepMs (fst (getPMtilesInfo parseInt pm file defaultMaxRetries)) <= 3000
   /\ totalSleepMs (fst (getPMtilesTile pm z x y defaultMaxRetries)) <= 3000)%Z.
Proof.
  cbn zeta. unfold getPMtilesInfo, getPMtilesTile, totalSleepMs.
  assert (Hinfo : forall m,
            (fold_right Z.add 0 (sleeps (fst (infoLoop parseInt pm file m None m 0)))
             = (2 ^ Z.of_nat (attempts (fst (infoLoop parseInt pm file m None m 0)) - 1) - 1)
               * 1000
             /\ 0 <= fold_right Z.add 0 (sleeps (fst (infoLoop parseInt pm file m None m 0)))
                <= (2 ^ Z.of_nat (m - 1) - 1) * 1000)%Z).
  { intros m.
    pose proof (infoLoop_spec parseInt pm file m m 0 None eq_refl) as Hi.
    cbn zeta in Hi. destruct Hi as (Hle & _ & Hsl & _).
    rewrite Hsl. split.
    - rewrite sum_backoff. simpl. lia.
    - split; [|now apply sum_backoff_bound].
      rewrite sum_backoff. simpl.
      pose proof (Z.pow_pos_nonneg 2 (Z.of_nat
        (attempts (fst (infoLoop parseInt pm file m None m 0)) - 1))). lia. }
  assert (Htile : forall m,
            (0 <= fold_right Z.add 0 (sleeps (fst (tileLoop pm z x y m m 0)))
             <= (2 ^ Z.of_nat (m - 1) - 1) * 1000)%Z).
  { intros m.
    pose proof (tileLoop_spec pm z x y m m 0 eq_refl) as Ht.
    cbn zeta in Ht. destruct Ht as (Hle & _ & Hsl & _).
    rewrite Hsl.
    pose proof (sum_filter_le (tileRateLimited pm z x y)
                  (seq 0 (attempts (fst (tileLoop pm z x y m m 0)) - 1))) as Hf.
    pose proof (sum_backoff_bound _ m Hle). lia. }
  destruct (Hinfo n) as [He Hb]. split5.
  - exact He.
  - exact Hb.
  - apply Htile.
  - destruct (Hinfo defaultMaxRetries) as [_ [_ H3]]. exact H3.
  - destruct (Htile defaultMaxRetries) as [_ H3]. exact H3.
Qed.

(** X5.  A tile [getPMtilesTile] returns is an entry of the archive as one
    attempt found it: its bytes are the entry's bytes, and its header has at
    most the key [Content-Type], which agrees with the format name derived
    from the header's tile type ([image/<name>], or [application/x-protobuf]
    for [pbf]) and is absent exactly for the unknown tile types. *)
Theorem X5_tile_is_the_archive_entry (pm : PMTiles) (z x y : Z) (n : nat)
    (t : TileInfo) :
  snd (getPMtilesTile pm z x y n) = Returned (Some t) ->
  exists k zt h,
    attempts (fst (getPMtilesTile pm z x y n)) = k + 1
    /\ getZxy pm k z x y = Resolved (Some zt)
    /\ zxyData zt = Some (tileData t)
    /\ getHeader pm k = Resolved h
    /\ (forall name, name <> "Content-Type" -> tileHeader t !! name = None)
    /\ (forall ct, tileHeader t !! "Content-Type" = Some ct ->
          exists name, typeName (getPmtilesTileType (tileType h)) = JStr name
                       /\ (ct = "image/" ++ name
                           \/ (name = "pbf" /\ ct = "application/x-protobuf")))
    /\ (tileHeader t !! "Content-Type" = None ->
        typeName (getPmtilesTileType (tileType h)) = JStr "Unknown"
        \/ typeName (getPmtilesTileType (tileType h)) = JUndefined).
Proof.
  intros H. unfold getPMtilesTile in *.
  destruct (tileLoop_found pm z x y n t n 0 eq_refl H)
    as (k & zt & h & _ & _ & Hat & Hz & Hd & Hh & Hhd).
  exists k, zt, h. rewrite Hhd.
  destruct (tileType_header (tileType h)) as (H1 & H2 & H3).
  repeat split; auto.
Qed.

End ArchiveQueryProperties.

(** X1, witness: every query fails with "boom"; the first attempt's failure
    is thrown with the file name. *)
Lemma X1_info_failure_witness :
  exists k e,
    k < 3
    /\ Adapter.attempts
         (fst (Adapter.getPMtilesInfo Adapter.parseIntOnIntegers
                 (Adapter.failingArchive "boom") "world.pmtiles" 3)) = k + 1
    /\ Adapter.infoAttempt Adapter.parseIntOnIntegers (Adapter.failingArchive "boom") k
       = Rejected e
    /\ "boom for file: world.pmtiles"
       = template (message e) ++ " for file: " ++ "world.pmtiles"
    /\ (Adapter.messageHas429 e = true -> k + 1 = 3).
Proof.
  apply (X1_info_failure_names_the_file Adapter.parseIntOnIntegers
           (Adapter.failingArchive "boom") "world.pmtiles" 3
           "boom for file: world.pmtiles").
  - lia.
  - reflexivity.
Defined.

(* ===================================================================== *)
(** ** Further properties of [parseS3Url] and of opening an archive       *)
(* ===================================================================== *)

Section LocationProperties.
Import Regex RegexFacts S3 Opening.
Variable searchParamsGet : string -> string -> option string.
Variable envRegion : option string.
Variable openSync : string -> string + Z.

Lemma customForced_shape (s : string) (caps : list string) :
  regexMatch customForced s = Some caps ->
  exists h b k,
    caps = [h; b; k] /\ s = s3Custom h b k
    /\ h <> "" /\ noChar "/"%char h = true
    /\ b <> "" /\ noChar "/"%char b = true
    /\ k <> "" /\ allIn AnyChar k = true.
Proof.
  unfold regexMatch. intros H.
  destruct (matchPieces_sound _ _ _ _ H) as (caps' & Hp & ->).
  apply three_groups_inv in Hp as (h & b & k & -> & -> & Hh & Hb & Hk).
  apply plus_inv in Hh as (Hhn & Hh). rewrite allIn_NotSlash in Hh.
  apply plus_inv in Hb as (Hbn & Hb). rewrite allIn_NotSlash in Hb.
  apply plus_inv in Hk as (Hkn & Hk).
  exists h, b, k. repeat split; auto.
Qed.

Lemma customWithDot_shape (s : string) (caps : list string) :
  regexMatch customWithDot s = Some caps ->
  exists h b k,
    caps = [h; b; k] /\ s = s3Custom h b k
    /\ h <> "" /\ noChar "/"%char h = true
    /\ b <> "" /\ noChar "/"%char b = true
    /\ k <> "" /\ allIn AnyChar k = true.
Proof.
  unfold regexMatch. intros H.
  destruct (matchPieces_sound _ _ _ _ H) as (caps' & Hp & ->).
  apply three_groups_inv in Hp as (h & b & k & -> & -> & Hh & Hb & Hk).
  apply host_inv in Hh as (Hh & _ & Hd).
  apply plus_inv in Hb as (Hbn & Hb). rewrite allIn_NotSlash in Hb.
  apply plus_inv in Hk as (Hkn & Hk).
  exists h, b, k. repeat split; auto using hasInnerDot_nonempty.
Qed.

Lemma aws_shape (s : string) (caps : list string) :
  regexMatch aws s = Some caps ->
  exists b k,
    caps = [b; k] /\ s = s3Aws b k
    /\ b <> "" /\ noChar "/"%char b = true
    /\ k <> "" /\ allIn AnyChar k = true.
Proof.
  unfold regexMatch. intros H.
  destruct (matchPieces_sound _ _ _ _ H) as (caps' & Hp & ->).
  apply two_groups_inv in Hp as (b & k & -> & -> & Hb & Hk).
  apply plus_inv in Hb as (Hbn & Hb). rewrite allIn_NotSlash in Hb.
  apply plus_inv in Hk as (Hkn & Hk).
  exists b, k. repeat split; auto.
Qed.

Ltac case_conditions H :=
  repeat match type of H with
         | context [if ?c then _ else _] => destruct c eqn:?
         end.

Lemma parse_sound (url : string) (fmt : option string) (p : Parsed) :
  parseS3Url searchParamsGet envRegion url fmt = inr p -> rebuilds url p.
Proof.
  unfold parseS3Url, rebuilds. intros H.
  destruct (regexMatch customForced (cleanOf url)) as [c1|] eqn:H1;
    [apply customForced_shape in H1
       as (h1 & b1 & k1 & -> & E1 & Hh1 & Hhs1 & Hb1 & Hbs1 & Hk1 & Hka1)|];
  (destruct (regexMatch customWithDot (cleanOf url)) as [c2|] eqn:H2;
    [apply customWithDot_shape in H2
       as (h2 & b2 & k2 & -> & E2 & Hh2 & Hhs2 & Hb2 & Hbs2 & Hk2 & Hka2)|]);
  (destruct (regexMatch aws (cleanOf url)) as [c3|] eqn:H3;
    [apply aws_shape in H3 as (b3 & k3 & -> & E3 & Hb3 & Hbs3 & Hk3 & Hka3)|]);
  destruct (queryOf url) as [q|]; cbn zeta in H;
  case_conditions H; try discriminate; injection H as <-; simpl;
  repeat match goal with
         | Heq : String.eqb _ "" = true |- _ => apply String.eqb_eq in Heq; congruence
         end;
  repeat split; auto; eexists; repeat split; eauto.
Qed.

Lemma parse_failure (url : string) (fmt : option string) (msg : string) :
  parseS3Url searchParamsGet envRegion url fmt = inl msg ->
  msg = invalidFormatMessage url.
Proof.
  unfold parseS3Url.
  destruct (queryOf url) as [q|]; cbn zeta;
    repeat match goal with
           | |- context [if ?c then _ else _] => destruct c
           | |- context [match ?x with _ => _ end] => destruct x
           end;
    intros H; try discriminate; injection H as <-; reflexivity.
Qed.

Lemma split_head (c : ascii) (s : string) :
  exists w ws r, split c s = w :: ws /\ noChar c w = true /\ s = w ++ r.
Proof.
  induction s as [|x s IH]; simpl.
  - exists "", [], "". auto.
  - destruct (Ascii.eqb x c) eqn:Hx.
    + exists "", (split c s), (String x s). auto.
    + destruct IH as (w & ws & r & -> & Hw & ->).
      exists (String x w), ws, r. simpl. rewrite Hx, Hw. auto.
Qed.

Lemma cleanOf_prefix (url : string) :
  noChar "?"%char (cleanOf url) = true
  /\ exists r, url = cleanOf url ++ r.
Proof.
  unfold cleanOf.
  destruct (split_head "?"%char url) as (w & ws & r & -> & Hw & E).
  split; [exact Hw | now exists r].
Qed.

Lemma prefix_append (p a r : string) :
  String.prefix p a = true -> String.prefix p (a ++ r) = true.
Proof.
  revert a. induction p as [|c p IH]; intros [|d a]; simpl; auto; try discriminate.
  - intros _. now destruct r.
  - destruct (ascii_dec c d); [apply IH | discriminate].
Qed.

Lemma prefix_self_append (p r : string) : String.prefix p (p ++ r) = true.
Proof.
  induction p as [|c p IH]; simpl; [now destruct r|].
  destruct (ascii_dec c c); [exact IH | congruence].
Qed.

Lemma parse_needs_scheme (url : string) (fmt : option string) :
  String.prefix "s3://" url = false ->
  parseS3Url searchParamsGet envRegion url fmt = inl (invalidFormatMessage url).
Proof.
  intros Hpre.
  destruct (parseS3Url searchParamsGet envRegion url fmt) as [msg|p] eqn:Hp.
  - now rewrite (parse_failure _ _ _ Hp).
  - exfalso. apply parse_sound in Hp as (_ & _ & _ & _ & Hend).
    destruct (cleanOf_prefix url) as [_ [r Hr]].
    assert (Hc : String.prefix "s3://" (cleanOf url) = true).
    { destruct (endpoint p) as [ep|].
      - destruct Hend as (h & _ & _ & _ & ->). apply (prefix_self_append "s3://").
      - rewrite Hend. apply (prefix_self_append "s3://"). }
    apply (prefix_append _ _ r) in Hc. rewrite <- Hr in Hc. congruence.
Qed.

Lemma prefixNoCase_cons (a : ascii) (p : string) (c : ascii) (s : string) :
  prefixNoCase (String a p) (String c s)
  = Ascii.eqb (lower a) (lower c) && prefixNoCase p s.
Proof. reflexivity. Qed.

Lemma s3_route_excludes_http (s : string) :
  isS3Url s = true -> isValidHttpUrl s = false.
Proof.
  unfold isS3Url, isValidHttpUrl, s3Tester, s3HttpTester, httpTester.
  destruct s as [|c s]; [discriminate|].
  rewrite !prefixNoCase_cons.
  destruct (Ascii.eqb (lower "s") (lower c)) eqn:Es; [|discriminate].
  apply Ascii.eqb_eq in Es. rewrite <- Es. reflexivity.
Qed.

(** X6.  Whatever the format hint and the query string, a location string
    that [parseS3Url] accepts is rebuilt by what it returns: the bucket is
    non-empty and has no slash, the key is non-empty and has no line break,
    the endpoint, when there is one, is [https://] followed by a non-empty
    host without a slash, and the part of the string before its first
    question mark is [s3://host/bucket/key], or [s3://bucket/key] when the
    endpoint is null. *)
Theorem X6_parsed_parts_rebuild_the_location (url : string) (fmt : option string)
    (p : Parsed) :
  parseS3Url searchParamsGet envRegion url fmt = inr p ->
  bucket p <> "" /\ noChar "/"%char (bucket p) = true
  /\ key p <> "" /\ noChar "010"%char (key p) && noChar "013"%char (key p) = true
  /\ noChar "?"%char (bucket p) && noChar "?"%char (key p) = true
  /\ match endpoint p with
     | Some ep =>
         exists h, ep = "https://" ++ h /\ h <> "" /\ noChar "/"%char h = true
                   /\ cleanOf url = s3Custom h (bucket p) (key p)
     | None => cleanOf url = s3Aws (bucket p) (key p)
     end.
Proof.
  intros H. apply parse_sound in H as (Hb & Hbs & Hk & Hka & Hend).
  rewrite allIn_AnyChar in Hka.
  repeat split; auto.
  destruct (cleanOf_prefix url) as [Hq _].
  destruct (endpoint p) as [ep|].
  - destruct Hend as (h & _ & _ & _ & E). rewrite E in Hq. unfold s3Custom in Hq.
    repeat first [rewrite noChar_append in Hq | progress simpl in Hq].
    apply andb_true_iff in Hq as [_ Hq]. apply andb_true_iff in Hq as [Hq1 Hq2].
    now rewrite Hq1, Hq2.
  - rewrite Hend in Hq. unfold s3Aws in Hq.
    repeat first [rewrite noChar_append in Hq | progress simpl in Hq].
    apply andb_true_iff in Hq as [Hq1 Hq2]. now rewrite Hq1, Hq2.
Qed.


(** X7.  [openPMtiles] hands every string that [isS3Url] accepts to the S3
    source and to nothing else, and the S3 source accepts only strings that
    start with the lower-case [s3://]: a location that [isS3Url] accepts
    without that start, such as [s3+https://host/bucket/key] or
    [S3://bucket/key], is never opened; opening it throws the
    invalid-format error, whatever the profile, region and format hint. *)
Theorem X7_only_the_plain_s3_scheme_opens (filePath : string)
    (s3Profile : option string) (requestPayer : option bool)
    (s3Region s3UrlFormat : option string) :
  isS3Url filePath = true ->
  String.prefix "s3://" filePath = false ->
  isValidHttpUrl filePath = false
  /\ openPMtiles searchParamsGet envRegion openSync filePath s3Profile requestPayer
                 s3Region s3UrlFormat
     = inl (invalidFormatMessage filePath).
Proof.
  intros Hs3 Hpre. split; [now apply s3_route_excludes_http|].
  unfold openPMtiles, newS3Source. rewrite Hs3.
  now rewrite (parse_needs_scheme _ _ Hpre).
Qed.

(** X8.  With the format hint [custom], [s3://host/bucket/key] is read back
    as that bucket and key with the endpoint [https://host] for every
    non-empty host without a slash, a host without a dot such as
    [localhost:9000] included; without the hint the same string, when its
    host has no dot, is read as the AWS bucket [host] with the key
    [bucket/key]. *)
Theorem X8_custom_hint_admits_dotless_hosts (h b k : string) :
  validBucket h = true -> validBucket b = true -> validKey k = true ->
  parseS3Url searchParamsGet envRegion (s3Custom h b k) (Some "custom")
  = inr (mkParsed (Some ("https://" ++ h)) b k (defaultRegion envRegion) None false)
  /\ (noChar "."%char h = true -> validKey b = true ->
      parseS3Url searchParamsGet envRegion (s3Custom h b k) None
      = inr (mkParsed None h (b ++ "/" ++ k) (defaultRegion envRegion) None false)).
Proof.
  intros Hh Hb Hk. split.
  - apply validBucket_parts in Hh as (Hhn & Hhs & Hhq).
    apply validBucket_parts in Hb as (Hbn & Hbs & Hbq).
    apply validKey_parts in Hk as (Hkn & Hkq & Hka).
    destruct (no_query _ (s3Custom_no_query _ _ _ Hhq Hbq Hkq)) as [Hq Hc].
    unfold parseS3Url. rewrite Hq, Hc. simpl.
    rewrite (customForced_exact _ _ _ Hhn Hhs Hbn Hbs Hkn Hka).
    apply String.eqb_neq in Hhn. rewrite Hhn. reflexivity.
  - intros Hdot Hbk.
    change (s3Custom h b k) with (s3Aws h (b ++ "/" ++ k)).
    apply parse_aws_auto; [exact Hh | | now left].
    unfold validKey in *.
    apply andb_true_iff in Hbk as [Hbk Hbcr]. apply andb_true_iff in Hbk as [Hbk Hblf].
    apply andb_true_iff in Hbk as [_ Hbq].
    apply andb_true_iff in Hk as [Hk Hkcr]. apply andb_true_iff in Hk as [Hk Hklf].
    apply andb_true_iff in Hk as [_ Hkq].
    repeat first [rewrite noChar_append | progress simpl].
    rewrite Hbq, Hkq, Hblf, Hklf, Hbcr, Hkcr.
    destruct b; reflexivity.
Qed.

(** X9.  The format hint: a configured hint that is neither empty nor
    [aws] nor [custom] is dropped, the call then behaving as if none had
    been configured; a configured [aws] or [custom] decides alone, the
    [s3UrlFormat] parameter of the query string having no influence. *)
Theorem X9_format_hint_precedence (url : string) :
  (forall f, f <> "" -> f <> "aws" -> f <> "custom" ->
             parseS3Url searchParamsGet envRegion url (Some f)
             = parseS3Url searchParamsGet envRegion url None)
  /\ (forall f (otherGet : string -> string -> option string),
        f = "aws" \/ f = "custom" ->
        (forall q name, name <> "s3UrlFormat" -> otherGet q name = searchParamsGet q name) ->
        parseS3Url otherGet envRegion url (Some f)
        = parseS3Url searchParamsGet envRegion url (Some f)).
Proof.
  split.
  - intros f Hne Haws Hcustom.
    apply String.eqb_neq in Hne. apply String.eqb_neq in Haws.
    apply String.eqb_neq in Hcustom.
    unfold parseS3Url. cbn beta iota delta [truthyStr strIs].
    rewrite Hne, Haws, Hcustom. reflexivity.
  - intros f otherGet Hf Hsame. unfold parseS3Url.
    destruct (queryOf url) as [q|]; [|reflexivity].
    rewrite (Hsame q "requestPayer"), (Hsame q "profile"), (Hsame q "region")
      by discriminate.
    destruct Hf as [-> | ->]; reflexivity.
Qed.

(** X10.  The client of a constructed S3 source follows from its endpoint:
    the endpoint is null or [https://] followed by a non-empty host; with an
    endpoint the client is given that endpoint and path-style addressing,
    without one it is given neither; its region is the region of the
    source. *)
Theorem X10_endpoint_decides_path_style (url : string)
    (s3Profile : option string) (configRequestPayer : option bool)
    (configRegion : option string) (s3UrlFormat : option string) (src : Source) :
  newS3Source searchParamsGet envRegion url s3Profile configRequestPayer
              configRegion s3UrlFormat = inr src ->
  clientRegion (srcClient src) = srcRegion src
  /\ clientEndpoint (srcClient src) = srcEndpoint src
  /\ match srcEndpoint src with
     | Some ep => forcePathStyle (srcClient src) = true
                  /\ exists h, ep = "https://" ++ h /\ h <> ""
                               /\ cleanOf url = s3Custom h (srcBucket src) (srcKey src)
     | None => forcePathStyle (srcClient src) = false
               /\ cleanOf url = s3Aws (srcBucket src) (srcKey src)
     end.
Proof.
  unfold newS3Source.
  destruct (parseS3Url searchParamsGet envRegion url s3UrlFormat) as [err|p] eqn:Hp;
    [discriminate|].
  intros H. injection H as <-. simpl.
  apply parse_sound in Hp as (_ & _ & _ & _ & Hend).
  unfold createS3Client. simpl.
  destruct (endpoint p) as [ep|]; simpl.
  - destruct Hend as (h & -> & Hh & _ & Hc). simpl.
    repeat split; auto. exists h. auto.
  - auto.
Qed.

End LocationProperties.

(** X7, witness: a location with the [s3+https] scheme. *)
Lemma X7_s3_https_scheme_witness :
  Opening.isValidHttpUrl "s3+https://minio.example.com/tiles/world.pmtiles" = false
  /\ Opening.openPMtiles S3.plainParamsGet None (fun _ => inr 3%Z)
       "s3+https://minio.example.com/tiles/world.pmtiles" None None None None
     = inl (S3.invalidFormatMessage "s3+https://minio.example.com/tiles/world.pmtiles").
Proof.
  apply (X7_only_the_plain_s3_scheme_opens S3.plainParamsGet None (fun _ => inr 3%Z)
           "s3+https://minio.example.com/tiles/world.pmtiles" None None None None).
  - reflexivity.
  - reflexivity.
Defined.

(** X8, witness: a local endpoint. *)
Lemma X8_custom_hint_witness :
  S3.parseS3Url S3.plainParamsGet None "s3://localhost:9000/tiles/world.pmtiles"
                (Some "custom")
  = inr (S3.mkParsed (Some "https://localhost:9000") "tiles" "world.pmtiles"
                     "us-east-1" None false)
  /\ S3.parseS3Url S3.plainParamsGet None "s3://localhost:9000/tiles/world.pmtiles" None
     = inr (S3.mkParsed None "localhost:9000" "tiles/world.pmtiles"
                        "us-east-1" None false).
Proof.
  destruct (X8_custom_hint_admits_dotless_hosts S3.plainParamsGet None
              "localhost:9000" "tiles" "world.pmtiles" eq_refl eq_refl eq_refl)
    as [Hcustom Hauto].
  split; [exact Hcustom | apply Hauto; reflexivity].
Defined.

(** X6, witness: a location with a query string. *)
Lemma X6_parsed_parts_witness :
  "tiles" <> ""
  /\ noChar "/"%char "tiles" = true
  /\ "world/planet.pmtiles" <> ""
  /\ noChar "010"%char "world/planet.pmtiles" && noChar "013"%char "world/planet.pmtiles"
     = true
  /\ noChar "?"%char "tiles" && noChar "?"%char "world/planet.pmtiles" = true
  /\ exists h, "https://minio.example.com" = "https://" ++ h /\ h <> ""
               /\ noChar "/"%char h = true
               /\ S3.cleanOf "s3://minio.example.com/tiles/world/planet.pmtiles?region=eu-west-1"
                  = Regex.s3Custom h "tiles" "world/planet.pmtiles".
Proof.
  apply (X6_parsed_parts_rebuild_the_location S3.plainParamsGet None
           "s3://minio.example.com/tiles/world/planet.pmtiles?region=eu-west-1" None
           (S3.mkParsed (Some "https://minio.example.com") "tiles" "world/planet.pmtiles"
                        "eu-west-1" None false)).
  reflexivity.
Defined.

(** X10, witness: the same location, constructed as a source. *)
Lemma X10_endpoint_witness :
  exists src,
    S3.newS3Source S3.plainParamsGet None
      "s3://minio.example.com/tiles/world/planet.pmtiles?region=eu-west-1"
      None None None None = inr src
    /\ S3.clientRegion (S3.srcClient src) = S3.srcRegion src
    /\ S3.clientEndpoint (S3.srcClient src) = S3.srcEndpoint src
    /\ S3.forcePathStyle (S3.srcClient src) = true
    /\ S3.srcEndpoint src = Some "https://minio.example.com".
Proof.
  eexists. split; [reflexivity|].
  pose proof (X10_endpoint_decides_path_style S3.plainParamsGet None
                "s3://minio.example.com/tiles/world/planet.pmtiles?region=eu-west-1"
                None None None None _ eq_refl) as (Hr & He & Hf & _).
  repeat split; auto.
Defined.

(* ===================================================================== *)
(** ** Further properties of the renderer's sub-resource requests         *)
(* ===================================================================== *)

Section SubResourceProperties.
Import Adapter Utils Resolver.
Variable colorArray : string -> JsError + list Z.
Variable encodePixel : list Z -> nat -> string -> JsError + list Z.
Variable strIsOne : string -> bool.
Variable gunzip : list Z -> Settled (list Z).
Variable dataDecoratorFunc :
  option (string -> string -> list Z -> Z -> Z -> Z -> JsError + list Z).

Lemma fetchTileData_returns (source : Source) (z x y : Z) :
  exists v, snd (fetchTileData source z x y) = Returned v.
Proof.
  destruct source as [pm|getTile|]; simpl.
  - unfold getPMtilesTile.
    pose proof (tileLoop_spec pm z x y defaultMaxRetries defaultMaxRetries 0 eq_refl) as H.
    cbn zeta in H. destruct H as (_ & _ & _ & _ & _ & [v Hv] & _).
    destruct (tileLoop pm z x y defaultMaxRetries defaultMaxRetries 0) as [tr c].
    simpl in Hv. subst c. destruct v as [t|]; simpl; eauto.
  - destruct (mbErr (getTile z x y)); simpl; eauto.
  - eauto.
Qed.

(** X11.  The cache of empty responses: an entry, once there, is never
    lost or replaced; a request that was answered with data is answered
    with the same data from then on, from the cache alone, whatever the
    colour and image libraries would do; a request that ended in an error
    leaves the cache as it was; and [jpg] is answered as [jpeg], the two
    sharing an entry. *)
Theorem X11_empty_response_is_cached (cache : gmap string (list Z))
    (fmt col : option string) :
  (forall k v, cache !! k = Some v ->
     fst (createEmptyResponse colorArray encodePixel cache fmt col) !! k = Some v)
  /\ match snd (createEmptyResponse colorArray encodePixel cache fmt col) with
     | CbData bytes modified =>
         modified = None
         /\ forall (otherColorArray : string -> JsError + list Z)
                   (otherEncodePixel : list Z -> nat -> string -> JsError + list Z),
              createEmptyResponse otherColorArray otherEncodePixel
                (fst (createEmptyResponse colorArray encodePixel cache fmt col)) fmt col
              = (fst (createEmptyResponse colorArray encodePixel cache fmt col),
                 CbData bytes None)
     | CbError _ =>
         fst (createEmptyResponse colorArray encodePixel cache fmt col) = cache
     | CbAbsent => False
     end
  /\ createEmptyResponse colorArray encodePixel cache (Some "jpg") col
     = createEmptyResponse colorArray encodePixel cache (Some "jpeg") col.
Proof.
  split; [|split].
  - intros k v Hk. unfold createEmptyResponse.
    destruct (negb (S3.truthyStr fmt) || S3.strIs fmt "pbf"); [exact Hk|].
    cbn zeta.
    match goal with
    | |- context [match cache !! ?key with _ => _ end] =>
        destruct (cache !! key) as [bytes|] eqn:Hc; [exact Hk|];
        assert (Hne : key <> k) by (intros E; congruence)
    end.
    destruct (colorArray _) as [e|array]; [exact Hk|].
    destruct (encodePixel _ _ _) as [e|buffer]; [exact Hk|].
    simpl. rewrite lookup_insert_ne; [exact Hk | exact Hne].
  - unfold createEmptyResponse.
    destruct (negb (S3.truthyStr fmt) || S3.strIs fmt "pbf") eqn:Hf.
    + simpl. split; reflexivity.
    + cbn zeta.
      match goal with
      | |- context [match cache !! ?key with _ => _ end] =>
          destruct (cache !! key) as [bytes|] eqn:Hc
      end.
      * simpl. split; [reflexivity|]. intros ? ?. simpl in Hc. now rewrite Hc.
      * destruct (colorArray _) as [e|array]; [reflexivity|].
        destruct (encodePixel _ _ _) as [e|buffer]; [reflexivity|].
        simpl. split; [reflexivity|]. intros ? ?.
        now rewrite lookup_insert_eq.
  - reflexivity.
Qed.


End SubResourceProperties.

(* ===================================================================== *)
(** ** Further properties of [respondImage]                               *)
(* ===================================================================== *)

Section DeliveryProperties.
Import Respond Delivery.

(** Once the render callback has run, nothing touches the pool or the
    timer again. *)
Lemma after_render (evs : list Event) :
  forall s,
    (forall d, timer s <> Armed d) ->
    deliverable true evs = true ->
    poolOps (run s evs) = poolOps s
    /\ (responses (run s evs) = responses s
        \/ exists r, fromEncoder r = true /\ headersSent s = false
                     /\ responses (run s evs) = (responses s ++ [r])%list).
Proof.
  induction evs as [|ev evs IH]; intros s Ht Hd; simpl; [auto|].
  destruct ev as [|err|failed]; simpl in Hd; try discriminate.
  - assert (Hs : step s TimerFires = s).
    { simpl. destruct (timer s) eqn:E; [exfalso; eapply Ht; eauto | reflexivity | reflexivity]. }
    rewrite Hs. now apply IH.
  - assert (Hstep : poolOps (step s (ToBufferCallback failed)) = poolOps s
                    /\ timer (step s (ToBufferCallback failed)) = timer s).
    { simpl. unfold sendUnlessSent. destruct failed, (headersSent s); auto. }
    destruct Hstep as [Hp Htm].
    destruct (IH (step s (ToBufferCallback failed))) as [Hops Hrs].
    + intros d. rewrite Htm. apply Ht.
    + exact Hd.
    + split; [now rewrite Hops, Hp|].
      destruct (headersSent s) eqn:Hh.
      * assert (Hsame : step s (ToBufferCallback failed) = s).
        { simpl. unfold sendUnlessSent. rewrite Hh. now destruct failed. }
        rewrite Hsame in *.
        destruct Hrs as [Hrs|(r & _ & Hf & _)]; [now left | congruence].
      * right.
        assert (Hsent : exists r, fromEncoder r = true
                  /\ responses (step s (ToBufferCallback failed)) = (responses s ++ [r])%list
                  /\ headersSent (step s (ToBufferCallback failed)) = true).
        { simpl. unfold sendUnlessSent. rewrite Hh.
          destruct failed; eexists; (split; [|split; reflexivity]); reflexivity. }
        destruct Hsent as (r & Hr & Hresp & Hhs).
        exists r. split; [exact Hr|]. split; [reflexivity|].
        destruct Hrs as [Hrs|(r' & _ & Hf & _)]; [|congruence].
        simpl in *. now rewrite Hrs, Hresp.
Qed.

Lemma headersSent_step (s : State) (ev : Event) :
  headersSent s = true -> headersSent (step s ev) = true.
Proof.
  intros H. destruct ev as [|err|failed]; simpl.
  - destruct (timer s); auto. unfold sendUnlessSent. simpl. now rewrite H.
  - unfold clearTimeout. destruct (timer s); simpl; now rewrite H.
  - unfold sendUnlessSent. rewrite H. now destruct failed.
Qed.

Lemma headersSent_run (evs : list Event) :
  forall s, headersSent s = true -> headersSent (run s evs) = true.
Proof.
  induction evs as [|ev evs IH]; intros s H; simpl; [exact H|].
  apply IH. now apply headersSent_step.
Qed.

Lemma final_step (s : State) (ev : Event) :
  isFinal ev = true -> headersSent (step s ev) = true.
Proof.
  destruct ev as [|[e|]|failed]; try discriminate; intros _; simpl.
  - destruct (headersSent (clearTimeout s)) eqn:H; [exact H|].
    unfold sendUnlessSent. simpl. now rewrite H.
  - unfold sendUnlessSent. destruct failed, (headersSent s) eqn:H; simpl; auto.
Qed.

Lemma final_run (evs : list Event) :
  forall s, existsb isFinal evs = true -> headersSent (run s evs) = true.
Proof.
  induction evs as [|ev evs IH]; intros s H; simpl in *; [discriminate|].
  destruct (isFinal ev) eqn:Hf.
  - apply headersSent_run. now apply final_step.
  - now apply IH.
Qed.

(** X13.  In every order of delivery the renderer is given back to the
    pool at most once, and exactly once as soon as the render callback has
    run: it is either released or removed as bad, never both and never
    twice.  When it was released, the only response there can be comes from
    the encoder: the image, or "Image processing failed". *)
Theorem X13_renderer_is_given_back_once (evs : list Event) :
  deliverable false evs = true ->
  List.length (poolOps (run armed evs)) <= 1
  /\ (existsb isRenderCallback evs = true -> List.length (poolOps (run armed evs)) = 1)
  /\ (In Release (poolOps (run armed evs)) ->
      poolOps (run armed evs) = [Release]
      /\ forallb fromEncoder (responses (run armed evs)) = true).
Proof.
  assert (Hgen : forall l s,
            s = armed
            \/ s = mkState Fired true [RemoveBadObject] [mkResponse 503 "Renderer timeout"] ->
            deliverable false l = true ->
            List.length (poolOps (run s l)) <= 1
            /\ (existsb isRenderCallback l = true -> List.length (poolOps (run s l)) = 1)
            /\ (In Release (poolOps (run s l)) ->
                poolOps (run s l) = [Release]
                /\ forallb fromEncoder (responses (run s l)) = true)).
  { induction l as [|ev l IH]; intros s Hs Hd.
    - destruct Hs as [-> | ->]; simpl.
      + split; [lia|]. split; [discriminate|]. intros [].
      + split; [lia|]. split; [discriminate|]. intros [H|[]]. discriminate.
    - destruct ev as [|err|failed]; simpl in Hd; try discriminate.
      + change (run s (TimerFires :: l)) with (run (step s TimerFires) l).
        apply IH; [|exact Hd]. right. destruct Hs as [-> | ->]; reflexivity.
      + change (run s (RenderCallback err :: l)) with (run (step s (RenderCallback err)) l).
        destruct Hs as [-> | ->].
        * destruct err as [e|].
          -- destruct (after_render l (step armed (RenderCallback (Some e))))
               as [Hops _]; [discriminate | exact Hd|].
             rewrite Hops. simpl. split; [lia|]. split; [reflexivity|].
             intros [H|[]]. discriminate.
          -- destruct (after_render l (step armed (RenderCallback None)))
               as [Hops Hrs]; [discriminate | exact Hd|].
             rewrite Hops. split; [simpl; lia|]. split; [reflexivity|].
             intros _. split; [reflexivity|].
             destruct Hrs as [Hrs|(r & Hr & _ & Hrs)]; rewrite Hrs; simpl;
               [reflexivity | now rewrite Hr].
        * destruct (after_render l
                      (step (mkState Fired true [RemoveBadObject]
                                     [mkResponse 503 "Renderer timeout"])
                            (RenderCallback err)))
            as [Hops _]; [discriminate | exact Hd|].
          rewrite Hops. simpl. split; [lia|]. split; [reflexivity|].
          intros [H|[]]. discriminate. }
  intros Hd. apply Hgen; [now left | exact Hd].
Qed.

(** X14.  In any order of events, a request whose render callback reports
    an error, or whose encoder calls back, has been answered, and answered
    exactly once. *)
Theorem X14_answered_exactly_once (evs : list Event) :
  existsb isFinal evs = true ->
  headersSent (run armed evs) = true
  /\ List.length (responses (run armed evs)) = 1.
Proof.
  intros H. pose proof (final_run evs armed H) as Hs.
  split; [exact Hs|].
  destruct (run_responded evs armed) as [[Hh _]|[_ Hr]].
  - left. split; reflexivity.
  - congruence.
  - exact Hr.
Qed.

End DeliveryProperties.

(** X13, witness: the timer fires while the image is being encoded; the
    renderer was released, once, and the image is the only response. *)
Lemma X13_given_back_witness :
  Respond.poolOps
    (Respond.run Respond.armed
       [Respond.RenderCallback None; Respond.TimerFires;
        Respond.ToBufferCallback false]) = [Respond.Release]
  /\ forallb Delivery.fromEncoder
       (Respond.responses
          (Respond.run Respond.armed
             [Respond.RenderCallback None; Respond.TimerFires;
              Respond.ToBufferCallback false])) = true.
Proof.
  destruct (X13_renderer_is_given_back_once
              [Respond.RenderCallback None; Respond.TimerFires;
               Respond.ToBufferCallback false] eq_refl) as (_ & _ & Hreleased).
  apply Hreleased. left. reflexivity.
Defined.

(** X14, witness: the encoder's callback arrives after the timer fired. *)
Lemma X14_answered_witness :
  Respond.headersSent
    (Respond.run Respond.armed
       [Respond.TimerFires; Respond.RenderCallback None;
        Respond.ToBufferCallback false]) = true
  /\ List.length (Respond.responses
       (Respond.run Respond.armed
          [Respond.TimerFires; Respond.RenderCallback None;
           Respond.ToBufferCallback false])) = 1.
Proof.
  apply (X14_answered_exactly_once
           [Respond.TimerFires; Respond.RenderCallback None;
            Respond.ToBufferCallback false]).
  reflexivity.
Defined.

(* ===================================================================== *)
(** ** Further properties of the markers of a request                     *)
(* ===================================================================== *)

Section MarkerQueryProperties.
Import Number Markers MarkerQuery.
Variable sanitize : string -> string.
Variable pathResolve : string -> string -> string.
Variable latlng : option string.
Variable transformer : option (float * float -> option (float * float)).

Lemma applyOption_frame (parts : list string) (m : Marker) :
  location (fst (applyOption parts m)) = location m
  /\ icon (fst (applyOption parts m)) = icon m.
Proof.
  unfold applyOption.
  destruct parts as [|name [|value rest]]; simpl; auto.
  destruct (String.eqb name "scale").
  - destruct (scaleOk (parseFloat value)); simpl; auto.
  - destruct (String.eqb name "offset"); simpl; auto.
    destruct (offsetOk (parseFloat (hd "" (split "," value))));
      destruct (split "," value) as [|o1 [|o2 os]]; simpl; auto;
      destruct (offsetOk (parseFloat o2)); simpl; auto.
Qed.

Lemma parseMarkerOptions_frame (opts : list string) :
  forall m, location (fst (parseMarkerOptions opts m)) = location m
            /\ icon (fst (parseMarkerOptions opts m)) = icon m.
Proof.
  induction opts as [|o opts IH]; intros m; simpl; [auto|].
  destruct (applyOption_frame (split ":" o) m) as [Hl Hi].
  destruct (applyOption (split ":" o) m) as [m1 w1].
  specialize (IH m1).
  destruct (parseMarkerOptions opts m1) as [m2 w2]. simpl in *.
  destruct IH as [IHl IHi]. split; congruence.
Qed.

Lemma parseMarkerOptions_append (xs : list string) :
  forall ys m,
    parseMarkerOptions (xs ++ ys) m
    = (fst (parseMarkerOptions ys (fst (parseMarkerOptions xs m))),
       (snd (parseMarkerOptions xs m)
        ++ snd (parseMarkerOptions ys (fst (parseMarkerOptions xs m))))%list).
Proof.
  induction xs as [|o xs IH]; intros ys m; simpl.
  - now destruct (parseMarkerOptions ys m).
  - destruct (applyOption (split ":" o) m) as [m1 w1].
    rewrite IH.
    destruct (parseMarkerOptions xs m1) as [m2 w2]. simpl.
    now rewrite List.app_assoc.
Qed.

(** What holds of a marker whose options were read into a fresh marker. *)
Lemma fresh_marker_fields (opts : list string) (loc : float * float) (uri : string) :
  let m := fst (parseMarkerOptions opts (mkMarker loc uri None None None)) in
  location m = loc /\ icon m = uri
  /\ (forall x, scale m = Some x -> scaleOk x = true)
  /\ (forall x, offsetX m = Some x -> offsetOk x = true)
  /\ (forall y, offsetY m = Some y -> offsetOk y = true).
Proof.
  cbn zeta.
  destruct (parseMarkerOptions_frame opts (mkMarker loc uri None None None)) as [Hl Hi].
  destruct (parseMarkerOptions_fields opts (mkMarker loc uri None None None))
    as (Hs & Hx & Hy).
  split; [exact Hl|]. split; [exact Hi|].
  split; [|split]; intros v Hv.
  - destruct (Hs v Hv) as [H|H]; [discriminate | exact H].
  - destruct (Hx v Hv) as [H|H]; [discriminate | exact H].
  - destruct (Hy v Hv) as [H|H]; [discriminate | exact H].
Qed.

Lemma resolveIcon_policy (options : Options) (uri icon : string) :
  resolveIcon sanitize pathResolve options uri = Some icon ->
  (exists name, In name (availableIcons options)
                /\ icon = pathResolve (iconsPath options) name)
  \/ (icon = uri /\ Opening.isValidHttpUrl uri = true
      /\ allowRemoteMarkerIcons options = JBool true)
  \/ (icon = uri /\ String.prefix "data:" uri = true
      /\ allowInlineMarkerImages options = JBool true).
Proof.
  unfold resolveIcon.
  destruct (Opening.isValidHttpUrl uri) eqn:Hr;
    destruct (String.prefix "data:" uri) eqn:Hd; simpl.
  - destruct (allowRemoteMarkerIcons options) as [| |[|]| |] eqn:Ha; simpl;
      try discriminate.
    destruct (isTrue (allowInlineMarkerImages options)); simpl; [|discriminate].
    intros H. injection H as <-. right. left. auto.
  - destruct (allowRemoteMarkerIcons options) as [| |[|]| |] eqn:Ha; simpl;
      try discriminate.
    intros H. injection H as <-. right. left. auto.
  - destruct (allowInlineMarkerImages options) as [| |[|]| |] eqn:Ha; simpl;
      try discriminate.
    intros H. injection H as <-. right. right. auto.
  - destruct (existsb (String.eqb (sanitize uri)) (availableIcons options)) eqn:He;
      [|discriminate].
    intros H. injection H as <-. left.
    apply existsb_exists in He as (name & Hin & Heq).
    apply String.eqb_eq in Heq. subst name. eauto.
Qed.

Lemma parseCoordinates_numbers (pair : list string) (loc : float * float) :
  transformer = None ->
  parseCoordinates latlng transformer pair = Some loc ->
  isNaN (fst loc) = false /\ isNaN (snd loc) = false.
Proof.
  intros ->. unfold parseCoordinates, parseCoordinatePair.
  destruct (isNaN (parseFloat (nth 0 pair "undefined"))) eqn:H1; [discriminate|].
  destruct (isNaN (parseFloat (nth 1 pair "undefined"))) eqn:H2; [discriminate|].
  simpl. destruct (S3.strIs latlng "1" || S3.strIs latlng "true");
    intros H; injection H as <-; auto.
Qed.

Lemma extractMarker_policy (options : Options) (providedMarker : string) (m : Marker) :
  extractMarker sanitize pathResolve latlng transformer options providedMarker = Some m ->
  ((exists name, In name (availableIcons options)
                 /\ icon m = pathResolve (iconsPath options) name)
   \/ (Opening.isValidHttpUrl (icon m) = true
       /\ allowRemoteMarkerIcons options = JBool true)
   \/ (String.prefix "data:" (icon m) = true
       /\ allowInlineMarkerImages options = JBool true))
  /\ (transformer = None ->
      isNaN (fst (location m)) = false /\ isNaN (snd (location m)) = false)
  /\ (forall x, scale m = Some x -> scaleOk x = true)
  /\ (forall x, offsetX m = Some x -> offsetOk x = true)
  /\ (forall y, offsetY m = Some y -> offsetOk y = true).
Proof.
  unfold extractMarker.
  destruct (List.length (split "|" providedMarker) <? 2)%nat; [discriminate|].
  destruct (negb (List.length (split "," (nth 0 (split "|" providedMarker) "")) =? 2)%nat);
    [discriminate|].
  destruct (resolveIcon sanitize pathResolve options (nth 1 (split "|" providedMarker) ""))
    as [uri|] eqn:Hicon; [|discriminate].
  destruct (parseCoordinates latlng transformer
              (split "," (nth 0 (split "|" providedMarker) ""))) as [loc|] eqn:Hloc;
    [|discriminate].
  apply resolveIcon_policy in Hicon.
  assert (Hpolicy :
            (exists name, In name (availableIcons options)
                          /\ uri = pathResolve (iconsPath options) name)
            \/ (Opening.isValidHttpUrl uri = true
                /\ allowRemoteMarkerIcons options = JBool true)
            \/ (String.prefix "data:" uri = true
                /\ allowInlineMarkerImages options = JBool true)).
  { destruct Hicon as [H|[(-> & H1 & H2)|(-> & H1 & H2)]]; auto. }
  assert (Hnum : transformer = None ->
                 isNaN (fst loc) = false /\ isNaN (snd loc) = false).
  { intros Ht. eapply parseCoordinates_numbers; eauto. }
  destruct (2 <? List.length (split "|" providedMarker))%nat;
    intros H; injection H as <-.
  - destruct (fresh_marker_fields (skipn 2 (split "|" providedMarker)) loc uri)
      as (Hl & Hi & Hs & Hx & Hy).
    rewrite Hl, Hi. auto.
  - simpl. split; [exact Hpolicy|]. split; [exact Hnum|].
    split; [|split]; intros v Hv; discriminate.
Qed.

Lemma extractAll_policy (options : Options) (items : list (option string)) (m : Marker) :
  In m (extractAll sanitize pathResolve latlng transformer options items) ->
  exists providedMarker,
    In (Some providedMarker) items
    /\ extractMarker sanitize pathResolve latlng transformer options providedMarker
       = Some m.
Proof.
  induction items as [|[s|] items IH]; simpl; [intros [] | |].
  - destruct (extractMarker sanitize pathResolve latlng transformer options s)
      as [m'|] eqn:E.
    + intros [<-|H]; [eauto|]. destruct (IH H) as (p & Hp & He). eauto.
    + intros H. destruct (IH H) as (p & Hp & He). eauto.
  - intros H. destruct (IH H) as (p & Hp & He). eauto.
Qed.

Lemma extractAll_length (options : Options) (items : list (option string)) :
  List.length (extractAll sanitize pathResolve latlng transformer options items)
  <= List.length items.
Proof.
  induction items as [|[s|] items IH]; simpl; [lia | | lia].
  destruct (extractMarker sanitize pathResolve latlng transformer options s); simpl; lia.
Qed.

(** X15.  The markers drawn on a static image: each comes from one of the
    markers the request provides, so there are never more of them; its icon
    is a file of the configured icon directory named in the list of
    available icons, or a http(s) URL when [allowRemoteMarkerIcons] is
    exactly [true], or a [data:] URL when [allowInlineMarkerImages] is
    exactly [true]; without a transformer its two coordinates are numbers;
    and its scale, when set, lies strictly between 0 and 10, its offsets,
    when set, strictly between -1000 and 1000. *)
Theorem X15_markers_follow_the_icon_policy (options : Options) (marker : MarkerParam) :
  List.length (extractMarkersFromQuery sanitize pathResolve latlng transformer
                 options marker) <= provided marker
  /\ forall m,
       In m (extractMarkersFromQuery sanitize pathResolve latlng transformer
               options marker) ->
       ((exists name, In name (availableIcons options)
                      /\ icon m = pathResolve (iconsPath options) name)
        \/ (Opening.isValidHttpUrl (icon m) = true
            /\ allowRemoteMarkerIcons options = JBool true)
        \/ (String.prefix "data:" (icon m) = true
            /\ allowInlineMarkerImages options = JBool true))
       /\ (transformer = None ->
           isNaN (fst (location m)) = false /\ isNaN (snd (location m)) = false)
       /\ (forall x, scale m = Some x -> scaleOk x = true)
       /\ (forall x, offsetX m = Some x -> offsetOk x = true)
       /\ (forall y, offsetY m = Some y -> offsetOk y = true).
Proof.
  split.
  - destruct marker as [|s|items]; simpl; [lia | | apply extractAll_length].
    destruct (String.eqb s ""); [simpl; lia|].
    apply (extractAll_length options [Some s]).
  - intros m Hin.
    assert (Hsrc : exists providedMarker,
              extractMarker sanitize pathResolve latlng transformer options providedMarker
              = Some m).
    { destruct marker as [|s|items]; unfold extractMarkersFromQuery in Hin;
        [destruct Hin | |].
      - destruct (String.eqb s ""); [destruct Hin|].
        apply extractAll_policy in Hin as (p & _ & Hp). eauto.
      - apply extractAll_policy in Hin as (p & _ & Hp). eauto. }
    destruct Hsrc as (p & Hp). now apply extractMarker_policy in Hp.
Qed.

(** X16.  Marker options are read from left to right, each on top of what
    the ones before it left: reading a list of options is reading its first
    part and then the rest, the warnings being written in that order.  The
    options never touch the location or the icon, and a valid scale given
    last is the scale of the marker, whatever came before it. *)
Theorem X16_marker_options_compose (xs ys : list string) (m : Marker) :
  parseMarkerOptions (xs ++ ys) m
  = (fst (parseMarkerOptions ys (fst (parseMarkerOptions xs m))),
     (snd (parseMarkerOptions xs m)
      ++ snd (parseMarkerOptions ys (fst (parseMarkerOptions xs m))))%list)
  /\ location (fst (parseMarkerOptions xs m)) = location m
  /\ icon (fst (parseMarkerOptions xs m)) = icon m
  /\ (forall value,
        noChar ":"%char value = true -> scaleOk (parseFloat value) = true ->
        scale (fst (parseMarkerOptions (xs ++ ["scale:" ++ value]) m))
        = Some (parseFloat value)).
Proof.
  split; [apply parseMarkerOptions_append|].
  destruct (parseMarkerOptions_frame xs m) as [Hl Hi].
  split; [exact Hl|]. split; [exact Hi|].
  intros value Hv Hok. rewrite parseMarkerOptions_append. simpl.
  rewrite (split_noChar _ _ Hv). simpl. now rewrite Hok.
Qed.

Lemma split_cut (c : ascii) (u r : string) :
  noChar c u = true -> split c (u ++ String c r) = u :: split c r.
Proof.
  induction u as [|x u IH]; simpl; intros H.
  - now rewrite Ascii.eqb_refl.
  - apply andb_true_iff in H as [Hx Hu]. apply negb_true_iff in Hx.
    rewrite Hx, (IH Hu). reflexivity.
Qed.

Lemma parseCoordinates_swap (a b : string) :
  parseCoordinates (Some "1") transformer [a; b] = parseCoordinates None transformer [b; a]
  /\ parseCoordinates (Some "true") transformer [a; b]
     = parseCoordinates None transformer [b; a].
Proof.
  unfold parseCoordinates, parseCoordinatePair. simpl.
  destruct (isNaN (parseFloat a)), (isNaN (parseFloat b)); split; reflexivity.
Qed.

Lemma extractMarker_swap (options : Options) (flag a b rest : string) :
  parseCoordinates (Some flag) transformer [a; b] = parseCoordinates None transformer [b; a] ->
  noChar ","%char a = true -> noChar "|"%char a = true ->
  noChar ","%char b = true -> noChar "|"%char b = true ->
  extractMarker sanitize pathResolve (Some flag) transformer options
    (a ++ "," ++ b ++ "|" ++ rest)
  = extractMarker sanitize pathResolve None transformer options
      (b ++ "," ++ a ++ "|" ++ rest).
Proof.
  intros Hswap Hac Hab Hbc Hbb.
  assert (Hparts : forall u v,
            noChar "|"%char u = true -> noChar "|"%char v = true ->
            noChar ","%char u = true -> noChar ","%char v = true ->
            split "|"%char (u ++ "," ++ v ++ "|" ++ rest)
            = (u ++ "," ++ v) :: split "|"%char rest
            /\ split ","%char (u ++ "," ++ v) = [u; v]).
  { intros u v Hu Hv Hu' Hv'. split.
    - replace (u ++ "," ++ v ++ "|" ++ rest) with ((u ++ "," ++ v) ++ String "|" rest)
        by (rewrite !append_assoc; reflexivity).
      apply split_cut. repeat first [rewrite noChar_append | progress simpl].
      now rewrite Hu, Hv.
    - change (u ++ "," ++ v) with (u ++ String "," v).
      rewrite (split_cut _ _ _ Hu'). now rewrite (split_noChar _ _ Hv'). }
  destruct (Hparts a b Hab Hbb Hac Hbc) as [H1 H2].
  destruct (Hparts b a Hbb Hab Hbc Hac) as [H3 H4].
  unfold extractMarker. rewrite H1, H3.
  cbn [nth List.length skipn]. rewrite H2, H4, Hswap. reflexivity.
Qed.

(** X17.  [latlng=1] and [latlng=true] do nothing but swap the two parts
    of a location: a marker given as [a,b|icon|options] with one of them is
    the marker given as [b,a|icon|options] without, accepted or dropped
    alike.  A coordinate pair is rejected exactly when one of its parts does
    not start, after white space, with a decimal literal (a number or
    [Infinity]), or when the transformer throws. *)
Theorem X17_latlng_swaps_the_coordinates (options : Options) (a b rest : string) :
  noChar ","%char a = true -> noChar "|"%char a = true ->
  noChar ","%char b = true -> noChar "|"%char b = true ->
  extractMarker sanitize pathResolve (Some "1") transformer options
    (a ++ "," ++ b ++ "|" ++ rest)
  = extractMarker sanitize pathResolve None transformer options
      (b ++ "," ++ a ++ "|" ++ rest)
  /\ extractMarker sanitize pathResolve (Some "true") transformer options
       (a ++ "," ++ b ++ "|" ++ rest)
     = extractMarker sanitize pathResolve None transformer options
         (b ++ "," ++ a ++ "|" ++ rest)
  /\ (parseCoordinates latlng transformer [a; b] = None
      <-> literal a = None \/ literal b = None
          \/ exists transform pair,
               transformer = Some transform
               /\ parseCoordinatePair latlng [a; b] = Some pair
               /\ transform pair = None).
Proof.
  intros Hac Hab Hbc Hbb.
  destruct (parseCoordinates_swap a b) as [Hone Htrue].
  split; [now apply extractMarker_swap|]. split; [now apply extractMarker_swap|].
  rewrite <- (parseFloat_nan a), <- (parseFloat_nan b).
  unfold parseCoordinates, parseCoordinatePair. simpl.
  destruct (isNaN (parseFloat a)) eqn:Ha; simpl; [split; auto|].
  destruct (isNaN (parseFloat b)) eqn:Hb; simpl; [split; auto|].
  destruct (S3.strIs latlng "1" || S3.strIs latlng "true");
    (destruct transformer as [transform|];
     [split;
      [intros H; right; right; eexists _, _; eauto
      |intros [H|[H|(t & p & Ht & Hp & Hn)]]; try discriminate;
       injection Ht as <-; injection Hp as <-; exact Hn]
     |split; [discriminate | intros [H|[H|(t & p & Ht & _)]]; discriminate]]).
Qed.

End MarkerQueryProperties.

(* ===================================================================== *)
(** ** Properties of the tile route of the data server                    *)
(* ===================================================================== *)

Section DataRouteProperties.
Import Adapter Utils DataRoute.
Variable pbfAlias : option string.
Variable gunzip : list Z -> Settled (list Z).
Variable gzip : list Z -> Settled (list Z).
Variable dataDecoratorFunc :
  option (string -> string -> list Z -> Z -> Z -> Z -> JsError + list Z).
Variable toGeoJSON : list Z -> Z -> Z -> Z -> JsError + list Z.

Lemma inBounds_facts (tj : TileJSON) (z x y : Z) :
  outOfBounds tj z x y = false ->
  (0 <= x)%Z /\ (0 <= y)%Z
  /\ (forall lo, tjMinzoom tj = Some lo -> (lo <= z)%Z)
  /\ (forall hi, tjMaxzoom tj = Some hi -> (z <= hi)%Z)
  /\ ((0 <= z)%Z -> (x < 2 ^ z)%Z /\ (y < 2 ^ z)%Z)
  /\ ((z < 0)%Z -> x = 0%Z /\ y = 0%Z).
Proof.
  unfold outOfBounds, below, above, reaches. intros H.
  repeat (apply orb_false_iff in H as [H ?]).
  destruct (z <? 0)%Z eqn:Hz;
    [apply Z.ltb_lt in Hz | apply Z.ltb_ge in Hz];
    repeat match goal with
           | Hc : (_ <? _)%Z = false |- _ => apply Z.ltb_ge in Hc
           | Hc : (_ <=? _)%Z = false |- _ => apply Z.leb_gt in Hc
           end;
    (split; [lia|]; split; [lia|]; split; [|split; [|split]]).
  all: try (intros lo Hlo; rewrite Hlo in *;
            repeat match goal with
                   | Hc : (_ <? _)%Z = false |- _ => apply Z.ltb_ge in Hc
                   end; lia).
  all: try lia.
Qed.

(** X18.  The tile route of the data server answers 200 only for a tile
    the source returned, whose format is the source's (or [geojson] for a
    [pbf] source) and whose coordinates are within the source's zoom range
    and within the grid of the zoom level; the tile then goes out with
    [Content-Encoding: gzip], without any [ETag], and with every header of
    the source other than these two and [Content-Type] unchanged, after
    [gunzip] accepted it when it was compressed and, for a [pbf] source with
    a decorator, after the decorator returned.  Every 404 is decided before
    the source is queried.  The route answers 410 or 204 exactly when the
    source has no tile, and it leaves a request unanswered only when
    [gunzip], the configured decorator, the GeoJSON conversion or [gzip]
    fails. *)
Theorem X18_data_tiles_are_guarded (id : string) (item : option Item)
    (z x y : option Z) (formatParam : string) :
  let r := tileRoute pbfAlias gunzip gzip dataDecoratorFunc toGeoJSON
             id item z x y formatParam in
  (forall headers body, snd r = Tile headers body ->
     exists it z' x' y' t,
       item = Some it /\ z = Some z' /\ x = Some x' /\ y = Some y'
       /\ (tjFormat (tileJSON it)
           = Some (if S3.strIs pbfAlias formatParam then "pbf" else formatParam)
           \/ (formatParam = "geojson" /\ tjFormat (tileJSON it) = Some "pbf"))
       /\ (0 <= x')%Z /\ (0 <= y')%Z
       /\ (forall lo, tjMinzoom (tileJSON it) = Some lo -> (lo <= z')%Z)
       /\ (forall hi, tjMaxzoom (tileJSON it) = Some hi -> (z' <= hi)%Z)
       /\ ((0 <= z')%Z -> (x' < 2 ^ z')%Z /\ (y' < 2 ^ z')%Z)
       /\ snd (fetchTileData (source it) z' x' y') = Returned (Some t)
       /\ headers !! "Content-Encoding" = Some "gzip"
       /\ headers !! "ETag" = None
       /\ (forall name, name <> "Content-Encoding" -> name <> "ETag" ->
                        name <> "Content-Type" ->
                        headers !! name = Utils.headers t !! name)
       /\ exists unzipped,
            (if Resolver.isGzipped (data t) then gunzip (data t)
             else Resolved (data t)) = Resolved unzipped
            /\ (tjFormat (tileJSON it) = Some "pbf" ->
                forall decorate,
                  dataDecoratorFunc = Some decorate ->
                  exists decorated,
                    decorate id "data" unzipped z' x' y' = inr decorated))
  /\ (forall body, snd r = Status 404 body -> fst r = [])
  /\ (forall code body, snd r = Status code body ->
        code = 404%Z
        \/ ((code = 410%Z \/ code = 204%Z) /\ body = ""
            /\ exists it z' x' y',
                 item = Some it /\ z = Some z' /\ x = Some x' /\ y = Some y'
                 /\ snd (fetchTileData (source it) z' x' y') = Returned None
                 /\ (code = 410%Z <-> truthy (tjSparse (tileJSON it)) = true)))
  /\ (forall msg, snd r = Unanswered msg ->
        exists e, msg = template (message e)
                  /\ ((exists bytes, gunzip bytes = Rejected e)
                      \/ (exists decorate bytes z' x' y',
                             dataDecoratorFunc = Some decorate
                             /\ decorate id "data" bytes z' x' y' = inl e)
                      \/ (exists bytes x' y' z', toGeoJSON bytes x' y' z' = inl e)
                      \/ (exists bytes, gzip bytes = Rejected e))).
Proof.
  cbn zeta. unfold tileRoute.
  assert (Hearly : forall text,
            (forall headers body, Status 404 text = Tile headers body -> False)
            /\ (forall code body, Status 404 text = Status code body -> code = 404%Z)
            /\ (forall msg, Status 404 text = Unanswered msg -> False)).
  { intros text. split; [discriminate|]. split; [|discriminate].
    intros code body H. now injection H as <- _. }
  destruct item as [it|];
    [|simpl; destruct (Hearly "Not Found") as (H1 & H2 & H3);
      split; [intros ? ? H; destruct (H1 _ _ H)|];
      split; [reflexivity|];
      split; [intros ? ? H; left; eapply H2; eauto | intros ? H; destruct (H3 _ H)]].
  assert (Hinvalid : forall text,
            let r : list Effect * Reply := ([], Status 404 text) in
            (forall headers body, snd r = Tile headers body -> False)
            /\ (forall body, snd r = Status 404 body -> fst r = [])
            /\ (forall code body, snd r = Status code body -> code = 404%Z)
            /\ (forall msg, snd r = Unanswered msg -> False)).
  { intros text. simpl. destruct (Hearly text) as (H1 & H2 & H3). auto. }
  destruct z as [z'|], x as [x'|], y as [y'|];
    try (destruct (Hinvalid "Invalid Tile") as (H1 & H2 & H3 & H4); cbn zeta in *;
         split; [intros ? ? H; destruct (H1 _ _ H)|];
         split; [exact H2|];
         split; [intros ? ? H; left; eapply H3; eauto | intros ? H; destruct (H4 _ H)];
         fail).
  cbn zeta.
  destruct (negb (S3.strIs (tjFormat (tileJSON it))
                    (if S3.strIs pbfAlias formatParam then "pbf" else formatParam))
            && negb (String.eqb (if S3.strIs pbfAlias formatParam then "pbf" else formatParam)
                                "geojson"
                     && S3.strIs (tjFormat (tileJSON it)) "pbf")) eqn:Hfmt.
  { destruct (Hinvalid "Invalid format") as (H1 & H2 & H3 & H4); cbn zeta in *.
    split; [intros ? ? H; destruct (H1 _ _ H)|].
    split; [exact H2|].
    split; [intros ? ? H; left; eapply H3; eauto | intros ? H; destruct (H4 _ H)]. }
  destruct (outOfBounds (tileJSON it) z' x' y') eqn:Hout.
  { destruct (Hinvalid "Out of bounds") as (H1 & H2 & H3 & H4); cbn zeta in *.
    split; [intros ? ? H; destruct (H1 _ _ H)|].
    split; [exact H2|].
    split; [intros ? ? H; left; eapply H3; eauto | intros ? H; destruct (H4 _ H)]. }
  assert (Hformat :
            tjFormat (tileJSON it)
            = Some (if S3.strIs pbfAlias formatParam then "pbf" else formatParam)
            \/ (formatParam = "geojson" /\ tjFormat (tileJSON it) = Some "pbf")).
  { apply andb_false_iff in Hfmt as [H|H]; apply negb_false_iff in H.
    - left. destruct (tjFormat (tileJSON it)) as [f|]; [|discriminate].
      simpl in H. apply String.eqb_eq in H. now subst.
    - right. apply andb_true_iff in H as [Hg Hp].
      destruct (tjFormat (tileJSON it)) as [f|]; [|discriminate].
      simpl in Hp. apply String.eqb_eq in Hp. subst f.
      destruct (S3.strIs pbfAlias formatParam); [discriminate|].
      apply String.eqb_eq in Hg. auto. }
  destruct (inBounds_facts _ _ _ _ Hout) as (Hx & Hy & Hlo & Hhi & Hgrid & _).
  destruct (fetchTileData_returns (source it) z' x' y') as [v Hv].
  destruct (fetchTileData (source it) z' x' y') as [tr c] eqn:Hfetch.
  simpl in Hv. subst c.
  destruct v as [t|].
  - set (fmt := if S3.strIs pbfAlias formatParam then "pbf" else formatParam) in *.
    destruct (if Resolver.isGzipped (data t) then gunzip (data t) else Resolved (data t))
      as [data1|e] eqn:Hunzip.
    + destruct (if S3.strIs (tjFormat (tileJSON it)) "pbf"
                then match dataDecoratorFunc with
                     | Some f => f id "data" data1 z' x' y'
                     | None => inr data1
                     end
                else inr data1) as [e|data2] eqn:Hdecorated;
        [simpl; split; [discriminate|]; split; [discriminate|];
         split; [discriminate|];
         intros msg H; injection H as <-; exists e; split; [reflexivity|];
         right; left;
         destruct (S3.strIs (tjFormat (tileJSON it)) "pbf"); [|discriminate];
         destruct dataDecoratorFunc as [decorate|]; [|discriminate];
         exists decorate, data1, z', x', y'; auto|].
      destruct (String.eqb fmt "pbf") eqn:Hpbf;
        [|destruct (String.eqb fmt "geojson") eqn:Hgeo;
          [destruct (toGeoJSON data2 x' y' z') as [e|json] eqn:Hjson|]].
      * destruct (gzip data2) as [body|e] eqn:Hgz; simpl.
        -- split; [|split; [discriminate | split; [discriminate | discriminate]]].
           intros h b H. injection H as <- <-.
           exists it, z', x', y', t.
           do 4 (split; [reflexivity|]). do 6 (split; [assumption|]).
           split; [now rewrite Hfetch|].
           split; [now simplify_map_eq|]. split; [now simplify_map_eq|].
           split; [intros name H1 H2 H3; now simplify_map_eq|].
           exists data1. split; [exact Hunzip|].
           intros Hp decorate Hd. rewrite Hp, Hd in Hdecorated.
           simpl in Hdecorated. eauto.
        -- split; [discriminate|]. split; [discriminate|]. split; [discriminate|].
           intros msg H. injection H as <-. exists e. split; [reflexivity|].
           right. right. right. eauto.
      * simpl. split; [discriminate|]. split; [discriminate|]. split; [discriminate|].
        intros msg H. injection H as <-. exists e. split; [reflexivity|].
        right. right. left. eauto.
      * destruct (gzip json) as [body|e] eqn:Hgz; simpl.
        -- split; [|split; [discriminate | split; [discriminate | discriminate]]].
           intros h b H. injection H as <- <-.
           exists it, z', x', y', t.
           do 4 (split; [reflexivity|]). do 6 (split; [assumption|]).
           split; [now rewrite Hfetch|].
           split; [now simplify_map_eq|]. split; [now simplify_map_eq|].
           split; [intros name H1 H2 H3; now simplify_map_eq|].
           exists data1. split; [exact Hunzip|].
           intros Hp decorate Hd. rewrite Hp, Hd in Hdecorated.
           simpl in Hdecorated. eauto.
        -- split; [discriminate|]. split; [discriminate|]. split; [discriminate|].
           intros msg H. injection H as <-. exists e. split; [reflexivity|].
           right. right. right. eauto.
      * destruct (gzip data2) as [body|e] eqn:Hgz; simpl.
        -- split; [|split; [discriminate | split; [discriminate | discriminate]]].
           intros h b H. injection H as <- <-.
           exists it, z', x', y', t.
           do 4 (split; [reflexivity|]). do 6 (split; [assumption|]).
           split; [now rewrite Hfetch|].
           split; [now simplify_map_eq|]. split; [now simplify_map_eq|].
           split; [intros name H1 H2 H3; now simplify_map_eq|].
           exists data1. split; [exact Hunzip|].
           intros Hp decorate Hd. rewrite Hp, Hd in Hdecorated.
           simpl in Hdecorated. eauto.
        -- split; [discriminate|]. split; [discriminate|]. split; [discriminate|].
           intros msg H. injection H as <-. exists e. split; [reflexivity|].
           right. right. right. eauto.
    + simpl. split; [discriminate|]. split; [discriminate|]. split; [discriminate|].
      intros msg H. injection H as <-. exists e. split; [reflexivity|].
      left. destruct (Resolver.isGzipped (data t)); [eauto | discriminate].
  - destruct (truthy (tjSparse (tileJSON it))) eqn:Hsparse; simpl.
    + split; [discriminate|]. split; [discriminate|]. split; [|discriminate].
      intros code body H. injection H as <- <-. right.
      split; [auto|]. split; [reflexivity|].
      exists it, z', x', y'. rewrite Hfetch, Hsparse. repeat split; auto.
    + split; [discriminate|]. split; [discriminate|]. split; [|discriminate].
      intros code body H. injection H as <- <-. right.
      split; [auto|]. split; [reflexivity|].
      exists it, z', x', y'. rewrite Hfetch, Hsparse.
      repeat split; auto; discriminate.
Qed.

End DataRouteProperties.

(* ===================================================================== *)
(** ** Properties of the preparation of a style                           *)
(* ===================================================================== *)

Section StyleProperties.
Import Style.

Lemma flatten_lookup (prop name : string) (p : gmap string StyleValue) :
  flatten prop p !! name
  = if String.eqb name prop
    then (if truthyValue (p !! prop) then Some (SScalar (JNum 0%float)) else p !! prop)
    else p !! name.
Proof.
  unfold flatten. destruct (String.eqb name prop) eqn:E.
  - apply String.eqb_eq in E. subst name.
    destruct (truthyValue (p !! prop)); [now rewrite lookup_insert_eq | reflexivity].
  - apply String.eqb_neq in E.
    destruct (truthyValue (p !! prop)); [|reflexivity].
    rewrite lookup_insert_ne; [reflexivity | congruence].
Qed.

Lemma removeProperty_lookup (prop name : string) (p : gmap string StyleValue) :
  removeProperty p prop !! name = if String.eqb name prop then None else p !! name.
Proof.
  unfold removeProperty. destruct (String.eqb name prop) eqn:E.
  - apply String.eqb_eq in E. subst name.
    destruct (p !! prop) eqn:Hp; [now rewrite lookup_delete_eq | exact Hp].
  - apply String.eqb_neq in E.
    destruct (p !! prop); [|reflexivity].
    rewrite lookup_delete_ne; [reflexivity | congruence].
Qed.

(** The paint after the loop, property by property. *)
Lemma sanitizePaint_lookup (p : gmap string StyleValue) (name : string) :
  sanitizePaint p !! name
  = if String.eqb name "fill-extrusion-height" || String.eqb name "fill-extrusion-base"
    then (if truthyValue (p !! name) then Some (SScalar (JNum 0%float)) else p !! name)
    else if String.eqb name "hillshade-method"
            || String.eqb name "hillshade-illumination-direction"
            || String.eqb name "hillshade-highlight-color"
    then None
    else if String.eqb name "hillshade-shadow-color"
    then (if isArray (p !! name) then None else p !! name)
    else p !! name.
Proof.
  assert (Hstage : forall k,
            fold_left removeProperty hillshadePropertiesToRemove
              (flatten "fill-extrusion-base" (flatten "fill-extrusion-height" p)) !! k
            = if String.eqb k "hillshade-highlight-color" then None
              else if String.eqb k "hillshade-illumination-direction" then None
              else if String.eqb k "hillshade-method" then None
              else if String.eqb k "fill-extrusion-base"
              then (if truthyValue (p !! "fill-extrusion-base")
                    then Some (SScalar (JNum 0%float)) else p !! "fill-extrusion-base")
              else if String.eqb k "fill-extrusion-height"
              then (if truthyValue (p !! "fill-extrusion-height")
                    then Some (SScalar (JNum 0%float)) else p !! "fill-extrusion-height")
              else p !! k).
  { intros k. simpl. rewrite !removeProperty_lookup, !flatten_lookup. reflexivity. }
  unfold sanitizePaint. cbn zeta.
  rewrite (Hstage "hillshade-shadow-color"). simpl.
  destruct (isArray (p !! "hillshade-shadow-color")) eqn:Harr.
  - destruct (String.eqb name "hillshade-shadow-color") eqn:E.
    + apply String.eqb_eq in E. subst name. simpl. rewrite Harr.
      now rewrite lookup_delete_eq.
    + apply String.eqb_neq in E. rewrite lookup_delete_ne by congruence.
      rewrite Hstage.
      destruct (String.eqb name "hillshade-highlight-color") eqn:E1;
        [apply String.eqb_eq in E1; subst; reflexivity|].
      destruct (String.eqb name "hillshade-illumination-direction") eqn:E2;
        [apply String.eqb_eq in E2; subst; reflexivity|].
      destruct (String.eqb name "hillshade-method") eqn:E3;
        [apply String.eqb_eq in E3; subst; reflexivity|].
      destruct (String.eqb name "fill-extrusion-base") eqn:E4;
        [apply String.eqb_eq in E4; subst; reflexivity|].
      destruct (String.eqb name "fill-extrusion-height") eqn:E5;
        [apply String.eqb_eq in E5; subst; reflexivity|].
      reflexivity.
  - rewrite Hstage.
    destruct (String.eqb name "hillshade-highlight-color") eqn:E1;
      [apply String.eqb_eq in E1; subst; reflexivity|].
    destruct (String.eqb name "hillshade-illumination-direction") eqn:E2;
      [apply String.eqb_eq in E2; subst; reflexivity|].
    destruct (String.eqb name "hillshade-method") eqn:E3;
      [apply String.eqb_eq in E3; subst; reflexivity|].
    destruct (String.eqb name "fill-extrusion-base") eqn:E4;
      [apply String.eqb_eq in E4; subst; reflexivity|].
    destruct (String.eqb name "fill-extrusion-height") eqn:E5;
      [apply String.eqb_eq in E5; subst; reflexivity|].
    simpl.
    destruct (String.eqb name "hillshade-shadow-color") eqn:E6;
      [apply String.eqb_eq in E6; subst; now rewrite Harr | reflexivity].
Qed.

(** X19.  The paint of a layer after the style is prepared: the three
    hillshade properties MapLibre Native does not know are gone; a
    [hillshade-shadow-color] that was an array is gone and any other is
    kept; neither extrusion property is left with a truthy value, a truthy
    one having become the number 0; every other property is as it was; and
    preparing the paint a second time changes nothing. *)
Theorem X19_paint_is_made_renderable (p : gmap string StyleValue) :
  sanitizePaint p !! "hillshade-method" = None
  /\ sanitizePaint p !! "hillshade-illumination-direction" = None
  /\ sanitizePaint p !! "hillshade-highlight-color" = None
  /\ isArray (sanitizePaint p !! "hillshade-shadow-color") = false
  /\ (isArray (p !! "hillshade-shadow-color") = false ->
      sanitizePaint p !! "hillshade-shadow-color" = p !! "hillshade-shadow-color")
  /\ truthyValue (sanitizePaint p !! "fill-extrusion-height") = false
  /\ truthyValue (sanitizePaint p !! "fill-extrusion-base") = false
  /\ (truthyValue (p !! "fill-extrusion-height") = true ->
      sanitizePaint p !! "fill-extrusion-height" = Some (SScalar (JNum 0%float)))
  /\ (forall name, ~ In name touched -> sanitizePaint p !! name = p !! name)
  /\ sanitizePaint (sanitizePaint p) = sanitizePaint p.
Proof.
  assert (Hshadow : isArray (sanitizePaint p !! "hillshade-shadow-color") = false).
  { rewrite sanitizePaint_lookup. simpl.
    destruct (isArray (p !! "hillshade-shadow-color")) eqn:E; [reflexivity | exact E]. }
  assert (Hheight : truthyValue (sanitizePaint p !! "fill-extrusion-height") = false).
  { rewrite sanitizePaint_lookup. simpl.
    destruct (truthyValue (p !! "fill-extrusion-height")) eqn:E; [reflexivity | exact E]. }
  assert (Hbase : truthyValue (sanitizePaint p !! "fill-extrusion-base") = false).
  { rewrite sanitizePaint_lookup. simpl.
    destruct (truthyValue (p !! "fill-extrusion-base")) eqn:E; [reflexivity | exact E]. }
  split; [now rewrite sanitizePaint_lookup|].
  split; [now rewrite sanitizePaint_lookup|].
  split; [now rewrite sanitizePaint_lookup|].
  split; [exact Hshadow|].
  split; [intros H; rewrite sanitizePaint_lookup; simpl; now rewrite H|].
  split; [exact Hheight|]. split; [exact Hbase|].
  split; [intros H; rewrite sanitizePaint_lookup; simpl; now rewrite H|].
  split.
  - intros name Hname. rewrite sanitizePaint_lookup.
    unfold touched in Hname. simpl in Hname.
    repeat match goal with
           | |- context [String.eqb name ?k] =>
               destruct (String.eqb name k) eqn:?;
               [exfalso; apply Hname;
                match goal with E : String.eqb name _ = true |- _ =>
                  apply String.eqb_eq in E; subst; tauto end|]
           end.
    reflexivity.
  - apply map_eq. intros name.
    rewrite (sanitizePaint_lookup (sanitizePaint p) name).
    destruct (String.eqb name "fill-extrusion-height") eqn:E1;
      [apply String.eqb_eq in E1; subst; simpl; now rewrite Hheight|].
    destruct (String.eqb name "fill-extrusion-base") eqn:E2;
      [apply String.eqb_eq in E2; subst; simpl; now rewrite Hbase|].
    simpl.
    destruct (String.eqb name "hillshade-method") eqn:E3;
      [apply String.eqb_eq in E3; subst; now rewrite sanitizePaint_lookup|].
    destruct (String.eqb name "hillshade-illumination-direction") eqn:E4;
      [apply String.eqb_eq in E4; subst; now rewrite sanitizePaint_lookup|].
    destruct (String.eqb name "hillshade-highlight-color") eqn:E5;
      [apply String.eqb_eq in E5; subst; now rewrite sanitizePaint_lookup|].
    simpl.
    destruct (String.eqb name "hillshade-shadow-color") eqn:E6;
      [apply String.eqb_eq in E6; subst; now rewrite Hshadow | reflexivity].
Qed.

Lemma includes_refl (s : string) : includes s s = true.
Proof.
  destruct s as [|c s]; [reflexivity|].
  cbn [includes].
  pose proof (prefix_self_append (String c s) "") as H.
  rewrite append_nil_r in H. now rewrite H.
Qed.

Lemma includes_append_l (t x s : string) :
  includes t s = true -> includes (t ++ x) s = true.
Proof.
  induction t as [|c t IH]; intros H.
  - destruct s as [|d s]; [|simpl in H; discriminate].
    simpl. now destruct x.
  - cbn [includes] in H. change (String c t ++ x) with (String c (t ++ x)).
    cbn [includes].
    destruct (String.prefix s (String c t)) eqn:Hp.
    + apply (prefix_append _ _ x) in Hp.
      change (String c t ++ x) with (String c (t ++ x)) in Hp. now rewrite Hp.
    + rewrite (IH H). now destruct (String.prefix s (String c (t ++ x))).
Qed.

Lemma includes_append_r (t s : string) : includes (t ++ s) s = true.
Proof.
  induction t as [|c t IH]; [apply includes_refl|].
  change (String c t ++ s) with (String c (t ++ s)). cbn [includes].
  rewrite IH. now destruct (String.prefix s (String c (t ++ s))).
Qed.

Lemma addAttribution_extends (o : bool) (a : string) (src : option string) :
  exists rest, addAttribution o a src = a ++ rest.
Proof.
  unfold addAttribution. destruct src as [s|]; [|exists ""; now rewrite append_nil_r].
  destruct (negb o && negb (String.eqb s "")); [|exists ""; now rewrite append_nil_r].
  destruct (includes a s); [exists ""; now rewrite append_nil_r|].
  destruct (String.eqb a "").
  - now exists s.
  - exists (" | " ++ s). now rewrite append_assoc.
Qed.

Lemma mergeAttributions_extends (o : bool) (sources : list (option string)) :
  forall a, exists rest, mergeAttributions o a sources = a ++ rest.
Proof.
  unfold mergeAttributions.
  induction sources as [|src sources IH]; intros a; simpl.
  - exists "". now rewrite append_nil_r.
  - destruct (addAttribution_extends o a src) as [r1 ->].
    destruct (IH (a ++ r1)) as [r2 ->]. exists (r1 ++ r2). now rewrite append_assoc.
Qed.

Lemma addAttribution_includes (a s : string) :
  s <> "" -> includes (addAttribution false a (Some s)) s = true.
Proof.
  intros Hs. unfold addAttribution. apply String.eqb_neq in Hs. rewrite Hs. simpl.
  destruct (includes a s) eqn:Hin; [exact Hin|].
  apply includes_append_r.
Qed.

Lemma mergeAttributions_includes (sources : list (option string)) :
  forall a s, s <> "" -> In (Some s) sources ->
              includes (mergeAttributions false a sources) s = true.
Proof.
  unfold mergeAttributions.
  induction sources as [|src sources IH]; intros a s Hs Hin; [destruct Hin|].
  simpl. destruct Hin as [->|Hin].
  - destruct (mergeAttributions_extends false sources (addAttribution false a (Some s)))
      as [rest Hrest].
    unfold mergeAttributions in Hrest. rewrite Hrest.
    apply includes_append_l. now apply addAttribution_includes.
  - now apply IH.
Qed.

Lemma mergeAttributions_fixed (o : bool) (sources : list (option string)) (a : string) :
  (forall s, s <> "" -> In (Some s) sources -> o = false -> includes a s = true) ->
  mergeAttributions o a sources = a.
Proof.
  unfold mergeAttributions.
  induction sources as [|src sources IH]; intros H; simpl; [reflexivity|].
  assert (Hstep : addAttribution o a src = a).
  { unfold addAttribution. destruct src as [s|]; [|reflexivity].
    destruct o; [reflexivity|]. simpl.
    destruct (String.eqb s "") eqn:Hs; [reflexivity|]. simpl.
    apply String.eqb_neq in Hs. rewrite (H s Hs); [reflexivity | now left | reflexivity]. }
  rewrite Hstep. apply IH. intros s Hs Hin Ho. apply H; auto. now right.
Qed.

(** X20.  The attribution of a rendered style.  With an attribution
    configured for the style the sources add nothing.  Without one, the
    attribution only grows, by appending; the attribution of every source
    that has one ends up contained in it; and merging the same sources a
    second time changes nothing, so no attribution is listed twice. *)
Theorem X20_attribution_covers_every_source (attribution : string)
    (sources : list (option string)) :
  mergeAttributions true attribution sources = attribution
  /\ (forall o, exists rest,
        mergeAttributions o attribution sources = attribution ++ rest)
  /\ (forall s, s <> "" -> In (Some s) sources ->
        includes (mergeAttributions false attribution sources) s = true)
  /\ (forall o, mergeAttributions o (mergeAttributions o attribution sources) sources
                = mergeAttributions o attribution sources).
Proof.
  split; [|split; [|split]].
  - apply mergeAttributions_fixed. intros s _ _ Ho. discriminate.
  - intros o. apply mergeAttributions_extends.
  - intros s Hs Hin. now apply mergeAttributions_includes.
  - intros o. apply mergeAttributions_fixed. intros s Hs Hin ->.
    now apply mergeAttributions_includes.
Qed.

Lemma element_last (l : list Z) (s : Z) :
  l <> [] -> (1 <= s)%Z ->
  exists a, element l (Z.min (Z.of_nat (List.length l) - 1) (s - 1)) = Some a
            /\ In a l
            /\ ((s <= Z.of_nat (List.length l))%Z ->
                nth_error l (Z.to_nat (s - 1)) = Some a)
            /\ ((Z.of_nat (List.length l) <= s)%Z ->
                nth_error l (List.length l - 1) = Some a).
Proof.
  intros Hl Hs. unfold element.
  assert (Hlen : 0 < List.length l) by (destruct l; [congruence | simpl; lia]).
  set (i := Z.min (Z.of_nat (List.length l) - 1) (s - 1)).
  assert (Hi : (0 <= i < Z.of_nat (List.length l))%Z) by (unfold i; lia).
  destruct (i <? 0)%Z eqn:E; [apply Z.ltb_lt in E; lia|].
  destruct (nth_error l (Z.to_nat i)) as [a|] eqn:Ha.
  - exists a. split; [reflexivity|]. split; [eapply nth_error_In; eauto|].
    split; intros Hle.
    + replace (Z.to_nat (s - 1)) with (Z.to_nat i) by (unfold i; lia). exact Ha.
    + replace (List.length l - 1) with (Z.to_nat i) by (unfold i; lia). exact Ha.
  - apply nth_error_None in Ha. lia.
Qed.

(** X21.  The renderer pools: for non-empty lists of sizes, every scale
    from 1 on gets a minimum and a maximum, the maximum is never below the
    minimum, a scale within the list takes the entry at its position and a
    scale beyond it the last entry.  With nothing configured the pools are
    8 to 16 renderers for scale 1, 4 to 8 for scale 2 and 2 to 4 from scale
    3 on. *)
Theorem X21_pool_sizes_are_ordered (minPoolSizes maxPoolSizes : list Z) (s : Z) :
  (minPoolSizes <> [] -> maxPoolSizes <> [] -> (1 <= s)%Z ->
   exists a b,
     poolSizes minPoolSizes maxPoolSizes s = (Some a, Some (Z.max a b))
     /\ (a <= Z.max a b)%Z
     /\ In a minPoolSizes /\ In b maxPoolSizes
     /\ ((s <= Z.of_nat (List.length minPoolSizes))%Z ->
         nth_error minPoolSizes (Z.to_nat (s - 1)) = Some a)
     /\ ((Z.of_nat (List.length minPoolSizes) <= s)%Z ->
         nth_error minPoolSizes (List.length minPoolSizes - 1) = Some a))
  /\ rendererPools None None 3
     = [ (1, (Some 8, Some 16)); (2, (Some 4, Some 8)); (3, (Some 2, Some 4)) ]%Z
  /\ ((3 <= s)%Z ->
      poolSizes (configured None [8; 4; 2]%Z) (configured None [16; 8; 4]%Z) s
      = (Some 2, Some 4)%Z).
Proof.
  split; [|split].
  - intros Hmin Hmax Hs.
    destruct (element_last minPoolSizes s Hmin Hs) as (a & Ha & Hina & Hpos & Hlast).
    destruct (element_last maxPoolSizes s Hmax Hs) as (b & Hb & Hinb & _).
    exists a, b. unfold poolSizes. cbn zeta. rewrite Ha, Hb.
    repeat split; auto. lia.
  - reflexivity.
  - intros Hs. unfold poolSizes, configured. simpl List.length.
    replace (Z.min (Z.of_nat 3 - 1) (s - 1)) with 2%Z by lia. reflexivity.
Qed.

End StyleProperties.

(* ===================================================================== *)
(** ** Properties of scales and of a tile request                         *)
(* ===================================================================== *)

Section TileRequestProperties.
Import TileRequest.
Variable sameInstant : string -> string -> bool.
Variable tileCenter : Z -> Z -> Z -> float * float.

Lemma showNat_digit (n : nat) :
  n <= 9 -> showNat n = String (ascii_of_nat (48 + n)) "".
Proof.
  intros H. do 10 (destruct n as [|n]; [reflexivity|]). lia.
Qed.

Lemma scaleClass_digit (m : nat) :
  2 <= m -> m <= 9 ->
  scaleClass m
  = Some (fun c => ((50 <=? nat_of_ascii c)%nat && (nat_of_ascii c <=? 48 + m)%nat)
                   || negb (noChar c "")).
Proof.
  intros H2 H9. unfold scaleClass. rewrite (showNat_digit m H9).
  rewrite nat_ascii_embedding by lia.
  destruct (48 + m <? 50)%nat eqn:E; [apply Nat.ltb_lt in E; lia | reflexivity].
Qed.

Lemma allowedScales_spec (s : string) (m : nat) :
  2 <= m -> m <= 9 ->
  (forall n, allowedScales (Some s) m = inr (Some n)
             <-> 2 <= n /\ n <= m /\ s = showNat n ++ "x")
  /\ (exists r, allowedScales (Some s) m = inr r).
Proof.
  intros H2 H9. unfold allowedScales. rewrite (scaleClass_digit m H2 H9).
  split.
  - intros n. split.
    + destruct s as [|c [|x [|y s]]]; try discriminate.
      destruct (Ascii.eqb x "x") eqn:Ex; [|rewrite andb_false_r; discriminate].
      apply Ascii.eqb_eq in Ex. subst x. rewrite andb_true_r.
      destruct ((50 <=? nat_of_ascii c)%nat && (nat_of_ascii c <=? 48 + m)%nat) eqn:Hc;
        simpl; [|discriminate].
      intros H. injection H as <-.
      apply andb_true_iff in Hc as [Hlo Hhi].
      apply Nat.leb_le in Hlo. apply Nat.leb_le in Hhi.
      split; [lia|]. split; [lia|].
      rewrite showNat_digit by lia.
      replace (48 + (nat_of_ascii c - 48)) with (nat_of_ascii c) by lia.
      now rewrite ascii_nat_embedding.
    + intros (Hn2 & Hnm & ->). rewrite showNat_digit by lia.
      change (String (ascii_of_nat (48 + n)) "" ++ "x")
        with (String (ascii_of_nat (48 + n)) (String "x" "")).
      cbv beta iota. rewrite nat_ascii_embedding by lia.
      assert (Hlo : (50 <=? 48 + n)%nat = true) by (apply Nat.leb_le; lia).
      assert (Hhi : (48 + n <=? 48 + m)%nat = true) by (apply Nat.leb_le; lia).
      rewrite Hlo, Hhi. simpl. do 2 f_equal. lia.
  - destruct s as [|c [|x [|y s]]]; eauto.
    destruct ((((50 <=? nat_of_ascii c)%nat && (nat_of_ascii c <=? 48 + m)%nat)
               || negb (noChar c "")) && Ascii.eqb x "x"); eauto.
Qed.

(** X22.  [allowedScales]: a request without a scale has scale 1, whatever
    the maximum is; for a maximum from 2 to 9 the call never throws and
    accepts exactly the strings [2x] to [<maximum>x], returning the number
    before the [x], so never more than the maximum; for a maximum of 0 or 1
    every request that names a scale makes the call throw, the pattern
    having a range out of order. *)
Theorem X22_scales_up_to_the_maximum (s : string) (m : nat) :
  allowedScales None m = inr (Some 1)
  /\ (2 <= m -> m <= 9 ->
      (forall n, allowedScales (Some s) m = inr (Some n)
                 <-> 2 <= n /\ n <= m /\ s = showNat n ++ "x")
      /\ (exists r, allowedScales (Some s) m = inr r))
  /\ (m <= 1 -> allowedScales (Some s) m = inl (rangeError m)).
Proof.
  split; [reflexivity|]. split; [apply allowedScales_spec|].
  intros Hm. destruct m as [|[|m]]; [reflexivity | reflexivity | lia].
Qed.

Lemma hasPool_range (options : Options) (maxScaleFactor scale : nat) :
  hasPool options maxScaleFactor scale = true <-> 1 <= scale /\ scale <= maxScaleFactor.
Proof.
  unfold hasPool, Style.rendererPools. rewrite existsb_exists. split.
  - intros ([k sizes] & Hin & Hk). apply in_map_iff in Hin as (s & Heq & Hs).
    injection Heq as <- _. apply in_seq in Hs. simpl in Hk. apply Z.eqb_eq in Hk. lia.
  - intros [H1 H2]. eexists. split.
    + apply in_map_iff. exists scale. split; [reflexivity|]. apply in_seq. lia.
    + simpl. apply Z.eqb_refl.
Qed.

Lemma respondImage_render (options : Options) (maxScaleFactor : nat)
    (lon lat : float) (width height : option Z) (scale : nat)
    (format : option string) (mode : string)
    (pool : PoolKind) (scale' : nat) (format' : string) (lon' lat' : float) (w h : Z) :
  respondImage options maxScaleFactor lon lat width height scale format mode
  = Render pool scale' format' lon' lat' w h ->
  scale' = scale /\ lon' = lon /\ lat' = lat /\ width = Some w /\ height = Some h
  /\ (0 < w)%Z /\ (0 < h)%Z
  /\ (Z.max w h * Z.of_nat scale <= maxSizeOf options)%Z
  /\ (format' = "png" \/ format' = "webp" \/ format' = "jpeg")
  /\ (format = Some format' \/ (format = Some "jpg" /\ format' = "jpeg"))
  /\ 1 <= scale /\ scale <= maxScaleFactor
  /\ isNaN lon = false /\ isNaN lat = false
  /\ PrimFloat.ltb 180 (PrimFloat.abs lon) = false
  /\ PrimFloat.ltb 85.06 (PrimFloat.abs lat) = false
  /\ pool = (if String.eqb mode "tile" && (tileMarginOf options =? 0)%Z
             then TilePool else StaticPool).
Proof.
  unfold respondImage.
  destruct (PrimFloat.ltb 180 (PrimFloat.abs lon)) eqn:H1; [discriminate|].
  destruct (PrimFloat.ltb 85.06 (PrimFloat.abs lat)) eqn:H2; [discriminate|].
  destruct (isNaN lon) eqn:H3; [discriminate|].
  destruct (isNaN lat) eqn:H4; [discriminate|]. simpl.
  destruct (invalidSize options width height scale) eqn:Hsize; [discriminate|].
  unfold invalidSize in Hsize.
  destruct width as [w0|]; [|discriminate]. destruct height as [h0|]; [|discriminate].
  apply orb_false_iff in Hsize as [Hmin Hmax].
  apply Z.leb_gt in Hmin. apply Z.ltb_ge in Hmax.
  assert (Hfmt : forall f,
            (if S3.strIs format "png" || S3.strIs format "webp" then format
             else if S3.strIs format "jpg" || S3.strIs format "jpeg" then Some "jpeg"
                  else None) = Some f ->
            (f = "png" \/ f = "webp" \/ f = "jpeg")
            /\ (format = Some f \/ (format = Some "jpg" /\ f = "jpeg"))).
  { intros f. destruct format as [g|]; simpl; [|discriminate].
    destruct (String.eqb g "png") eqn:E1; simpl.
    { apply String.eqb_eq in E1. subst g. intros H. injection H as <-. auto. }
    destruct (String.eqb g "webp") eqn:E2; simpl.
    { apply String.eqb_eq in E2. subst g. intros H. injection H as <-. auto. }
    destruct (String.eqb g "jpg") eqn:E3; simpl.
    { apply String.eqb_eq in E3. subst g. intros H. injection H as <-. auto. }
    destruct (String.eqb g "jpeg") eqn:E4; simpl; [|discriminate].
    apply String.eqb_eq in E4. subst g. intros H. injection H as <-. auto. }
  destruct (if S3.strIs format "png" || S3.strIs format "webp" then format
            else if S3.strIs format "jpg" || S3.strIs format "jpeg" then Some "jpeg"
                 else None) as [f|] eqn:Hf; [|discriminate].
  destruct (Hfmt f eq_refl) as [Hf1 Hf2].
  destruct (hasPool options maxScaleFactor scale) eqn:Hpool; [|discriminate].
  apply hasPool_range in Hpool as [Hs1 Hs2].
  intros H. injection H as <- <- <- <- <- <- <-.
  repeat split; auto; lia.
Qed.

(** X23.  A tile request of the rendered-map server reaches a renderer
    only when everything about it is in order: the zoom is between 0 and 22
    and the tile within the grid of that zoom; the tile size, when the
    request names one, is 256 or 512, the image being square of that size;
    the size times the scale is within the configured maximum; the scale is
    between 1 and the maximum scale factor, for which a pool exists; and the
    format is [png], [webp] or [jpeg], [jpg] being rendered as [jpeg].  A
    tile size other than 256 and 512 is never answered with
    "Invalid Tile Size": the request ends with another reply, or throws. *)
Theorem X23_tile_requests_are_validated (options : Options) (maxScaleFactor : nat)
    (defaultTileSize : option Z) (item : option string)
    (modifiedSince cacheControl tileSize : option string) (z x y : Z)
    (scaleParam format : option string) :
  let outcome :=
    handleTileRequest sameInstant tileCenter options maxScaleFactor defaultTileSize
      item modifiedSince cacheControl tileSize z x y scaleParam format in
  (forall pool scale format' lon lat w h,
     outcome = Render pool scale format' lon lat w h ->
     (0 <= z <= 22)%Z /\ (0 <= x < 2 ^ z)%Z /\ (0 <= y < 2 ^ z)%Z
     /\ w = h
     /\ (forall ts, tileSize = Some ts -> ts <> "" ->
           (ts = "256" /\ w = 256%Z) \/ (ts = "512" /\ w = 512%Z))
     /\ (S3.truthyStr tileSize = false -> defaultTileSize = Some w)
     /\ (0 < w)%Z /\ (w * Z.of_nat scale <= maxSizeOf options)%Z
     /\ 1 <= scale /\ scale <= maxScaleFactor
     /\ (scaleParam = None -> scale = 1)
     /\ (format' = "png" \/ format' = "webp" \/ format' = "jpeg")
     /\ (format = Some format' \/ (format = Some "jpg" /\ format' = "jpeg"))
     /\ (lon, lat) = tileCenter x y z
     /\ pool = (if (tileMarginOf options =? 0)%Z then TilePool else StaticPool))
  /\ outcome <> Reply 400 "Invalid Tile Size".
Proof.
  cbn zeta. unfold handleTileRequest.
  destruct item as [lastModified|]; [|split; [discriminate | discriminate]].
  destruct (S3.truthyStr modifiedSince
            && (negb (S3.truthyStr cacheControl)
                || negb (includes (S3.nullish cacheControl "") "no-cache"))
            && sameInstant lastModified (S3.nullish modifiedSince ""));
    [split; [discriminate | discriminate]|].
  destruct (allowedScales scaleParam maxScaleFactor) as [msg|[scale|]] eqn:Hscale;
    [split; discriminate | | ].
  2: { unfold looseEqNull. rewrite andb_false_r. split; discriminate. }
  unfold looseEqNull. rewrite andb_false_r.
  destruct ((z <? 0)%Z || (x <? 0)%Z || (y <? 0)%Z || (22 <? z)%Z
            || (2 ^ z <=? x)%Z || (2 ^ z <=? y)%Z) eqn:Hb;
    [split; discriminate|].
  repeat (apply orb_false_iff in Hb as [Hb ?]).
  repeat match goal with
         | Hc : (_ <? _)%Z = false |- _ => apply Z.ltb_ge in Hc
         | Hc : (_ <=? _)%Z = false |- _ => apply Z.leb_gt in Hc
         end.
  split.
  - intros pool scale' format' lon lat w h Hr.
    apply respondImage_render in Hr
      as (-> & -> & -> & Hw & Hh & Hw0 & Hh0 & Hmax & Hf1 & Hf2 & Hs1 & Hs2
          & _ & _ & _ & _ & Hpool).
    assert (Hwh : w = h) by congruence. subst h.
    rewrite Z.max_id in Hmax.
    split; [lia|]. split; [lia|]. split; [lia|]. split; [reflexivity|].
    split.
    { intros ts -> Hts. simpl in Hw. apply String.eqb_neq in Hts. rewrite Hts in Hw.
      simpl in Hw. unfold parsedTileSizeOf in Hw.
      destruct (String.eqb ts "256") eqn:E1.
      - apply String.eqb_eq in E1. left. split; [exact E1 | congruence].
      - destruct (String.eqb ts "512") eqn:E2; [|discriminate].
        apply String.eqb_eq in E2. right. split; [exact E2 | congruence]. }
    split; [intros Hts; now rewrite Hts in Hw|].
    split; [exact Hw0|]. split; [exact Hmax|].
    split; [exact Hs1|]. split; [exact Hs2|].
    split.
    { intros ->. simpl in Hscale. now injection Hscale as <-. }
    split; [exact Hf1|]. split; [exact Hf2|].
    split; [now destruct (tileCenter x y z)|].
    exact Hpool.
  - unfold respondImage.
    repeat match goal with
           | |- context [if ?c then _ else _] => destruct c
           | |- context [match ?o with Some _ => _ | None => _ end] => destruct o
           end; discriminate.
Qed.

End TileRequestProperties.

(* ===================================================================== *)
(** ** Properties of the registration of a data source                    *)
(* ===================================================================== *)

Section DataSourceProperties.
Import Adapter Opening DataSource.
Variable searchParamsGet : string -> string -> option string.
Variable envRegion : option string.
Variable openSync : string -> string + Z.
Variable mathLog : float -> float.
Variable mathRound : float -> float.
Variable pathResolve : string -> string -> string.
Variable stat : string -> Settled (bool * Z).
Variable archiveOf : ByteSource -> PMTiles.
Variable parseInt : JsVal -> float.
Variable mbtilesInfo : string -> Settled (gmap string JsProp).

Lemma remote_needs_no_stat (otherStat : string -> Settled (bool * Z)) (file : string) :
  isValidRemoteUrl file = true ->
  checkLocalFile otherStat file = None.
Proof. unfold checkLocalFile. now intros ->. Qed.

Lemma s3_is_remote (file : string) : isS3Url file = true -> isValidRemoteUrl file = true.
Proof.
  unfold isS3Url, isValidRemoteUrl. intros H.
  destruct (httpTester file); [reflexivity|]. exact H.
Qed.

(** X24.  How the registration of a data source can fail.  It is skipped,
    the repository being left as it was and nothing being thrown, only
    when the source is a PMTiles archive that could be opened but whose
    metadata could not be read; the message logged is then the failure of
    the last attempt, with the file.  A PMTiles location that is a http(s)
    or S3 URL is taken as it is and is never looked up in the file system.
    A location that [isS3Url] accepts but that does not start with [s3://]
    makes the registration fail with the invalid-format error before the
    archive is queried.  A remote MBTiles location ends the process. *)
Theorem X24_how_registration_fails
    (decorateTileJSON : option (string -> gmap string JsProp -> gmap string JsProp))
    (pmtilesPath mbtilesPath : string) (optionDomains : JsProp)
    (repo : gmap string Entry) (params : Params) (id : string)
    (givenPublicUrl : option string) :
  let run := fun st =>
    add searchParamsGet envRegion openSync mathLog mathRound pathResolve st archiveOf
        parseInt mbtilesInfo decorateTileJSON pmtilesPath mbtilesPath optionDomains
        repo params id givenPublicUrl in
  (forall file msg,
     snd (run stat) = Skipped file msg ->
     exists given source k e,
       pmtiles params = Some given /\ given <> ""
       /\ file = (if isValidRemoteUrl given then given else pathResolve pmtilesPath given)
       /\ openPMtiles searchParamsGet envRegion openSync file (s3Profile params)
            (requestPayer params) (s3Region params) (s3UrlFormat params) = inr source
       /\ k < defaultMaxRetries
       /\ infoAttempt parseInt (archiveOf source) k = Rejected e
       /\ msg = template (message e) ++ " for file: " ++ file)
  /\ (forall given otherStat,
        pmtiles params = Some given -> isValidRemoteUrl given = true ->
        run otherStat = run stat)
  /\ (forall given,
        pmtiles params = Some given -> isS3Url given = true ->
        String.prefix "s3://" given = false ->
        run stat = ([], Failed (S3.invalidFormatMessage given)))
  /\ (forall given,
        S3.truthyStr (pmtiles params) = false -> mbtiles params = Some given ->
        isValidRemoteUrl given = true ->
        run stat = ([], Exited)).
Proof.
  cbn zeta. split; [|split; [|split]].
  - intros file msg. unfold add.
    destruct (pmtiles params) as [given|] eqn:Hp; simpl.
    + destruct (String.eqb given "") eqn:Hg; simpl.
      * destruct (S3.truthyStr (mbtiles params)); [|discriminate].
        destruct (isValidRemoteUrl (S3.nullish (mbtiles params) "")); [discriminate|].
        destruct (checkLocalFile stat _); [discriminate|].
        destruct (mbtilesInfo _); discriminate.
      * apply String.eqb_neq in Hg.
        set (inputFile := if isValidRemoteUrl given then given
                          else pathResolve pmtilesPath given).
        destruct (checkLocalFile stat inputFile); [discriminate|].
        destruct (openPMtiles searchParamsGet envRegion openSync inputFile
                    (s3Profile params) (requestPayer params) (s3Region params)
                    (s3UrlFormat params)) as [err|source] eqn:Hopen; [discriminate|].
        destruct (getPMtilesInfo parseInt (archiveOf source) inputFile defaultMaxRetries)
          as [tr [md|m]] eqn:Hinfo; [discriminate|].
        simpl. intros H. injection H as <- <-.
        assert (Hthrown : snd (getPMtilesInfo parseInt (archiveOf source) inputFile
                                 defaultMaxRetries) = Thrown m) by now rewrite Hinfo.
        unfold getPMtilesInfo in Hthrown.
        apply (infoLoop_thrown parseInt (archiveOf source) inputFile defaultMaxRetries m
                 defaultMaxRetries 0 None eq_refl) in Hthrown;
          [|unfold defaultMaxRetries; lia].
        destruct Hthrown as (k & e & _ & Hk & _ & Hrej & Hmsg & _).
        exists given, source, k, e. repeat split; auto.
    + destruct (S3.truthyStr (mbtiles params)); [|discriminate].
      destruct (isValidRemoteUrl (S3.nullish (mbtiles params) "")); [discriminate|].
      destruct (checkLocalFile stat _); [discriminate|].
      destruct (mbtilesInfo _); discriminate.
  - intros given otherStat Hp Hremote. unfold add. rewrite Hp. simpl.
    destruct (String.eqb given "") eqn:Hg.
    + apply String.eqb_eq in Hg. subst given. discriminate.
    + simpl. rewrite Hremote.
      now rewrite !remote_needs_no_stat by exact Hremote.
  - intros given Hp Hs3 Hpre. unfold add. rewrite Hp. simpl.
    destruct (String.eqb given "") eqn:Hg.
    + apply String.eqb_eq in Hg. subst given. discriminate.
    + simpl. rewrite (s3_is_remote _ Hs3).
      rewrite remote_needs_no_stat by now apply s3_is_remote.
      unfold openPMtiles, S3.newS3Source. rewrite Hs3.
      now rewrite (parse_needs_scheme _ _ _ _ Hpre).
  - intros given Hp Hm Hremote. unfold add. rewrite Hp, Hm. simpl.
    destruct (String.eqb given "") eqn:Hg.
    + apply String.eqb_eq in Hg. subst given. discriminate.
    + simpl. now rewrite Hremote.
Qed.

Lemma fixTileJSONCenter_kept (t : gmap string JsProp) :
  truthyProp (t !! "center") = true -> fixTileJSONCenter mathLog mathRound t = t.
Proof.
  intros H. unfold fixTileJSONCenter. rewrite H. now rewrite andb_false_r.
Qed.

(** X25.  What a registered PMTiles data source looks like when neither
    overrides nor a decorator are configured: only the entry of its id is
    written; its tilejson is the archive's metadata as [getPMtilesInfo]
    returned it, which wins over the configured name, format, encoding,
    tile size and [sparse], completed by these where the archive says
    nothing; [filesize], [mtime] and [scheme] are dropped, [tilejson] is
    [3.0.0]; the format is the one of the archive's tile type, not the
    initial [pbf]; and the center is the archive's, [fixTileJSONCenter]
    finding one already there. *)
Theorem X25_registered_archive_entry
    (pmtilesPath mbtilesPath : string) (optionDomains : JsProp)
    (repo repo' : gmap string Entry) (params : Params) (id : string)
    (givenPublicUrl : option string) (given : string) :
  pmtiles params = Some given -> given <> "" -> tilejson params = None ->
  snd (add searchParamsGet envRegion openSync mathLog mathRound pathResolve stat
           archiveOf parseInt mbtilesInfo None pmtilesPath mbtilesPath optionDomains
           repo params id givenPublicUrl) = Registered repo' ->
  exists entry source metadata k h m0,
    repo' !! id = Some entry
    /\ (forall other, other <> id -> repo' !! other = repo !! other)
    /\ reader entry = ArchiveReader source /\ sourceType entry = "pmtiles"
    /\ publicUrl entry = givenPublicUrl
    /\ getHeader (archiveOf source) k = Resolved h
    /\ getMetadata (archiveOf source) k = Resolved m0
    /\ metadata = fillMetadata parseInt h m0
    /\ (forall name, name <> "filesize" -> name <> "mtime" -> name <> "scheme" ->
                     name <> "tilejson" ->
                     tileJSON entry !! name
                     = match metadata !! name with
                       | Some v => Some v
                       | None => initialTileJSON optionDomains params id !! name
                       end)
    /\ tileJSON entry !! "filesize" = None /\ tileJSON entry !! "mtime" = None
    /\ tileJSON entry !! "scheme" = None
    /\ tileJSON entry !! "tilejson" = Some (PVal (JStr "3.0.0"))
    /\ tileJSON entry !! "format"
       = Some (PVal (typeName (getPmtilesTileType (tileType h))))
    /\ tileJSON entry !! "center" = metadata !! "center".
Proof.
  intros Hp Hg Ht. unfold add. rewrite Hp. simpl.
  apply String.eqb_neq in Hg. rewrite Hg. simpl.
  set (inputFile := if isValidRemoteUrl given then given
                    else pathResolve pmtilesPath given).
  destruct (checkLocalFile stat inputFile); [discriminate|].
  destruct (openPMtiles searchParamsGet envRegion openSync inputFile
              (s3Profile params) (requestPayer params) (s3Region params)
              (s3UrlFormat params)) as [err|source]; [discriminate|].
  destruct (getPMtilesInfo parseInt (archiveOf source) inputFile defaultMaxRetries)
    as [tr [md|m]] eqn:Hinfo; [|discriminate].
  simpl. intros H. injection H as <-.
  assert (Hret : snd (getPMtilesInfo parseInt (archiveOf source) inputFile
                        defaultMaxRetries) = Returned md) by now rewrite Hinfo.
  unfold getPMtilesInfo in Hret.
  apply infoLoop_returned in Hret as (k & h & m0 & Hh & Hm & Hmd).
  unfold finish. rewrite Ht.
  set (t2 := <[ "tilejson" := PVal (JStr "3.0.0") ]>
               (delete "scheme" (delete "mtime" (delete "filesize"
                  (md ∪ initialTileJSON optionDomains params id))))).
  assert (Hcenter : t2 !! "center" = md !! "center").
  { unfold t2. rewrite lookup_insert_ne by discriminate.
    rewrite !lookup_delete_ne by discriminate.
    rewrite Hmd, (fillMetadata_center parseInt h m0).
    erewrite lookup_union_Some_l; [reflexivity|].
    apply fillMetadata_center. }
  assert (Hfix : fixTileJSONCenter mathLog mathRound t2 = t2).
  { apply fixTileJSONCenter_kept. rewrite Hcenter, Hmd.
    now rewrite (fillMetadata_center parseInt h m0). }
  rewrite Hfix.
  eexists _, source, md, k, h, m0.
  split; [apply lookup_insert_eq|].
  split; [intros other Ho; apply lookup_insert_ne; congruence|].
  split; [reflexivity|]. split; [reflexivity|]. split; [reflexivity|].
  split; [exact Hh|]. split; [exact Hm|]. split; [exact Hmd|].
  simpl. split.
  { intros name H1 H2 H3 H4. unfold t2.
    rewrite lookup_insert_ne by congruence.
    rewrite !lookup_delete_ne by congruence.
    destruct (md !! name) as [v|] eqn:Hv.
    - now apply lookup_union_Some_l.
    - now apply lookup_union_r. }
  unfold t2.
  split; [rewrite lookup_insert_ne by discriminate;
          rewrite !lookup_delete_ne by discriminate; apply lookup_delete_eq|].
  split; [rewrite lookup_insert_ne by discriminate;
          rewrite lookup_delete_ne by discriminate; apply lookup_delete_eq|].
  split; [rewrite lookup_insert_ne by discriminate; apply lookup_delete_eq|].
  split; [apply lookup_insert_eq|].
  split; [|exact Hcenter].
  rewrite lookup_insert_ne by discriminate.
  rewrite !lookup_delete_ne by discriminate.
  apply lookup_union_Some_l. rewrite Hmd.
  unfold fillMetadata.
  destruct (hasBounds h), (truthy (centerZoom h)); now simplify_map_eq.
Qed.

End DataSourceProperties.

(* ===================================================================== *)
(** ** Properties of the options written inside a path                    *)
(* ===================================================================== *)

Section OverlayProperties.
Import Overlay.

Lemma dropChars_append (a b : string) : dropChars (String.length a) (a ++ b) = b.
Proof. induction a as [|c a IH]; simpl; [reflexivity | exact IH]. Qed.

Lemma removeFirst_prefix (needle rest : string) :
  removeFirst needle (needle ++ rest) = rest.
Proof.
  destruct (needle ++ rest) as [|c s] eqn:E.
  - destruct needle; [simpl in E; now subst | discriminate].
  - cbn [removeFirst]. rewrite <- E, prefix_self_append. apply dropChars_append.
Qed.

Lemma find_none (p : string -> bool) (l : list string) :
  List.find p l = None <-> forall x, In x l -> p x = false.
Proof.
  induction l as [|a l IH]; simpl.
  - split; [intros _ x [] | reflexivity].
  - destruct (p a) eqn:Ha.
    + split; [discriminate|]. intros H. rewrite (H a) in Ha; [discriminate | now left].
    + rewrite IH. split.
      * intros H x [<-|Hx]; auto.
      * intros H x Hx. apply H. now right.
Qed.

Lemma find_first (p : string -> bool) (pre post : list string) (x : string) :
  (forall y, In y pre -> p y = false) -> p x = true ->
  List.find p (pre ++ x :: post) = Some x.
Proof.
  induction pre as [|a pre IH]; intros Hpre Hx; simpl.
  - now rewrite Hx.
  - rewrite (Hpre a) by now left. apply IH; [|exact Hx].
    intros y Hy. apply Hpre. now right.
Qed.

(** X26.  An option written inside a path is read back: among the parts
    of the path, the first one that starts with [name:] decides, and the
    value is everything after that prefix, later colons and later
    occurrences of [name:] included; the option is undefined exactly when
    no part starts with [name:]. *)
Theorem X26_inline_option_is_read_back (name : string) :
  (forall pre value post,
     (forall part, In part pre -> String.prefix (name ++ ":") part = false) ->
     getInlineOption (pre ++ (name ++ ":" ++ value) :: post) name = Some value)
  /\ (forall parts,
        getInlineOption parts name = None
        <-> forall part, In part parts -> String.prefix (name ++ ":") part = false).
Proof.
  split.
  - intros pre value post Hpre. unfold getInlineOption.
    replace (name ++ ":" ++ value) with ((name ++ ":") ++ value)
      by apply append_assoc.
    rewrite (find_first _ pre post _ Hpre (prefix_self_append _ _)).
    rewrite removeFirst_prefix.
    destruct name; reflexivity.
  - intros parts. unfold getInlineOption. rewrite <- find_none.
    destruct (List.find (String.prefix (name ++ ":")) parts) as [found|] eqn:Hf.
    + split; [|discriminate].
      apply find_some in Hf as [_ Hp].
      destruct found as [|c found]; [|discriminate].
      destruct name; discriminate.
    + split; reflexivity.
Qed.

End OverlayProperties.

(* ===================================================================== *)
(** ** Sample runs                                                        *)
(* ===================================================================== *)

(** X2, witness: the archive's [name] is returned next to what the header
    fills in. *)
Lemma X2_info_keeps_other_metadata_witness :
  exists k h m0,
    Adapter.attempts
      (fst (Adapter.getPMtilesInfo Adapter.parseIntOnIntegers Waiting.alpineArchive
              "alps.pmtiles" 3)) = k + 1
    /\ Adapter.getHeader Waiting.alpineArchive k = Resolved h
    /\ Adapter.getMetadata Waiting.alpineArchive k = Resolved m0
    /\ m0 !! "name" = Some (PVal (JStr "alps"))
    /\ Adapter.fillMetadata Adapter.parseIntOnIntegers Waiting.alpineHeader
         {[ "name" := PVal (JStr "alps") ]} !! "name" = m0 !! "name".
Proof.
  destruct (X2_info_keeps_other_metadata Adapter.parseIntOnIntegers
              Waiting.alpineArchive "alps.pmtiles" 3
              (Adapter.fillMetadata Adapter.parseIntOnIntegers Waiting.alpineHeader
                 {[ "name" := PVal (JStr "alps") ]}) eq_refl)
    as (k & h & m0 & Hat & Hh & Hm & Hother & _).
  exists k, h, m0. split; [exact Hat|]. split; [exact Hh|]. split; [exact Hm|].
  split.
  - simpl in Hm. now injection Hm as <-.
  - apply Hother; discriminate.
Defined.

(** X3, witness: the bounds of the sample archive are passed through. *)
Lemma X3_header_bounds_witness :
  exists k h,
    Adapter.attempts
      (fst (Adapter.getPMtilesInfo Adapter.parseIntOnIntegers Waiting.alpineArchive
              "alps.pmtiles" 3)) = k + 1
    /\ Adapter.getHeader Waiting.alpineArchive k = Resolved h
    /\ Adapter.fillMetadata Adapter.parseIntOnIntegers Waiting.alpineHeader
         {[ "name" := PVal (JStr "alps") ]} !! "bounds"
       = Some (PArr [Adapter.minLon h; Adapter.minLat h;
                     Adapter.maxLon h; Adapter.maxLat h]).
Proof.
  apply (X3_header_bounds_pass_through Adapter.parseIntOnIntegers
           Waiting.alpineArchive "alps.pmtiles" 3
           (Adapter.fillMetadata Adapter.parseIntOnIntegers Waiting.alpineHeader
              {[ "name" := PVal (JStr "alps") ]})).
  - reflexivity.
  - intros k h H. injection H as <-. split; reflexivity.
Defined.

(** X5, witness: a tile served on the second attempt. *)
Lemma X5_tile_is_the_archive_entry_witness :
  exists k zt h,
    Adapter.attempts
      (fst (Adapter.getPMtilesTile (Adapter.flakyArchive 1 "boom") 3 1 2 3)) = k + 1
    /\ Adapter.getZxy (Adapter.flakyArchive 1 "boom") k 3 1 2 = Resolved (Some zt)
    /\ Adapter.zxyData zt = Some [1; 2; 3]%Z
    /\ Adapter.getHeader (Adapter.flakyArchive 1 "boom") k = Resolved h.
Proof.
  destruct (X5_tile_is_the_archive_entry (Adapter.flakyArchive 1 "boom") 3 1 2 3
              (Adapter.mkTileInfo [1; 2; 3]%Z {[ "Content-Type" := "image/png" ]})
              eq_refl)
    as (k & zt & h & Hat & Hz & Hd & Hh & _).
  exists k, zt, h. auto.
Defined.

(** Tiles of the data server: a tile inside the grid is served gzipped with
    the archive's content type; a column outside the grid of its zoom
    level is refused without the archive being read. *)
Example data_tile_served :
  DataRoute.tileRoute None (fun bytes => Resolved bytes) (fun bytes => Resolved bytes)
    None (fun _ _ _ _ => inr []) "alps" (Some DataRoute.pngItem)
    (Some 1%Z) (Some 1%Z) (Some 0%Z) "png"
  = ([Adapter.Attempt 0],
     DataRoute.Tile {[ "Content-Encoding" := "gzip"; "Content-Type" := "image/png" ]}
                    [1; 2; 3]%Z)
  /\ DataRoute.tileRoute None (fun bytes => Resolved bytes) (fun bytes => Resolved bytes)
       None (fun _ _ _ _ => inr []) "alps" (Some DataRoute.pngItem)
       (Some 1%Z) (Some 2%Z) (Some 0%Z) "png"
     = ([], DataRoute.Status 404 "Out of bounds").
Proof. split; reflexivity. Qed.

(** A request for a 300-pixel tile is answered "Invalid size"; one for a
    512-pixel JPEG at scale 2 is rendered as [jpeg] from the tile pool. *)
Example tile_request_samples :
  TileRequest.handleTileRequest (fun _ _ => false) (fun _ _ _ => (8.5, 47.25)%float)
    (TileRequest.mkOptions None None None None) 3 (Some 256%Z)
    (Some "Mon, 02 Nov 2026 10:00:00 GMT") None None
    (Some "300") 3 4 2 None (Some "png")
  = TileRequest.Reply 400 "Invalid size"
  /\ TileRequest.handleTileRequest (fun _ _ => false) (fun _ _ _ => (8.5, 47.25)%float)
       (TileRequest.mkOptions None None None None) 3 (Some 256%Z)
       (Some "Mon, 02 Nov 2026 10:00:00 GMT") None None
       (Some "512") 3 4 2 (Some "2x") (Some "jpg")
     = TileRequest.Render TileRequest.TilePool 2 "jpeg" 8.5%float 47.25%float 512 512.
Proof. split; reflexivity. Qed.

(** Markers of a request: a remote icon is dropped while remote icons are
    not allowed, the listed icon is used with its options. *)
Example marker_samples :
  MarkerQuery.extractMarkersFromQuery (fun name => name) MarkerQuery.joinPath None None
    (MarkerQuery.mkOptions ["pin.png"] "/icons" JUndefined JUndefined)
    (MarkerQuery.ManyMarkers
       [ Some "8.5,47.25|https://example.com/pin.png";
         None;
         Some "8.5,47.25|pin.png|scale:2|offset:10,-5" ])
  = [ Markers.mkMarker (8.5, 47.25)%float "/icons/pin.png"
        (Some 2%float) (Some 10%float) (Some (-5)%float) ].
Proof. reflexivity. Qed.

(** X25, witness: the sample archive registered from a local file; the
    entry takes its name and its format from the archive. *)
Lemma X25_registered_archive_witness :
  exists repo' entry,
    snd (DataSource.add S3.plainParamsGet None (fun _ => inr 3%Z)
           (fun x => x) (fun x => x) MarkerQuery.joinPath
           (fun _ => Resolved (true, 4096%Z)) (fun _ => Waiting.alpineArchive)
           Adapter.parseIntOnIntegers (fun _ => Resolved ∅) None
           "/data" "/data" (PVal JUndefined) ∅
           (DataSource.localArchive "alps.pmtiles") "alps" None)
    = DataSource.Registered repo'
    /\ repo' !! "alps" = Some entry
    /\ DataSource.sourceType entry = "pmtiles"
    /\ DataSource.tileJSON entry !! "format" = Some (PVal (JStr "png"))
    /\ DataSource.tileJSON entry !! "name" = Some (PVal (JStr "alps"))
    /\ DataSource.tileJSON entry !! "tilejson" = Some (PVal (JStr "3.0.0")).
Proof.
  eexists. 
  destruct (X25_registered_archive_entry S3.plainParamsGet None (fun _ => inr 3%Z)
              (fun x => x) (fun x => x) MarkerQuery.joinPath
              (fun _ => Resolved (true, 4096%Z)) (fun _ => Waiting.alpineArchive)
              Adapter.parseIntOnIntegers (fun _ => Resolved ∅)
              "/data" "/data" (PVal JUndefined) ∅ _
              (DataSource.localArchive "alps.pmtiles") "alps" None "alps.pmtiles"
              eq_refl ltac:(discriminate) eq_refl eq_refl)
    as (entry & source & metadata & k & h & m0 & Hentry & _ & _ & Htype & _ & Hh & Hm
        & Hmd & Hother & _ & _ & _ & Hversion & Hformat & _).
  exists entry. split; [reflexivity|]. split; [exact Hentry|]. split; [exact Htype|].
  simpl in Hh, Hm. injection Hh as <-. injection Hm as <-.
  split; [exact Hformat|]. split; [|exact Hversion].
  rewrite Hother by discriminate. now rewrite Hmd.
Defined.

(** X17, witness: latitude first with [latlng=1], longitude first without;
    the marker is the same one. *)
Lemma X17_latlng_witness :
  MarkerQuery.extractMarker (fun name => name) MarkerQuery.joinPath (Some "1") None
    (MarkerQuery.mkOptions ["pin.png"] "/icons" JUndefined JUndefined)
    "47.25,8.5|pin.png|scale:2"
  = MarkerQuery.extractMarker (fun name => name) MarkerQuery.joinPath None None
      (MarkerQuery.mkOptions ["pin.png"] "/icons" JUndefined JUndefined)
      "8.5,47.25|pin.png|scale:2"
  /\ MarkerQuery.extractMarker (fun name => name) MarkerQuery.joinPath None None
       (MarkerQuery.mkOptions ["pin.png"] "/icons" JUndefined JUndefined)
       "8.5,47.25|pin.png|scale:2"
     = Some (Markers.mkMarker (8.5, 47.25)%float "/icons/pin.png"
               (Some 2%float) None None).
Proof.
  destruct (X17_latlng_swaps_the_coordinates (fun name => name) MarkerQuery.joinPath
              None None
              (MarkerQuery.mkOptions ["pin.png"] "/icons" JUndefined JUndefined)
              "47.25" "8.5" "pin.png|scale:2" eq_refl eq_refl eq_refl eq_refl)
    as (Hone & _ & _).
  split; [exact Hone | reflexivity].
Defined.
